(** * The Authenticator of the NBI (osm_nbi/auth.py)

    A shallow embedding of [Authenticator]: the permission catalog built by
    [init_db], the URL resolver [_normalize_url], [check_permissions],
    [authorize] and the token life cycle of both backend modes
    ([new_token], [del_token], [_internal_authorize],
    [_internal_new_token], [_internal_tokens_prune]).  The token reads
    ([get_token], [_internal_get_token_list]) and, of osm_nbi/engine.py,
    [_deep_update] and the token table of the Engine follow in parts of
    their own.

    Conventions.
    - Python [str] is [string]; characters are bytes (ASCII).
    - A Python [dict] iterates in insertion order; one whose iteration order
      is observable is an association list with pairwise distinct keys
      ([dict]); the token cache, which is only ever read by key, is a
      [gmap].
    - [time()] yields a float; timestamps are modelled as integers ([Z],
      seconds), only their order and sums are used.
    - Exceptions are values of [exn]; a computation that raises still keeps
      the mutations it performed before raising. *)

From Stdlib Require Import ZArith String Ascii List Permutation Sorted.
From stdpp Require Import base option list gmap strings.
From Stdlib Require Import Lia.

Open Scope string_scope.
Open Scope Z_scope.

(** ** Exceptions and results *)

Inductive http_status :=
| UNAUTHORIZED | NOT_FOUND | CONFLICT | BAD_GATEWAY
| NOT_IMPLEMENTED | INTERNAL_SERVER_ERROR.

Inductive exn :=
| AuthException (message : string) (http_code : http_status)
| AuthconnException (message : string) (http_code : http_status)
| DbException (message : string) (http_code : http_status)
| KeyError
| IndexError
| TypeError
| AttributeError.

Inductive result (A : Type) :=
| Ok (a : A)
| Err (e : exn).
Arguments Ok {A} a.
Arguments Err {A} e.

#[global] Instance http_status_eq_dec : EqDecision http_status.
Proof. solve_decision. Defined.
#[global] Instance exn_eq_dec : EqDecision exn.
Proof. solve_decision. Defined.

#[global] Instance result_ret : MRet result := fun _ a => Ok a.
#[global] Instance result_bind : MBind result := fun _ _ f m =>
  match m with
  | Ok a => f a
  | Err e => Err e
  end.

Definition is_Ok {A} (r : result A) : bool :=
  match r with Ok _ => true | Err _ => false end.

(** ** Python string operations *)

Module Py.

(** [needle in hay] *)
Definition contains (needle hay : string) : bool :=
  match index 0 needle hay with
  | Some _ => true
  | None => false
  end.

(** [hay.find(needle)] *)
Definition find (hay needle : string) : Z :=
  match index 0 needle hay with
  | Some n => Z.of_nat n
  | None => -1
  end.

(** [s.count(c)] for a one-character [c] *)
Fixpoint count (c : ascii) (s : string) : nat :=
  match s with
  | EmptyString => 0%nat
  | String a s' => ((if Ascii.eqb a c then 1 else 0) + count c s')%nat
  end.

(** [s.split(c)] for a one-character separator: never empty *)
Fixpoint split (c : ascii) (s : string) : list string :=
  match s with
  | EmptyString => [EmptyString]
  | String a s' =>
      if Ascii.eqb a c then EmptyString :: split c s'
      else match split c s' with
           | h :: t => String a h :: t
           | [] => [String a EmptyString]
           end
  end.

(** [str.isspace] on the ASCII range *)
Definition isspace (a : ascii) : bool :=
  let n := nat_of_ascii a in
  ((9 <=? n) && (n <=? 13) || (28 <=? n) && (n <=? 32))%nat.

(** [s.split()]: maximal runs of non-blank characters *)
Fixpoint words_go (cur : option string) (s : string) : list string :=
  match s with
  | EmptyString =>
      match cur with Some w => [w] | None => [] end
  | String a s' =>
      if isspace a then
        match cur with
        | Some w => w :: words_go None s'
        | None => words_go None s'
        end
      else
        words_go (Some (match cur with
                        | Some w => w +:+ String a EmptyString
                        | None => String a EmptyString
                        end)) s'
  end.
Definition words (s : string) : list string := words_go None s.

(** [sep.join(l)] *)
Definition join (sep : string) (l : list string) : string := String.concat sep l.

(** [s[:n]] *)
Definition take (n : nat) (s : string) : string := substring 0 n s.

(** [s[1:-1]] *)
Definition strip_ends (s : string) : string :=
  substring 1 (String.length s - 2) s.

(** [s.lower()] on the ASCII range *)
Definition lower_ascii (a : ascii) : ascii :=
  let n := nat_of_ascii a in
  if ((65 <=? n) && (n <=? 90))%nat then ascii_of_nat (n + 32) else a.
Fixpoint lower (s : string) : string :=
  match s with
  | EmptyString => EmptyString
  | String a s' => String (lower_ascii a) (lower s')
  end.

(** [l[i]] and [l[-1]] *)
Definition nth_item {A} (l : list A) (i : nat) : result A :=
  match nth_error l i with
  | Some x => Ok x
  | None => Err IndexError
  end.
Definition last_item {A} (l : list A) : result A :=
  match last l with
  | Some x => Ok x
  | None => Err IndexError
  end.

(** truth value of an optional string: [None] and [""] are false *)
Definition truthy (o : option string) : bool :=
  match o with
  | Some s => negb (String.eqb s "")
  | None => false
  end.

End Py.

(** ** Ordered dictionaries *)

Definition dict (V : Type) := list (string * V).

Section Dict.
Context {V : Type}.

Fixpoint dict_get (k : string) (d : dict V) : option V :=
  match d with
  | [] => None
  | (k', v) :: d' => if String.eqb k' k then Some v else dict_get k d'
  end.

(** [d[k] = v]: an existing key keeps its position, a new key is appended *)
Fixpoint dict_set (k : string) (v : V) (d : dict V) : dict V :=
  match d with
  | [] => [(k, v)]
  | (k', v') :: d' =>
      if String.eqb k' k then (k', v) :: d' else (k', v') :: dict_set k v d'
  end.

Definition dict_keys (d : dict V) : list string := map fst d.

(** [d[k]] *)
Definition dict_item (k : string) (d : dict V) : result V :=
  match dict_get k d with
  | Some v => Ok v
  | None => Err KeyError
  end.
End Dict.

Definition mem_string (s : string) (l : list string) : bool :=
existsb (String.eqb s) l.

(** ** URL resolution: [Authenticator._normalize_url] *)

Module Url.

Definition artifactPath : string := "<artifactPath>".

(** [url if '?' not in url else url[:url.find("?")]] *)
Definition strip_query (url : string) : string :=
if Py.contains "?" url then Py.take (Z.to_nat (Py.find url "?")) url else url.

(** [key.split()[0]] and [key.split()[1]] *)
Definition key_method (key : string) : result string := Py.nth_item (Py.words key) 0.
Definition key_url (key : string) : result string := Py.nth_item (Py.words key) 1.

(** [[key for key in mapping.keys() if method in key.split()[0]]] *)
Fixpoint filter_by_method (method : string) (keys : list string) : result (list string) :=
match keys with
| [] => Ok []
| key :: rest =>
    m ← key_method key;
    tl ← filter_by_method method rest;
    Ok (if Py.contains method m then key :: tl else tl)
end.

(** ["<" in seg and ">" in seg] *)
Definition is_placeholder (seg : string) : bool :=
Py.contains "<" seg && Py.contains ">" seg.

(** The body of the inner loop for one candidate: does [tmp_key] get appended
  to [tmp_keys] at position [idx] of a request of [n] segments? *)
Definition survives (n idx : nat) (path_part tmp_key : string) : result bool :=
u ← key_url tmp_key;
let splitted := Py.split "/" u in
match nth_error splitted idx with
| None => Ok false
| Some seg =>
    if is_placeholder seg then
      if String.eqb seg artifactPath then Ok true
      else if (idx =? n - 1)%nat && negb (n =? length splitted)%nat then Ok false
      else Ok true
    else if String.eqb seg path_part then
      if (idx =? n - 1)%nat && negb (n =? length splitted)%nat then Ok false
      else Ok true
    else Ok false
end.

Fixpoint scan_step (n idx : nat) (path_part : string) (filtered_keys : list string)
: result (list string) :=
match filtered_keys with
| [] => Ok []
| tmp_key :: rest =>
    b ← survives n idx path_part tmp_key;
    tl ← scan_step n idx path_part rest;
    Ok (if (b : bool) then tmp_key :: tl else tl)
end.

(** [len(filtered_keys) == 1 and filtered_keys[0].split("/")[-1] == "<artifactPath>"] *)
Definition stops (filtered_keys : list string) : bool :=
match filtered_keys with
| [k] => match last (Py.split "/" k) with
         | Some seg => String.eqb seg artifactPath
         | None => false
         end
| _ => false
end.

(** The [for idx, path_part in enumerate(normalized_url_splitted)] loop with
  its [break]. *)
Fixpoint scan (n idx : nat) (parts : list string) (filtered_keys : list string)
: result (list string) :=
match parts with
| [] => Ok filtered_keys
| path_part :: rest =>
    tmp_keys ← scan_step n idx path_part filtered_keys;
    if stops tmp_keys then Ok tmp_keys
    else scan n (S idx) rest tmp_keys
end.

(** The second loop: parameters taken from the placeholders of the key. *)
Fixpoint extract (segs : list string) (idx : nat) (tparts : list string)
  (parameters : dict string) : result (dict string) :=
match tparts with
| [] => Ok parameters
| path_part :: rest =>
    if is_placeholder path_part then
      if String.eqb path_part artifactPath then
        extract segs (S idx) rest
          (dict_set (Py.strip_ends path_part) (Py.join "/" (drop idx segs)) parameters)
      else
        v ← Py.nth_item segs idx;
        extract segs (S idx) rest (dict_set (Py.strip_ends path_part) v parameters)
    else extract segs (S idx) rest parameters
end.

Definition not_found (url : string) : exn :=
AuthException ("Cannot make an authorization decision. URL not found. URL: " +:+ url)
  UNAUTHORIZED.
Definition multiple_found (url : string) : exn :=
AuthException ("Cannot make an authorization decision. Multiple URLs found. URL: " +:+ url)
  UNAUTHORIZED.

Definition _normalize_url (mapping : dict string) (url method : string)
: result (string * dict string) :=
let normalized_url := strip_query url in
let normalized_url_splitted := Py.split "/" normalized_url in
filtered_keys ← filter_by_method method (dict_keys mapping);
filtered_keys ← scan (length normalized_url_splitted) 0 normalized_url_splitted filtered_keys;
match filtered_keys with
| [] => Err (not_found url)
| [filtered_key] =>
    u ← key_url filtered_key;
    parameters ← extract normalized_url_splitted 0 (Py.split "/" u) [];
    Ok (filtered_key, parameters)
| _ => Err (multiple_found url)
end.

End Url.

(** ** The permission catalog: the index build of [Authenticator.init_db] *)

(** Values stored in a [roles_operations] record. *)
Inductive value :=
| VBool (b : bool)
| VStr (s : string)
| VAdmin (created modified : Z)
| VNone.

#[global] Instance value_eq_dec : EqDecision value.
Proof. solve_decision. Defined.

(** [v is True] *)
Definition is_True (v : value) : bool :=
match v with VBool true => true | _ => false end.

Module Catalog.

Definition ignore_fields : list string := ["_id"; "_admin"; "name"; "root"].

(** [[(oper, value) for oper, value in record.items() if oper not in ignore_fields]] *)
Definition operations_joined (record : dict value) : list (string * value) :=
List.filter (fun x => negb (mem_string (fst x) ignore_fields)) record.

(** the sort key [x[0].count(":")] *)
Definition colons (x : string * value) : nat := Py.count ":" (fst x).

(** [list.sort(key=...)] is stable: equal keys keep their relative order. *)
Fixpoint insert_sorted (x : string * value) (l : list (string * value))
: list (string * value) :=
match l with
| [] => [x]
| y :: l' =>
    if (colons x <=? colons y)%nat then x :: y :: l' else y :: insert_sorted x l'
end.
Definition sort_by_colons (l : list (string * value)) : list (string * value) :=
fold_right insert_sorted [] l.

(** [x.find(prefix) == 0] *)
Definition starts_with (prefix x : string) : bool := Py.find x prefix =? 0.

(** [match = list(filter(lambda x: x.find(oper[0]) == 0, record_permissions.keys()))]
  followed by [for m in match: record_permissions[m] = oper[1]] *)
Definition apply_override (record_permissions : dict value) (oper : string * value)
: dict value :=
fold_left (fun rp m => dict_set m (snd oper) rp)
  (List.filter (starts_with (fst oper)) (dict_keys record_permissions))
  record_permissions.

(** [{oper: record["root"] for oper in operations}] *)
Fixpoint root_permissions (operations : list string) (record : dict value)
  (acc : dict value) : result (dict value) :=
match operations with
| [] => Ok acc
| oper :: rest =>
    root ← dict_item "root" record;
    root_permissions rest record (dict_set oper root acc)
end.

(** The per-record table: defaults, then the overrides in sorted order. *)
Definition record_permissions (operations : list string) (record : dict value)
: result (dict value) :=
rp ← root_permissions operations record [];
Ok (fold_left apply_override (sort_by_colons (operations_joined record)) rp).

(** [[k for k, v in record_permissions.items() if v is True]] *)
Definition allowed_operations (rp : dict value) : list string :=
map fst (List.filter (fun kv => is_True (snd kv)) rp).

(** [for allowed_op in allowed_operations: permissions[allowed_op].append(record["name"])] *)
Fixpoint append_role (record : dict value) (allowed : list string)
  (permissions : dict (list value)) : result (dict (list value)) :=
match allowed with
| [] => Ok permissions
| allowed_op :: rest =>
    role_list ← dict_item allowed_op permissions;
    name ← dict_item "name" record;
    append_role record rest (dict_set allowed_op (role_list ++ [name])%list permissions)
end.

(** [for record in records: ...] *)
Fixpoint add_records (operations : list string) (records : list (dict value))
  (permissions : dict (list value)) : result (dict (list value)) :=
match records with
| [] => Ok permissions
| record :: rest =>
    rp ← record_permissions operations record;
    permissions ← append_role record (allowed_operations rp) permissions;
    add_records operations rest permissions
end.

(** [permissions = {oper: [] for oper in operations}] and the loop over the
  records. *)
Definition build_permissions (operations : list string) (records : list (dict value))
: result (dict (list value)) :=
add_records operations records
  (fold_left (fun d oper => dict_set oper [] d) operations []).

(** [for oper, role_list in permissions.items():
     self.operation_to_allowed_roles[oper] = role_list] *)
Definition store_permissions (permissions index : dict (list value)) : dict (list value) :=
fold_left (fun ix kv => dict_set (fst kv) (snd kv) ix) permissions index.

End Catalog.


(** ** The resolution rule in the words of the specification

    A declared prefix matches an operation name when the name starts with
    it; specificity is the number of colons of the prefix. *)

Module Policy.

Definition matches (m : string) (e : string * value) : bool :=
  String.prefix (fst e) m.

(** The override that decides [m] among the declared ones, in declaration
    order: a matching override of strictly greater depth beats one declared
    later; among equal depths the later one stays. *)
Fixpoint most_specific (m : string) (l : list (string * value))
  : option (string * value) :=
  match l with
  | [] => None
  | e :: l' =>
      match most_specific m l' with
      | Some b =>
          if matches m e && (Catalog.colons b <? Catalog.colons e)%nat
          then Some e else Some b
      | None => if matches m e then Some e else None
      end
  end.

(** The effective permission of the role for [m]. *)
Definition effective (m : string) (root : value) (l : list (string * value)) : value :=
  match most_specific m l with
  | Some b => snd b
  | None => root
  end.

(** No two distinct matching overrides of the same depth. *)
Definition tie_free (m : string) (l : list (string * value)) : Prop :=
  forall e1 e2, In e1 l -> In e2 l ->
    matches m e1 = true -> matches m e2 = true ->
    Catalog.colons e1 = Catalog.colons e2 -> e1 = e2.

(** The override applied last among those that match [m], in application
    order. *)
Fixpoint last_match (m : string) (l : list (string * value)) : option (string * value) :=
  match l with
  | [] => None
  | e :: l' =>
      match last_match m l' with
      | Some b => Some b
      | None => if matches m e then Some e else None
      end
  end.

(** The order the sort establishes. *)
Definition by_colons (x y : string * value) : Prop :=
  (Catalog.colons x <= Catalog.colons y)%nat.

End Policy.

(** ** The matching rule in the words of the specification

    One resource-map entry at a time: the request segments are scanned by
    index; a literal template segment must equal the request segment at
    that index; a placeholder survives, except at the last request segment
    when the template has a different number of segments; the greedy
    placeholder always survives and ends the scan. *)

Module UrlSpec.

Fixpoint template_matches (n : nat) (template : list string) (idx : nat)
    (parts : list string) : bool :=
  match parts with
  | [] => true
  | path_part :: rest =>
      match nth_error template idx with
      | None => false
      | Some seg =>
          if Url.is_placeholder seg then
            if String.eqb seg Url.artifactPath then true
            else if (idx =? n - 1)%nat && negb (n =? length template)%nat then false
            else template_matches n template (S idx) rest
          else if String.eqb seg path_part then
            if (idx =? n - 1)%nat && negb (n =? length template)%nat then false
            else template_matches n template (S idx) rest
          else false
      end
  end.

Definition entry_matches (method url key : string) : bool :=
  match Py.words key with
  | m :: u :: _ =>
      let parts := Py.split "/" (Url.strip_query url) in
      Py.contains method m && template_matches (length parts) (Py.split "/" u) 0 parts
  | _ => false
  end.

(** The entries of the resource map that match the request. *)
Definition matching (mapping : dict string) (method url : string) : list string :=
  List.filter (entry_matches method url) (dict_keys mapping).

(** A key with a method and a template none of whose segments is greedy. *)
Definition plain_key (k : string) : Prop :=
  exists m u rest,
    Py.words k = m :: u :: rest /\
    ~ In Url.artifactPath (Py.split "/" u) /\
    last (Py.split "/" k) <> Some Url.artifactPath.

(** The method filter and the per-entry scan as boolean tests. *)
Definition method_ok (method k : string) : bool :=
  match Url.key_method k with Ok m => Py.contains method m | Err _ => false end.

Definition row (n idx : nat) (parts : list string) (k : string) : bool :=
  match Url.key_url k with
  | Ok u => template_matches n (Py.split "/" u) idx parts
  | Err _ => false
  end.

Definition alive (n idx : nat) (path_part k : string) : bool :=
  match Url.survives n idx path_part k with Ok b => b | Err _ => false end.

End UrlSpec.

(** ** Sessions, the persistent store and the identity backend *)

(** A token record as [new_token] builds it.  ["_id"] and ["id"] hold the
    same token id; ["remote_host"] is only set when the peer has a name or an
    address. *)
Record session := {
  s__id : string;
  s_id : string;
  issued_at : Z;
  expires : Z;
  project_id : string;
  username : option string;
  remote_port : Z;
  admin : bool;
  remote_host : option string
}.

#[global] Instance session_eq_dec : EqDecision session.
Proof. solve_decision. Defined.

(** What [authorize] hands back: a stored session, or the fixed session of
    the test bypass (which has no ["expires"]). *)
Inductive granted :=
| Stored (s : session)
| Fake (id project_id username : string) (admin : bool).

Record user := {
  u_username : string;
  u_password : string;
  u_salt : string;
  u_projects : list string
}.

Record project := {
  p__id : string;
  p_name : string;
  p_admin : option bool
}.

(** The persistent store is an external collaborator (a collection-oriented
    CRUD service).  It is modelled as in-memory collections: reads filter a
    list, [create] appends, deletions filter. *)
Record database := {
  users : list user;
  projects : list project;
  tokens : list session;
  roles_operations : list (dict value);
  created : nat
}.

Module Db.

(** [get_one] with its default cardinality assertions. *)
Definition get_one {A} (rows : list A) : result A :=
  match rows with
  | [] => Err (DbException "Not found entry" NOT_FOUND)
  | [row] => Ok row
  | _ => Err (DbException "Found more than one entry" CONFLICT)
  end.

Definition tokens_by_id (token_id : string) (d : database) : list session :=
  List.filter (fun s => String.eqb (s__id s) token_id) (tokens d).

Definition users_by_name (name : option string) (d : database) : list user :=
  List.filter (fun u => bool_decide (Some (u_username u) = name)) (users d).

(** the value of a field of a project record *)
Definition project_field (field : string) (p : project) : option string :=
  if String.eqb field "_id" then Some (p__id p)
  else if String.eqb field "name" then Some (p_name p)
  else None.

Definition projects_by (field value : string) (d : database) : list project :=
  List.filter (fun p => bool_decide (project_field field p = Some value)) (projects d).

Definition create_token (s : session) (d : database) : database :=
  {| users := users d; projects := projects d; tokens := (tokens d ++ [s])%list;
     roles_operations := roles_operations d; created := S (created d) |}.

(** [del_list("tokens", {"expires.lt": now})] *)
Definition del_expired (now : Z) (d : database) : database :=
  {| users := users d; projects := projects d;
     tokens := List.filter (fun s => negb (expires s <? now)) (tokens d);
     roles_operations := roles_operations d; created := created d |}.

(** [del_one("tokens", {"_id": token_id})]: the first match goes *)
Fixpoint remove_first (token_id : string) (l : list session) : option (list session) :=
  match l with
  | [] => None
  | s :: l' =>
      if String.eqb (s__id s) token_id then Some l'
      else match remove_first token_id l' with
           | Some r => Some (s :: r)
           | None => None
           end
  end.
Definition del_one_token (token_id : string) (d : database) : result database :=
  match remove_first token_id (tokens d) with
  | Some l =>
      Ok {| users := users d; projects := projects d; tokens := l;
            roles_operations := roles_operations d; created := created d |}
  | None => Err (DbException "Not found entry" NOT_FOUND)
  end.

(** [create("roles_operations", item)]: a record without ["_id"] gets one
    from the store. *)
Definition create_role_record (fresh_id : nat -> string) (item : dict value) (d : database)
  : database :=
  let item :=
    match dict_get "_id" item with
    | Some _ => item
    | None => dict_set "_id" (VStr (fresh_id (created d))) item
    end in
  {| users := users d; projects := projects d; tokens := tokens d;
     roles_operations := (roles_operations d ++ [item])%list; created := S (created d) |}.

End Db.

(** The answer of the backend to [authenticate]. *)
Record token_info := {
  ti__id : option string;
  ti_expires : option Z;
  ti_project_id : option string;
  ti_username : option string;
  ti_project_name : option string
}.

(** A role as the backend lists it. *)
Record backend_role := {
  r_name : string;
  r__id : string
}.

(** The identity backend is an external capability (class [Authconn] and
    its keystone plug-in).  Each method may raise and may change the state
    of the backend. *)
Class Authconn (B : Type) := {
  authenticate :
    B -> option string -> option string -> option string -> option string ->
    result token_info * B;
  validate_token : B -> string -> result (option token_info) * B;
  revoke_token : B -> string -> result unit * B;
  get_user_role_list : B -> string -> result (option (list string)) * B;
  get_role_list : B -> result (list backend_role) * B;
  create_role : B -> string -> result backend_role * B;
  assign_role_to_user : B -> string -> string -> string -> result unit * B
}.

(** The calls made to the backend, with their arguments. *)
Inductive call :=
| Authenticate (user password token project : option string)
| Validate_token (token : string)
| Revoke_token (token : string)
| Get_user_role_list (token : string)
| Get_role_list
| Create_role (role : string)
| Assign_role_to_user (user project role : string).

#[global] Instance call_eq_dec : EqDecision call.
Proof. solve_decision. Defined.

(** The configuration keys the Authenticator reads. *)
Record config := {
  authentication_backend : string;
  test_user_not_authorized : option string;
  test_project_not_authorized : option string
}.

(** The Authenticator object together with what it reaches: the store, the
    backend, the session cookie and the response header of the transport
    layer.  [calls] records the backend calls in the order they are made. *)
Record state (B : Type) := {
  backend : B;
  db : database;
  tokens_cache : gmap string session;
  next_db_prune_time : Z;
  resources_to_operations_mapping : dict string;
  operation_to_allowed_roles : dict (list value);
  session_authorization : option string;
  www_authenticate : option string;
  calls : list call
}.
Arguments backend {B} _.
Arguments db {B} _.
Arguments tokens_cache {B} _.
Arguments next_db_prune_time {B} _.
Arguments resources_to_operations_mapping {B} _.
Arguments operation_to_allowed_roles {B} _.
Arguments session_authorization {B} _.
Arguments www_authenticate {B} _.
Arguments calls {B} _.

Section Setters.
Context {B : Type}.
Implicit Type st : state B.

Definition set_backend (b : B) (c : call) st : state B :=
  {| backend := b; db := db st; tokens_cache := tokens_cache st;
     next_db_prune_time := next_db_prune_time st;
     resources_to_operations_mapping := resources_to_operations_mapping st;
     operation_to_allowed_roles := operation_to_allowed_roles st;
     session_authorization := session_authorization st;
     www_authenticate := www_authenticate st;
     calls := (calls st ++ [c])%list |}.

Definition set_db (d : database) st : state B :=
  {| backend := backend st; db := d; tokens_cache := tokens_cache st;
     next_db_prune_time := next_db_prune_time st;
     resources_to_operations_mapping := resources_to_operations_mapping st;
     operation_to_allowed_roles := operation_to_allowed_roles st;
     session_authorization := session_authorization st;
     www_authenticate := www_authenticate st;
     calls := calls st |}.

Definition set_tokens_cache (c : gmap string session) st : state B :=
  {| backend := backend st; db := db st; tokens_cache := c;
     next_db_prune_time := next_db_prune_time st;
     resources_to_operations_mapping := resources_to_operations_mapping st;
     operation_to_allowed_roles := operation_to_allowed_roles st;
     session_authorization := session_authorization st;
     www_authenticate := www_authenticate st;
     calls := calls st |}.

Definition set_next_db_prune_time (t : Z) st : state B :=
  {| backend := backend st; db := db st; tokens_cache := tokens_cache st;
     next_db_prune_time := t;
     resources_to_operations_mapping := resources_to_operations_mapping st;
     operation_to_allowed_roles := operation_to_allowed_roles st;
     session_authorization := session_authorization st;
     www_authenticate := www_authenticate st;
     calls := calls st |}.

Definition set_mapping (m : dict string) st : state B :=
  {| backend := backend st; db := db st; tokens_cache := tokens_cache st;
     next_db_prune_time := next_db_prune_time st;
     resources_to_operations_mapping := m;
     operation_to_allowed_roles := operation_to_allowed_roles st;
     session_authorization := session_authorization st;
     www_authenticate := www_authenticate st;
     calls := calls st |}.

Definition set_index (ix : dict (list value)) st : state B :=
  {| backend := backend st; db := db st; tokens_cache := tokens_cache st;
     next_db_prune_time := next_db_prune_time st;
     resources_to_operations_mapping := resources_to_operations_mapping st;
     operation_to_allowed_roles := ix;
     session_authorization := session_authorization st;
     www_authenticate := www_authenticate st;
     calls := calls st |}.

Definition set_http (cookie header : option string) st : state B :=
  {| backend := backend st; db := db st; tokens_cache := tokens_cache st;
     next_db_prune_time := next_db_prune_time st;
     resources_to_operations_mapping := resources_to_operations_mapping st;
     operation_to_allowed_roles := operation_to_allowed_roles st;
     session_authorization := cookie;
     www_authenticate := header;
     calls := calls st |}.
End Setters.

(** ** Computations that mutate the state and may raise *)

Definition M (B A : Type) : Type := state B -> result A * state B.

Section Monad.
Context {B : Type}.

Definition ret {A} (a : A) : M B A := fun st => (Ok a, st).
Definition raise {A} (e : exn) : M B A := fun st => (Err e, st).
Definition bind {A C} (m : M B A) (f : A -> M B C) : M B C :=
  fun st =>
    match m st with
    | (Ok a, st') => f a st'
    | (Err e, st') => (Err e, st')
    end.
(** [try: m except: handler] *)
Definition catch {A} (m : M B A) (handler : exn -> M B A) : M B A :=
  fun st =>
    match m st with
    | (Ok a, st') => (Ok a, st')
    | (Err e, st') => handler e st'
    end.
Definition gets {A} (f : state B -> A) : M B A := fun st => (Ok (f st), st).
Definition modify (f : state B -> state B) : M B unit := fun st => (Ok tt, f st).
Definition lift {A} (r : result A) : M B A := fun st => (r, st).

(** a call to the backend: the answer is returned, the new backend state
    and the call are recorded *)
Definition invoke {A} (c : call) (f : B -> result A * B) : M B A :=
  fun st =>
    let '(r, b) := f (backend st) in
    (r, set_backend b c st).
End Monad.

Declare Scope m_scope.
Delimit Scope m_scope with M.
Notation "x <- m ;; k" := (bind m (fun x => k))
(at level 100, m at next level, right associativity) : m_scope.
Notation "m ;;; k" := (bind m (fun _ => k))
(at level 100, right associativity) : m_scope.

(** ** The Authenticator *)

Record indata := {
  in_username : option string;
  in_password : option string;
  in_project_id : option string
}.

Record remote := {
  port : Z;
  name : option string;
  ip : option string
}.

(** The request as the transport layer presents it. *)
Record request := {
  authorization : option string;
  allow_basic_authentication : bool;
  path_info : string;
  method : string
}.

Module Authenticator.

(** every 30 minutes expired tokens will be pruned *)
Definition periodin_db_pruning : Z := 60 * 30.

(** [remote.name], else [remote.ip], else no ["remote_host"] key *)
Definition remote_host_of (r : remote) : option string :=
  if Py.truthy (name r) then name r
  else if Py.truthy (ip r) then ip r
  else None.

(** the double quote character *)
Definition dquote : string := String (ascii_of_nat 34) EmptyString.

(** [session.get("token")]: the records of [session] carry no such key *)
Definition session_get_token (s : session) : option string := None.

Section WithBackend.
Context {B : Type} `{Authconn B}.
Variable cfg : config.
(** [sha256(...).hexdigest()] *)
Variable sha256_hexdigest : string -> string.
(** [BaseTopic.id_field("projects", project_id)]: the name of the field a
    project reference is looked up by *)
Variable id_field : string -> string -> string.

Local Open Scope m_scope.

(** *** Internal mode *)

(** [_internal_tokens_prune(now=None)]; [time] is the reading of the clock
    used when [now] is missing or zero. *)
Definition _internal_tokens_prune (time : Z) (now : option Z) : M B unit :=
  let now := match now with
             | Some n => if n =? 0 then time else n
             | None => time
             end in
  next <- gets next_db_prune_time ;;
  if (next =? 0) || (now <=? next) then
    modify (fun st => set_db (Db.del_expired now (db st)) st) ;;;
    modify (set_next_db_prune_time (periodin_db_pruning + now)) ;;;
    modify (set_tokens_cache ∅)
  else ret tt.

Definition needed_token : exn :=
  AuthException "Needed a token or Authorization http header" UNAUTHORIZED.
Definition expired_token : exn :=
  AuthException "Expired Token or Authorization http header" UNAUTHORIZED.
Definition invalid_token : exn :=
  AuthException "Invalid Token or Authorization http header" UNAUTHORIZED.

(** the [try] block of [_internal_authorize]; [now] is the clock reading *)
Definition _internal_authorize_try (now : Z) (token_id : option string) : M B granted :=
  if negb (Py.truthy token_id) then raise needed_token
  else
    let token_id := default "" token_id in
    session <- gets (fun st => tokens_cache st !! token_id) ;;
    session <- match session with
               | Some s =>
                   if expires s <? now then
                     (* [pop(token_id, None)]: remove if present *)
                     modify (fun st => set_tokens_cache (delete token_id (tokens_cache st)) st) ;;;
                     ret None
                   else ret (Some s)
               | None => ret None
               end ;;
    match session with
    | Some s => ret (Stored s)
    | None =>
        s <- (fun st => (Db.get_one (Db.tokens_by_id token_id (db st)), st)) ;;
        if expires s <? now then raise expired_token
        else
          modify (fun st => set_tokens_cache (<[token_id := s]> (tokens_cache st)) st) ;;;
          ret (Stored s)
    end.

(** the two [except] clauses; an exception raised inside a handler is not
    seen by the other handler *)
Definition _internal_authorize (now : Z) (token_id : option string) : M B granted :=
  catch (_internal_authorize_try now token_id) (fun e =>
    match e with
    | DbException _ http_code =>
        if bool_decide (http_code = NOT_FOUND) then raise invalid_token else raise e
    | AuthException _ _ =>
        if Py.truthy (test_user_not_authorized cfg) then
          ret (Fake "fake-token-id-for-test"
                 (default "admin" (test_project_not_authorized cfg))
                 (default "" (test_user_not_authorized cfg)) true)
        else raise e
    | _ => raise e
    end).

(** the user the new token is issued to *)
Definition credentials_user (sess : option session) (i : indata) : M B user :=
  if Py.truthy (in_username i) then
    user_rows <- gets (fun st => Db.users_by_name (in_username i) (db st)) ;;
    let user_content :=
      match user_rows with
      | u :: _ =>
          let shadow_password :=
            sha256_hexdigest (default "" (in_password i) +:+ u_salt u) in
          if String.eqb shadow_password (u_password u) then Some u else None
      | [] => None
      end in
    match user_content with
    | Some u => ret u
    | None => raise (AuthException "Invalid username/password" UNAUTHORIZED)
    end
  else
    match sess with
    | Some s =>
        user_rows <- gets (fun st => Db.users_by_name (username s) (db st)) ;;
        match user_rows with
        | u :: _ => ret u
        | [] => raise (AuthException "Invalid token" UNAUTHORIZED)
        end
    | None =>
        raise (AuthException
                 "Provide credentials: username/password or Authorization Bearer token"
                 UNAUTHORIZED)
    end.

Definition get_project (project_id : string) : M B project :=
  fun st =>
    (Db.get_one (Db.projects_by (id_field "projects" project_id) project_id (db st)), st).

(** the project the token is scoped to *)
Definition scoped_project (user_content : user) (i : indata) : M B string :=
  if Py.truthy (in_project_id i) then
    let project_id := default "" (in_project_id i) in
    if negb (String.eqb project_id "admin") then
      proj <- get_project project_id ;;
      if negb (mem_string (p__id proj) (u_projects user_content))
         && negb (mem_string (p_name proj) (u_projects user_content))
      then raise (AuthException ("project " +:+ project_id +:+ " not allowed for this user")
                    UNAUTHORIZED)
      else ret project_id
    else ret project_id
  else lift (Py.nth_item (u_projects user_content) 0).

(** [_internal_new_token(session, indata, remote)]; [now] is the clock
    reading and [token_id] the 32 random characters drawn. *)
Definition _internal_new_token (now : Z) (token_id : string)
    (sess : option session) (i : indata) (r : remote) : M B session :=
  user_content <- credentials_user sess i ;;
  project_id <- scoped_project user_content i ;;
  session_admin <-
    (if String.eqb project_id "admin" then ret true
     else
       project <- get_project project_id ;;
       ret (default false (p_admin project))) ;;
  let new_session :=
    {| s__id := token_id; s_id := token_id;
       issued_at := now; expires := now + 3600;
       project_id := project_id; username := Some (u_username user_content);
       remote_port := port r; admin := session_admin;
       remote_host := remote_host_of r |} in
  modify (fun st => set_tokens_cache (<[token_id := new_session]> (tokens_cache st)) st) ;;;
  modify (fun st => set_db (Db.create_token new_session (db st)) st) ;;;
  _internal_tokens_prune now (Some now) ;;;
  ret new_session.

(** [_internal_del_token(token_id)] *)
Definition _internal_del_token (token_id : string) : M B string :=
  modify (fun st => set_tokens_cache (delete token_id (tokens_cache st)) st) ;;;
  catch
    (d <- (fun st => (Db.del_one_token token_id (db st), st)) ;;
     modify (set_db d) ;;;
     ret ("token '" +:+ token_id +:+ "' deleted"))
    (fun e =>
       match e with
       | DbException _ http_code =>
           if bool_decide (http_code = NOT_FOUND)
           then raise (AuthException ("Token '" +:+ token_id +:+ "' not found") NOT_FOUND)
           else raise e
       | _ => raise e
       end).

(** *** Delegated mode and the facade *)

Definition is_internal : bool := String.eqb (authentication_backend cfg) "internal".

(** [new_token(session, indata, remote)] *)
Definition new_token (now : Z) (token_id : string)
    (sess : option session) (i : indata) (r : remote) : M B session :=
  if is_internal then _internal_new_token now token_id sess i r
  else
    let current_token :=
      match sess with
      | Some s => session_get_token s
      | None => None
      end in
    token_info <-
      invoke
        (Authenticate (in_username i) (in_username i) current_token (in_project_id i))
        (fun b => authenticate b (in_username i) (in_username i) current_token
                    (in_project_id i)) ;;
    tid <- lift (match ti__id token_info with Some x => Ok x | None => Err KeyError end) ;;
    pid <- lift (match ti_project_id token_info with Some x => Ok x | None => Err KeyError end) ;;
    uname <-
      (if Py.truthy (ti_username token_info) then ret (ti_username token_info)
       else match sess with
            | Some s => ret (username s)
            | None => raise AttributeError
            end) ;;
    let new_session :=
      {| s__id := tid; s_id := tid;
         issued_at := now; expires := default (now + 3600) (ti_expires token_info);
         project_id := pid; username := uname;
         remote_port := port r;
         admin := bool_decide (ti_project_name token_info = Some "admin");
         remote_host := remote_host_of r |} in
    modify (fun st => set_tokens_cache (<[tid := new_session]> (tokens_cache st)) st) ;;;
    ret new_session.

(** [del self.tokens_cache[token]] *)
Definition del_cached (token : string) : M B unit :=
  cached <- gets (fun st => tokens_cache st !! token) ;;
  match cached with
  | Some _ => modify (fun st => set_tokens_cache (delete token (tokens_cache st)) st)
  | None => raise KeyError
  end.

(** [del_token(token)] *)
Definition del_token (token : string) : M B string :=
  if is_internal then _internal_del_token token
  else
    catch
      (invoke (Revoke_token token) (fun b => revoke_token b token) ;;;
       del_cached token ;;;
       ret ("token '" +:+ token +:+ "' deleted"))
      (fun e =>
         match e with
         | KeyError =>
             raise (AuthException ("Token '" +:+ token +:+ "' not found") NOT_FOUND)
         | _ => raise e
         end).

Definition lack_of_permissions : exn :=
  AuthException "Access denied: lack of permissions." UNAUTHORIZED.

(** [value in roles_required] *)
Definition role_in (role : string) (roles_required : list value) : bool :=
  existsb (fun v => bool_decide (v = VStr role)) roles_required.

(** [check_permissions(session, url, method)] *)
Definition check_permissions (session : session) (url method : string) : M B unit :=
  mapping <- gets resources_to_operations_mapping ;;
  kp <- lift (Url._normalize_url mapping url method) ;;
  operation <- lift (dict_item (fst kp) mapping) ;;
  index <- gets operation_to_allowed_roles ;;
  roles_required <- lift (dict_item operation index) ;;
  roles_allowed <-
    invoke (Get_user_role_list (s_id session))
      (fun b => get_user_role_list b (s_id session)) ;;
  if role_in "anonymous" roles_required then ret tt
  else
    match roles_allowed with
    | None => raise TypeError
    | Some roles =>
        if existsb (fun role => role_in role roles_required) roles then ret tt
        else raise lack_of_permissions
    end.

(** [self.tokens_cache[token]] *)
Definition cached (token : string) : M B session :=
  c <- gets (fun st => tokens_cache st !! token) ;;
  match c with
  | Some s => ret s
  | None => raise KeyError
  end.

(** steps 1 to 3 of [authorize]: the token presented by the request *)
Definition presented_token (req : request) : M B (option string) :=
  let '(token, user_passwd64) :=
    if Py.truthy (authorization req) then
      let auth_list := Py.split " " (default "" (authorization req)) in
      let scheme := Py.lower (hd "" auth_list) in
      if String.eqb scheme "bearer" then (last auth_list, None)
      else if String.eqb scheme "basic" then (None, last auth_list)
      else (None, None)
    else (None, None) in
  if Py.truthy token then ret token
  else
    cookie <- gets session_authorization ;;
    if Py.truthy cookie then
      ret (if bool_decide (cookie = Some "logout") then None else cookie)
    else if Py.truthy user_passwd64 && allow_basic_authentication req then
      (* [self.new_token(None, {...})] lacks the [remote] argument *)
      raise TypeError
    else ret token.

(** the body of the outer [try] of [authorize] *)
Definition authorize_try (now : Z) (req : request) : M B granted :=
  token <- presented_token req ;;
  if is_internal then _internal_authorize now token
  else if negb (Py.truthy token) then raise needed_token
  else
    let token := default "" token in
    catch
      (invoke (Validate_token token) (fun b => validate_token b token) ;;;
       session <- cached token ;;
       check_permissions session (path_info req) (method req) ;;;
       session <- cached token ;;
       ret (Stored session))
      (fun e =>
         match e with
         | AuthException _ _ => del_token token ;;; raise e
         | _ => raise e
         end).

(** [authorize()]; [now] is the clock reading of the internal path *)
Definition authorize (now : Z) (req : request) : M B granted :=
  catch (authorize_try now req) (fun e =>
    match e with
    | AuthException message _ =>
        modify (fun st =>
          set_http
            (if Py.truthy (session_authorization st) then None
             else session_authorization st)
            (Some ("Bearer realm=" +:+ dquote +:+ message +:+ dquote)) st) ;;;
        raise (AuthException message UNAUTHORIZED)
    | _ => raise e
    end).

End WithBackend.
End Authenticator.

(** ** [Authenticator.init_db] *)

(** A value of the role-map document. *)
Inductive yaml :=
| YBool (b : bool)
| YStr (s : string)
| YInt (z : Z)
| YNull.

(** One entry of ["roles_to_operations"]. *)
Record role_with_operations := {
  role : string;
  operations : dict yaml
}.

Module InitDb.

(** the first loop: the distinct operation names in order of first
    appearance, and the resource map *)
Fixpoint load_resources (doc : dict string) (operations : list string)
    (mapping : dict string) : list string * dict string :=
  match doc with
  | [] => (operations, mapping)
  | (resource, operation) :: rest =>
      load_resources rest
        (if mem_string operation operations then operations
         else (operations ++ [operation])%list)
        (dict_set resource operation mapping)
  end.

(** the loop over the declared operations of one role: [(role_ops, root)] *)
Fixpoint role_operations (ops : dict yaml) (role_ops : dict value) (root : option bool)
  : result (dict value * option bool) :=
  match ops with
  | [] => Ok (role_ops, root)
  | (operation, is_allowed) :: rest =>
      match is_allowed with
      | YBool b =>
          if String.eqb operation ":" then role_operations rest role_ops (Some b)
          else
            (* [operation[-1]] of an empty string *)
            last_char ← Py.last_item (list_ascii_of_string operation);
            if negb (String.length operation =? 1)%nat && Ascii.eqb last_char ":"
            then role_operations rest role_ops root
            else
              role_operations rest
                (match dict_get operation role_ops with
                 | Some _ => role_ops
                 | None => dict_set operation (VBool b) role_ops
                 end)
                root
      | _ => role_operations rest role_ops root
      end
  end.

(** [operation_to_roles_item] before the backend id is added *)
Definition role_item (now : Z) (name : string) (root : bool) (role_ops : dict value)
  : dict value :=
  fold_left (fun item kv => dict_set (fst kv) (snd kv) item) role_ops
    [("_admin", VAdmin now now); ("name", VStr name); ("root", VBool root)].

Section WithBackend.
Context {B : Type} `{Authconn B}.
Variable cfg : config.
(** the readings of the clock, one per role of the document *)
Variable time : nat -> Z.
(** the identifiers the store hands out *)
Variable fresh_id : nat -> string.

Local Open Scope m_scope.

(** the id of the role at the backend, creating the role when missing *)
Definition keystone_id (name : string) : M B backend_role :=
  listed <- invoke Get_role_list get_role_list ;;
  match List.filter (fun r => String.eqb (r_name r) name) listed with
  | r :: _ => ret r
  | [] => invoke (Create_role name) (fun b => create_role b name)
  end.

(** the loop over the role-map document; [n] counts the entries seen and
    [roles] the names already met *)
Fixpoint create_roles (n : nat) (doc : list role_with_operations) (roles : list string)
  : M B unit :=
  match doc with
  | [] => ret tt
  | rwo :: rest =>
      if mem_string (role rwo) roles then create_roles (S n) rest roles
      else
        let roles := (roles ++ [role rwo])%list in
        match operations rwo with
        | [] => create_roles (S n) rest roles
        | _ =>
            ro <- lift (role_operations (operations rwo) [] None) ;;
            let root := default false (snd ro) in
            let item := role_item (time n) (role rwo) root (fst ro) in
            item <-
              (if negb (String.eqb (authentication_backend cfg) "internal")
                  && negb (String.eqb (role rwo) "anonymous")
               then
                 kid <- keystone_id (role rwo) ;;
                 ret (dict_set "_id" (VStr (r__id kid)) item)
               else ret item) ;;
            modify (fun st => set_db (Db.create_role_record fresh_id item (db st)) st) ;;;
            create_roles (S n) rest roles
        end
  end.

(** [init_db()] on the parsed resource map and role map *)
Definition init_db (resources_to_operations : dict string)
    (roles_to_operations : list role_with_operations) : M B unit :=
  if String.eqb (authentication_backend cfg) "internal" then ret tt
  else
    mapping <- gets resources_to_operations_mapping ;;
    let '(operations, mapping) := load_resources resources_to_operations [] mapping in
    modify (set_mapping mapping) ;;;
    records <- gets (fun st => roles_operations (db st)) ;;
    (if (length records =? 0)%nat then create_roles 0 roles_to_operations []
     else ret tt) ;;;
    records <- gets (fun st => roles_operations (db st)) ;;
    permissions <- lift (Catalog.build_permissions operations records) ;;
    modify (fun st =>
      set_index (Catalog.store_permissions permissions (operation_to_allowed_roles st)) st) ;;;
    if negb (String.eqb (authentication_backend cfg) "internal") then
      invoke (Assign_role_to_user "admin" "admin" "system_admin")
        (fun b => assign_role_to_user b "admin" "admin" "system_admin")
    else ret tt.

End WithBackend.
End InitDb.

(** ** Intermediate states of the internal token path *)

Module TokenSteps.
Import Authenticator.

Section WithBackend.
Context {B : Type} `{Authconn B}.
Implicit Types (st : state B) (cfg : config).

(** The state a prune pass leaves. *)
Definition pruned (now : Z) st : state B :=
  set_tokens_cache ∅
    (set_next_db_prune_time (periodin_db_pruning + now)
       (set_db (Db.del_expired now (db st)) st)).

(** The state after the cache has been consulted and no usable session was
    found there. *)
Definition evicted (token_id : string) st : state B :=
  match tokens_cache st !! token_id with
  | Some _ => set_tokens_cache (delete token_id (tokens_cache st)) st
  | None => st
  end.

(** What the [except AuthException] clause turns a failure into. *)
Definition bypass cfg (e : exn) : result granted :=
  if Py.truthy (test_user_not_authorized cfg) then
    Ok (Fake "fake-token-id-for-test"
          (default "admin" (test_project_not_authorized cfg))
          (default "" (test_user_not_authorized cfg)) true)
  else Err e.

(** The outcome of a lookup in the store. *)
Definition from_store cfg (now : Z) (token_id : string) st : result granted * state B :=
  match Db.get_one (Db.tokens_by_id token_id (db st)) with
  | Ok s =>
      if expires s <? now then (bypass cfg expired_token, st)
      else (Ok (Stored s), set_tokens_cache (<[token_id := s]> (tokens_cache st)) st)
  | Err (DbException m code) =>
      (if bool_decide (code = NOT_FOUND) then Err invalid_token
       else Err (DbException m code), st)
  | Err e => (Err e, st)
  end.

End WithBackend.
End TokenSteps.

(** ** Records that differ only in bookkeeping fields *)

Module Similar.

(** Same keys in the same order, same values except under ["_admin"] (the
    creation stamps) and ["_id"] (the identifier given by the backend or by
    the store). *)
Definition field_sim (a b : string * value) : Prop :=
  fst a = fst b /\ (snd a = snd b \/ fst a = "_admin" \/ fst a = "_id").

Definition record_sim (r1 r2 : dict value) : Prop := Forall2 field_sim r1 r2.

(** What the index build reads of a record. *)
Definition view (r : dict value) : option value * option value * list (string * value) :=
  (dict_get "root" r, dict_get "name" r, Catalog.operations_joined r).

End Similar.

(** ** The token management API: [get_token], [get_token_list] *)

Module TokenApi.
Import Authenticator.

(** [session["username"]] and [session["admin"]] of what [authorize]
    returned *)
Definition granted_username (g : granted) : option string :=
  match g with
  | Stored s => username s
  | Fake _ _ u _ => Some u
  end.
Definition granted_admin (g : granted) : bool :=
  match g with
  | Stored s => admin s
  | Fake _ _ _ a => a
  end.

(** [get_one(..., fail_on_empty=False)]: no row is [None], several rows
    still raise *)
Definition get_one_or_none {A} (rows : list A) : result (option A) :=
  match rows with
  | [] => Ok None
  | [row] => Ok (Some row)
  | _ => Err (DbException "Found more than one entry" CONFLICT)
  end.

Definition token_not_found : exn := AuthException "token not found" NOT_FOUND.
Definition needed_admin : exn := AuthException "needed admin privileges" UNAUTHORIZED.

Section WithBackend.
Context {B : Type} `{Authconn B}.
Variable cfg : config.

Local Open Scope m_scope.

(** the owner-or-admin test shared by both modes *)
Definition owned (g : granted) (token_value : option session) : M B session :=
  match token_value with
  | None => raise token_not_found
  | Some v =>
      if negb (bool_decide (username v = granted_username g)) && negb (granted_admin g)
      then raise needed_admin
      else ret v
  end.

(** [_internal_get_token(session, token_id)] *)
Definition _internal_get_token (g : granted) (token_id : string) : M B session :=
  token_value <- (fun st => (get_one_or_none (Db.tokens_by_id token_id (db st)), st)) ;;
  owned g token_value.

(** [get_token(session, token)] *)
Definition get_token (g : granted) (token : string) : M B session :=
  if is_internal cfg then _internal_get_token g token
  else
    token_value <- gets (fun st => tokens_cache st !! token) ;;
    owned g token_value.

(** [_internal_get_token_list(session)]: the stored tokens of the user with
    ["expires.gt": now]; [now] is the clock reading *)
Definition _internal_get_token_list (now : Z) (g : granted) : M B (list session) :=
  gets (fun st =>
    List.filter
      (fun t => bool_decide (username t = granted_username g) && (now <? expires t))
      (tokens (db st))).

End WithBackend.
End TokenApi.

(** ** Auxiliary notions for the properties of the remaining code *)

Module Issue.
Import Authenticator.

Section WithBackend.
Context {B : Type} `{Authconn B}.
Implicit Types (st : state B).

(** The state right after the new session is cached and stored. *)
Definition issued (s : session) st : state B :=
  set_db (Db.create_token s (db st))
    (set_tokens_cache (<[s__id s := s]> (tokens_cache st)) st).

End WithBackend.
End Issue.

Module CatalogSpec.
Import Catalog Policy.

(** [s[-1] == ":"] for a non-empty [s] *)
Definition ends_with_colon (s : string) : bool :=
  match last (list_ascii_of_string s) with
  | Some c => Ascii.eqb c ":"
  | None => false
  end.

(** The role names a stored record contributes to the entry of [op]. *)
Definition contribution (op : string) (r : dict value) : list value :=
  match dict_get "root" r, dict_get "name" r with
  | Some root, Some name =>
      if is_True (effective op root (operations_joined r)) then [name] else []
  | _, _ => []
  end.

(** The roles allowed to perform [op], in the order of the stored records. *)
Definition allowed_roles (op : string) (records : list (dict value)) : list value :=
  flat_map (contribution op) records.

(** An override kept for a role: a well-formed key with the boolean the
    document gives it. *)
Definition kept (ops : dict yaml) (kv : string * value) : Prop :=
  fst kv <> "" /\ fst kv <> ":" /\ ends_with_colon (fst kv) = false /\
  exists b, snd kv = VBool b /\ In (fst kv, YBool b) ops.

End CatalogSpec.

Module UrlOutcome.

(** the outcome with the text of the message set aside *)
Definition outcome {A} (r : result A) : result A :=
  match r with
  | Err (AuthException _ http_code) => Err (AuthException "" http_code)
  | _ => r
  end.

End UrlOutcome.

(** * The Engine (osm_nbi/engine.py) *)

(** ** Documents and [_deep_update] *)

Module Merge.

(** A document as [_deep_update] sees it: [None], a dictionary, or any
    other value (a string, a number, a list, ...), of which only the
    identity matters. *)
#[warnings="-register-all"] Inductive json (A : Type) :=
| JNone
| JOther (a : A)
| JDict (d : list (string * json A)).
Arguments JNone {A}.
Arguments JOther {A} a.
Arguments JDict {A} d.

Section WithValues.
Context {A : Type}.

(** [del d[k]] for a key that is present, nothing otherwise *)
Fixpoint dict_del {V} (k : string) (d : dict V) : dict V :=
  match d with
  | [] => []
  | (k', v) :: d' => if String.eqb k' k then d' else (k', v) :: dict_del k d'
  end.

(** one turn of the loop of [_deep_update], for the key [k] of the
    reference and its value [v]; [recurse] is the recursive call *)
Definition update_key (recurse : json A -> dict (json A) -> dict (json A))
    (k : string) (v : json A) (dict_to_change : dict (json A)) : dict (json A) :=
  match v with
  | JNone => dict_del k dict_to_change
  | JOther _ => dict_set k v dict_to_change
  | JDict copy =>
      match dict_get k dict_to_change with
      | None => dict_set k (JDict (recurse v copy)) dict_to_change
      | Some (JDict current) => dict_set k (JDict (recurse v current)) dict_to_change
      | Some _ => dict_set k (JDict (recurse v copy)) dict_to_change
      end
  end.

(** [_deep_update(dict_to_change, dict_reference)] for a reference that is
    a dictionary; the result is [dict_to_change] as the call leaves it. *)
Fixpoint deep_update (reference : json A) (dict_to_change : dict (json A)) {struct reference}
  : dict (json A) :=
  match reference with
  | JDict dict_reference =>
      (fix loop (entries : list (string * json A)) (changed : dict (json A)) : dict (json A) :=
         match entries with
         | [] => changed
         | (k, v) :: rest => loop rest (update_key deep_update k v changed)
         end) dict_reference dict_to_change
  | _ => dict_to_change
  end.

Definition _deep_update (dict_to_change dict_reference : dict (json A)) : dict (json A) :=
  deep_update (JDict dict_reference) dict_to_change.

End WithValues.
End Merge.
Module MergeSpec.
Import Merge.

Section WithValues.
Context {A : Type}.

(** the loop of [_deep_update] over the entries of the reference *)
Definition update_all (entries : dict (json A)) (changed : dict (json A)) : dict (json A) :=
  fold_left (fun c kv => update_key deep_update (fst kv) (snd kv) c) entries changed.

(** A document whose dictionaries have pairwise distinct keys, at every
    depth: what a Python [dict] is. *)
#[warnings="-register-all"] Inductive well_formed : json A -> Prop :=
| wf_none : well_formed JNone
| wf_other a : well_formed (JOther a)
| wf_dict d :
    List.NoDup (dict_keys d) ->
    Forall (fun kv => well_formed (snd kv)) d ->
    well_formed (JDict d).


(** induction on documents, with the hypothesis for every value of a
    dictionary *)
Fixpoint json_induction (P : json A -> Prop)
    (HNone : P JNone) (HOther : forall a, P (JOther a))
    (HDict : forall d, Forall (fun kv => P (snd kv)) d -> P (JDict d))
    (j : json A) : P j :=
  match j with
  | JNone => HNone
  | JOther a => HOther a
  | JDict d =>
      HDict d
        ((fix go (l : list (string * json A)) : Forall (fun kv => P (snd kv)) l :=
            match l with
            | [] => List.Forall_nil _
            | kv :: l' =>
                @List.Forall_cons _ _ kv l' (json_induction P HNone HOther HDict (snd kv)) (go l')
            end) d)
  end.

(** the key [k] holds what the reference asks for *)
Definition settled (k : string) (v : json A) (changed : dict (json A)) : Prop :=
  match v with
  | JNone => dict_get k changed = None
  | JOther _ => dict_get k changed = Some v
  | JDict _ => exists current,
      dict_get k changed = Some (JDict current) /\ deep_update v current = current
  end.


End WithValues.
End MergeSpec.
(** ** The token table of the Engine *)

Module Engine.
Import Merge.

(** What a method of the Engine raises: its own [EngineException], or an
    exception of the store or of Python that it lets through. *)
Inductive raised :=
| EngineException (message : string) (http_code : http_status)
| Uncaught (e : exn).

Inductive outcome (A : Type) :=
| Return (a : A)
| Raise (e : raised).
Arguments Return {A} a.
Arguments Raise {A} e.

(** What [authorize] hands back: a session of the table, or the fixed
    session of the test bypass, which has no ["expires"] and no ["admin"]. *)
Inductive engine_session :=
| Session (s : session)
| Fake_session (id project_id username : string).

(** [session["username"]] *)
Definition session_username (g : engine_session) : option string :=
  match g with
  | Session s => username s
  | Fake_session _ _ u => Some u
  end.

(** [session["admin"]], when the key is there *)
Definition session_admin (g : engine_session) : option bool :=
  match g with
  | Session s => Some (admin s)
  | Fake_session _ _ _ => None
  end.

(** The Engine object: the token table, in insertion order, and the store. *)
Record engine := {
  e_tokens : dict session;
  e_db : database
}.

Definition set_tokens (t : dict session) (e : engine) : engine :=
  {| e_tokens := t; e_db := e_db e |}.

Definition needed_token : raised :=
  EngineException "Needed a token or Authorization http header" UNAUTHORIZED.
Definition invalid_token : raised :=
  EngineException "Invalid token or Authorization http header" UNAUTHORIZED.
Definition expired_token : raised :=
  EngineException "Expired Token or Authorization http header" UNAUTHORIZED.

Section WithConfig.
Variable cfg : config.
(** [sha256(...).hexdigest()] *)
Variable sha256_hexdigest : string -> string.

(** the [try] block of [authorize]; [now] is the clock reading *)
Definition authorize_try (now : Z) (token : option string) (e : engine)
  : outcome session * engine :=
  if negb (Py.truthy token) then (Raise needed_token, e)
  else
    let token := default "" token in
    match dict_get token (e_tokens e) with
    | None => (Raise invalid_token, e)
    | Some session =>
        if (expires session <? now)%Z then
          (Raise expired_token, set_tokens (dict_del token (e_tokens e)) e)
        else (Return session, e)
    end.

(** [authorize(token)] *)
Definition authorize (now : Z) (token : option string) (e : engine)
  : outcome engine_session * engine :=
  match authorize_try now token e with
  | (Return session, e') => (Return (Session session), e')
  | (Raise (EngineException message http_code), e') =>
      if Py.truthy (test_user_not_authorized cfg) then
        (Return (Fake_session "fake-token-id-for-test"
                   (default "admin" (test_project_not_authorized cfg))
                   (default "" (test_user_not_authorized cfg))), e')
      else (Raise (EngineException message http_code), e')
  | (Raise other, e') => (Raise other, e')
  end.

(** the user the new token is issued to *)
Definition credentials_user (sess : option engine_session) (i : indata) (d : database)
  : outcome user :=
  if Py.truthy (in_username i) then
    let user_rows := Db.users_by_name (in_username i) d in
    let user_content :=
      match user_rows with
      | u :: _ =>
          let shadow_password :=
            sha256_hexdigest (default "" (in_password i) +:+ u_salt u) in
          if String.eqb shadow_password (u_password u) then Some u else None
      | [] => None
      end in
    match user_content with
    | Some u => Return u
    | None => Raise (EngineException "Invalid username/password" UNAUTHORIZED)
    end
  else
    match sess with
    | Some s =>
        match Db.users_by_name (session_username s) d with
        | u :: _ => Return u
        | [] => Raise (EngineException "Invalid token" UNAUTHORIZED)
        end
    | None =>
        Raise (EngineException
                 "Provide credentials: username/password or Authorization Bearer token"
                 UNAUTHORIZED)
    end.

(** the project the token is scoped to *)
Definition scoped_project (user_content : user) (i : indata) : outcome string :=
  if Py.truthy (in_project_id i) then
    let project_id := default "" (in_project_id i) in
    if negb (mem_string project_id (u_projects user_content)) then
      Raise (EngineException ("project " +:+ project_id +:+ " not allowed for this user")
               UNAUTHORIZED)
    else Return project_id
  else
    match u_projects user_content with
    | project_id :: _ => Return project_id
    | [] => Raise (Uncaught IndexError)
    end.

(** whether the session is an admin one *)
Definition project_admin (project_id : string) (d : database) : outcome bool :=
  if String.eqb project_id "admin" then Return true
  else
    match Db.get_one (Db.projects_by "_id" project_id d) with
    | Ok project => Return (default false (p_admin project))
    | Err x => Raise (Uncaught x)
    end.

(** [new_token(session, indata, remote)]; [now] is the clock reading and
    [token_id] the 32 random characters drawn. *)
Definition new_token (now : Z) (token_id : string)
    (sess : option engine_session) (i : indata) (r : remote) (e : engine)
  : outcome session * engine :=
  match credentials_user sess i (e_db e) with
  | Raise x => (Raise x, e)
  | Return user_content =>
      match scoped_project user_content i with
      | Raise x => (Raise x, e)
      | Return project_id =>
          match project_admin project_id (e_db e) with
          | Raise x => (Raise x, e)
          | Return session_admin =>
              let new_session :=
                {| s__id := token_id; s_id := token_id;
                   issued_at := now; expires := now + 3600;
                   project_id := project_id;
                   username := Some (u_username user_content);
                   remote_port := port r; admin := session_admin;
                   remote_host := Authenticator.remote_host_of r |} in
              (Return new_session, set_tokens (dict_set token_id new_session (e_tokens e)) e)
          end
      end
  end.

(** [get_token_list(session)] *)
Definition get_token_list (sess : engine_session) (e : engine) : list session :=
  List.filter (fun token_value => bool_decide (username token_value = session_username sess))
    (map snd (e_tokens e)).

(** [get_token(session, token_id)] *)
Definition get_token (sess : engine_session) (token_id : string) (e : engine)
  : outcome session :=
  match dict_get token_id (e_tokens e) with
  | None => Raise (EngineException "token not found" NOT_FOUND)
  | Some token_value =>
      if bool_decide (username token_value = session_username sess) then Return token_value
      else
        match session_admin sess with
        | None => Raise (Uncaught KeyError)
        | Some true => Return token_value
        | Some false => Raise (EngineException "needed admin privileges" UNAUTHORIZED)
        end
  end.

(** [del_token(token_id)] *)
Definition del_token (token_id : string) (e : engine) : outcome string * engine :=
  match dict_get token_id (e_tokens e) with
  | Some _ => (Return ("token '" +:+ token_id +:+ "' deleted"),
               set_tokens (dict_del token_id (e_tokens e)) e)
  | None => (Raise (EngineException ("Token '" +:+ token_id +:+ "' not found") NOT_FOUND), e)
  end.

End WithConfig.
End Engine.

(** ** Sample configurations *)

Module Sample.

(** The operations of a small resource map. *)
Definition operation_names : list string := ["vnfds"; "vnfds:id"; "vnfds:id:delete"].

(** A stored role: everything below [vnfds] is allowed, deletion is not. *)
Definition project_viewer : dict value :=
  [("_admin", VAdmin 1000 1000); ("name", VStr "project_viewer"); ("root", VBool false);
   ("vnfds:id:delete", VBool false); ("vnfds", VBool true); ("_id", VStr "r-1")].

(** Two stored roles with the same overrides, declared in opposite orders;
    both prefixes are textual prefixes of [vnfds:id] and have no colon. *)
Definition role_vnf_first : dict value :=
  [("name", VStr "operator"); ("root", VBool false);
   ("vnf", VBool true); ("vnfds", VBool false)].
Definition role_vnfds_first : dict value :=
  [("name", VStr "operator"); ("root", VBool false);
   ("vnfds", VBool false); ("vnf", VBool true)].

(** A small identity backend: the passwords of its users, the tokens it
    knows with the roles they carry, the roles it lists, and the expiry it
    stamps on the tokens it issues. *)
Record keystone := {
  ks_passwords : dict string;
  ks_tokens : dict (list string);
  ks_roles : list backend_role;
  ks_expires : option Z
}.

Definition ks_denied : exn := AuthException "Keystone: token unknown" UNAUTHORIZED.

#[global] Instance keystone_authconn : Authconn keystone := {
  authenticate b user password token project :=
    (if bool_decide (is_Some password /\ password = dict_get (default "" user) (ks_passwords b)) then
       Ok {| ti__id := Some ("tok-" +:+ default "" user);
             ti_expires := ks_expires b;
             ti_project_id := Some (default "admin" project);
             ti_username := user;
             ti_project_name := Some (default "admin" project) |}
     else Err (AuthException "Keystone: wrong credentials" UNAUTHORIZED), b);
  validate_token b token :=
    (match dict_get token (ks_tokens b) with
     | Some _ => Ok None
     | None => Err ks_denied
     end, b);
  revoke_token b token :=
    (Ok tt, {| ks_passwords := ks_passwords b;
               ks_tokens := List.filter (fun kv => negb (String.eqb (fst kv) token)) (ks_tokens b);
               ks_roles := ks_roles b; ks_expires := ks_expires b |});
  get_user_role_list b token :=
    (match dict_get token (ks_tokens b) with
     | Some roles => Ok (Some roles)
     | None => Err ks_denied
     end, b);
  get_role_list b := (Ok (ks_roles b), b);
  create_role b name :=
    (Ok {| r_name := name; r__id := "ks-" +:+ name |},
     {| ks_passwords := ks_passwords b; ks_tokens := ks_tokens b;
        ks_roles := (ks_roles b ++ [{| r_name := name; r__id := "ks-" +:+ name |}])%list;
        ks_expires := ks_expires b |});
  assign_role_to_user b user project role := (Ok tt, b)
}.

Definition internal_cfg : config :=
  {| authentication_backend := "internal";
     test_user_not_authorized := None; test_project_not_authorized := None |}.
Definition bypass_cfg : config :=
  {| authentication_backend := "internal";
     test_user_not_authorized := Some "tester"; test_project_not_authorized := None |}.
Definition keystone_cfg : config :=
  {| authentication_backend := "keystone";
     test_user_not_authorized := None; test_project_not_authorized := None |}.

Definition no_backend : keystone :=
  {| ks_passwords := []; ks_tokens := []; ks_roles := []; ks_expires := None |}.

(** A session issued at 1000 that expires at 4600. *)
Definition alice_session : session :=
  {| s__id := "tok-alice"; s_id := "tok-alice"; issued_at := 1000; expires := 4600;
     project_id := "admin"; username := Some "alice"; remote_port := 4321;
     admin := true; remote_host := Some "10.0.0.7" |}.

Definition alice : user :=
  {| u_username := "alice"; u_password := "h(secretsalt)"; u_salt := "salt";
     u_projects := ["admin"] |}.

Definition store : database :=
  {| users := [alice]; projects := []; tokens := [alice_session];
     roles_operations := []; created := 1 |}.

(** The Authenticator as [__init__] leaves it, over a given backend and
    store. *)
Definition fresh (b : keystone) (d : database) : state keystone :=
  {| backend := b; db := d; tokens_cache := ∅; next_db_prune_time := 0;
     resources_to_operations_mapping := []; operation_to_allowed_roles := [];
     session_authorization := None; www_authenticate := None; calls := [] |}.

(** The internal Authenticator right after a prune at time 1000, with
    alice's token cached. *)
Definition after_prune : state keystone :=
  {| backend := no_backend; db := store;
     tokens_cache := {[ "tok-alice" := alice_session ]};
     next_db_prune_time := 2800;
     resources_to_operations_mapping := []; operation_to_allowed_roles := [];
     session_authorization := None; www_authenticate := None; calls := [] |}.

Definition a_remote : remote := {| port := 4321; name := None; ip := Some "10.0.0.7" |}.

(** a stand-in for the hash and for the project lookup field *)
Definition a_hash (s : string) : string := "h(" +:+ s +:+ ")".
Definition by_id (topic ref : string) : string := "_id".

(** The resource map of the artifact scenario. *)
Definition artifact_map : dict string :=
  [("GET /vnfds/<id>/artifacts/<artifactPath>", "vnfds:id:artifacts")].

(** A greedy template next to a plain one of the same depth. *)
Definition greedy_and_plain : dict string :=
  [("GET /a/<artifactPath>", "a:artifacts"); ("GET /a/<id>/c", "a:id:c")].

(** A delegated Authenticator with a public and a protected operation. *)
Definition vnfd_map : dict string :=
  [("GET /vnfds", "vnfds"); ("GET /vnfds/<id>", "vnfds:id")].
Definition vnfd_index : dict (list value) :=
  [("vnfds", [VStr "anonymous"]); ("vnfds:id", [VStr "project_viewer"])].

Definition a_keystone : keystone :=
  {| ks_passwords := [("alice", "secret")];
     ks_tokens := [("tok-alice", ["project_viewer"])]; ks_roles := [];
     ks_expires := None |}.

(** A backend with a service account whose password is its name, and whose
    clock is behind: the tokens it issues carry the expiry 900. *)
Definition skewed_keystone : keystone :=
  {| ks_passwords := [("svc", "svc")]; ks_tokens := []; ks_roles := [];
     ks_expires := Some 900 |}.

Definition alice_login : indata :=
  {| in_username := Some "alice"; in_password := Some "secret";
     in_project_id := Some "admin" |}.
Definition svc_login : indata :=
  {| in_username := Some "svc"; in_password := Some "svc"; in_project_id := None |}.

(** a session the backend does not know *)
Definition bob_session : session :=
  {| s__id := "tok-bob"; s_id := "tok-bob"; issued_at := 1000; expires := 4600;
     project_id := "admin"; username := Some "bob"; remote_port := 4322;
     admin := false; remote_host := None |}.

Definition get_vnfd (auth : string) : request :=
  {| authorization := Some auth; allow_basic_authentication := false;
     path_info := "/vnfds/abc123"; method := "GET" |}.

Definition delegated : state keystone :=
  {| backend := a_keystone; db := store;
     tokens_cache := {[ "tok-alice" := alice_session ]};
     next_db_prune_time := 0;
     resources_to_operations_mapping := vnfd_map;
     operation_to_allowed_roles := vnfd_index;
     session_authorization := None; www_authenticate := None; calls := [] |}.

(** A role map: a viewer of descriptors and the public role. *)
Definition role_map : list role_with_operations :=
  [{| role := "project_viewer";
      operations := [(":", YBool false); ("vnfds", YBool true);
                     ("vnfds:id:delete", YBool false)] |};
   {| role := "anonymous"; operations := [("vnfds", YBool true); ("vnfds:", YBool true)] |}].

(** A backend that already lists the viewer role. *)
Definition listing_keystone : keystone :=
  {| ks_passwords := []; ks_tokens := [];
     ks_roles := [{| r_name := "project_viewer"; r__id := "ks-77" |}];
     ks_expires := None |}.

End Sample.

(** ** Sample documents and a sample token table *)

Module EngineSample.
Import Merge Engine.

(** A stored descriptor and a patch for it: the patch removes the
    description and the memory of the unit, changes its cpu, and adds a
    vendor whose url is null. *)
Definition descriptor : dict (json string) :=
  [("name", JOther "vnf-a");
   ("vdu", JDict [("cpu", JOther "2"); ("mem", JOther "4")]);
   ("description", JOther "first draft")].
Definition patch : dict (json string) :=
  [("description", JNone);
   ("vdu", JDict [("cpu", JOther "4"); ("mem", JNone)]);
   ("vendor", JDict [("name", JOther "acme"); ("url", JNone)])].
Definition patched_descriptor : dict (json string) :=
  [("name", JOther "vnf-a");
   ("vdu", JDict [("cpu", JOther "4")]);
   ("vendor", JDict [("name", JOther "acme")])].

(** An Engine that holds the session of alice. *)
Definition an_engine : engine :=
  {| e_tokens := [("tok-alice", Sample.alice_session)]; e_db := Sample.store |}.

End EngineSample.
(** * Properties *)

(** ** Dictionaries *)

Section DictFacts.
Context {V : Type}.
Implicit Types (d : dict V) (k m : string) (v : V).

Lemma dict_get_set k m v d :
  dict_get m (dict_set k v d) = if String.eqb k m then Some v else dict_get m d.
Proof.
  induction d as [|[k' v'] d IH]; simpl.
  - destruct (String.eqb_spec k m); reflexivity.
  - destruct (String.eqb_spec k' k) as [->|Hk]; simpl.
    + destruct (String.eqb_spec k m); reflexivity.
    + rewrite IH. destruct (String.eqb_spec k' m) as [->|]; [|reflexivity].
      destruct (String.eqb_spec k m); congruence.
Qed.

Lemma dict_keys_set_present k v d :
  In k (dict_keys d) -> dict_keys (dict_set k v d) = dict_keys d.
Proof.
  induction d as [|[k' v'] d IH]; simpl; [tauto|].
  intros [->|Hin].
  - rewrite String.eqb_refl. reflexivity.
  - destruct (String.eqb_spec k' k); simpl; [reflexivity|].
    f_equal. apply IH, Hin.
Qed.

Lemma dict_get_In k v d : dict_get k d = Some v -> In (k, v) d.
Proof.
  induction d as [|[k' v'] d IH]; simpl; [discriminate|].
  destruct (String.eqb_spec k' k) as [->|]; [intros [= ->]; auto|auto].
Qed.

Lemma dict_get_None k d : dict_get k d = None <-> ~ In k (dict_keys d).
Proof.
  induction d as [|[k' v'] d IH]; simpl; [tauto|].
  destruct (String.eqb_spec k' k) as [->|]; split; try discriminate; try tauto.
Qed.

Lemma dict_get_Some_key k v d : dict_get k d = Some v -> In k (dict_keys d).
Proof. intros H. apply dict_get_In in H. apply (in_map fst) in H. exact H. Qed.

Lemma In_dict_get k v d :
  List.NoDup (dict_keys d) -> In (k, v) d -> dict_get k d = Some v.
Proof.
  induction d as [|[k' v'] d IH]; simpl; [tauto|].
  intros Hnd [[= -> ->]|Hin].
  - rewrite String.eqb_refl. reflexivity.
  - apply NoDup_cons_iff in Hnd as [Hk Hnd].
    destruct (String.eqb_spec k' k) as [->|]; [|auto].
    exfalso. apply Hk. apply (in_map fst) in Hin. exact Hin.
Qed.

Lemma dict_get_Permutation k d1 d2 :
  List.NoDup (dict_keys d1) -> Permutation d1 d2 -> dict_get k d1 = dict_get k d2.
Proof.
  intros Hnd Hp.
  assert (Hnd2 : List.NoDup (dict_keys d2)).
  { eapply Permutation_NoDup; [|exact Hnd]. apply Permutation_map, Hp. }
  destruct (dict_get k d1) as [v|] eqn:E1.
  - symmetry. apply In_dict_get; [exact Hnd2|].
    eapply Permutation_in; [exact Hp|]. apply dict_get_In, E1.
  - destruct (dict_get k d2) as [v|] eqn:E2; [|reflexivity].
    apply dict_get_None in E1. exfalso. apply E1.
    apply dict_get_Some_key in E2.
    eapply Permutation_in; [|exact E2].
    apply Permutation_map, Permutation_sym, Hp.
Qed.

(** Assigning one value to a list of keys. *)
Lemma dict_get_set_all m v (ks : list string) d :
  dict_get m (fold_left (fun rp k => dict_set k v rp) ks d)
  = if mem_string m ks then Some v else dict_get m d.
Proof.
  revert d. induction ks as [|k ks IH]; intros d; simpl; [reflexivity|].
  rewrite IH, dict_get_set. unfold mem_string.
  rewrite (String.eqb_sym m k).
  destruct (existsb (String.eqb m) ks), (String.eqb k m); reflexivity.
Qed.

Lemma dict_keys_set_all v (ks : list string) d :
  (forall k, In k ks -> In k (dict_keys d)) ->
  dict_keys (fold_left (fun rp k => dict_set k v rp) ks d) = dict_keys d.
Proof.
  revert d. induction ks as [|k ks IH]; intros d Hsub; simpl; [reflexivity|].
  rewrite IH.
  - apply dict_keys_set_present, Hsub. left; reflexivity.
  - intros k' Hk'. rewrite dict_keys_set_present by (apply Hsub; left; reflexivity).
    apply Hsub. right; exact Hk'.
Qed.
End DictFacts.

Lemma mem_string_In s l : mem_string s l = true <-> In s l.
Proof.
unfold mem_string. rewrite existsb_exists. split.
- intros (x & Hin & Heq). apply String.eqb_eq in Heq. subst. exact Hin.
- intros Hin. exists s. split; [exact Hin|apply String.eqb_refl].
Qed.

Lemma filter_Permutation {A} (f : A -> bool) (l l' : list A) :
Permutation l l' -> Permutation (List.filter f l) (List.filter f l').
Proof.
induction 1 as [|x l l' _ IH|x y l|l l' l'' _ IH1 _ IH2]; simpl.
- constructor.
- destruct (f x); [constructor|]; exact IH.
- destruct (f x), (f y); try reflexivity. apply perm_swap.
- etransitivity; eassumption.
Qed.

(** ** Role permission resolution *)

Module CatalogFacts.
Import Catalog Policy.

Lemma find_zero_prefix p x : (Py.find x p =? 0) = String.prefix p x.
Proof.
  unfold Py.find. destruct x as [|a x].
  - destruct p; reflexivity.
  - cbn [index]. destruct (String.prefix p (String a x)); [reflexivity|].
    destruct (index 0 p x) as [n|]; [|reflexivity].
    apply Z.eqb_neq. lia.
Qed.

Lemma starts_with_matches m e : starts_with (fst e) m = matches m e.
Proof. apply find_zero_prefix. Qed.

Lemma last_match_In m l b : last_match m l = Some b -> In b l /\ matches m b = true.
Proof.
  induction l as [|e l IH]; simpl; [discriminate|].
  destruct (last_match m l) as [b'|].
  - intros [= <-]. destruct (IH eq_refl). auto.
  - destruct (matches m e) eqn:E; [|discriminate].
    intros [= <-]. auto.
Qed.

Lemma last_match_None m l :
  last_match m l = None -> forall e, In e l -> matches m e = false.
Proof.
  induction l as [|e l IH]; simpl; [tauto|].
  destruct (last_match m l) as [b'|]; [discriminate|].
  destruct (matches m e) eqn:E; [discriminate|].
  intros _ e' [<-|Hin]; auto.
Qed.

(** One override leaves the key set alone and rewrites the matching keys. *)
Lemma apply_override_keys rp e : dict_keys (apply_override rp e) = dict_keys rp.
Proof.
  unfold apply_override. apply dict_keys_set_all.
  intros k Hk. apply filter_In in Hk. tauto.
Qed.

Lemma apply_override_get rp e m x :
  dict_get m rp = Some x ->
  dict_get m (apply_override rp e) = Some (if matches m e then snd e else x).
Proof.
  intros Hget. unfold apply_override. rewrite dict_get_set_all.
  rewrite <- starts_with_matches.
  destruct (mem_string m _) eqn:E.
  - apply mem_string_In, filter_In in E as [_ ->]. reflexivity.
  - destruct (starts_with (fst e) m) eqn:Es; [|exact Hget].
    exfalso. apply dict_get_Some_key in Hget.
    assert (H : mem_string m (List.filter (starts_with (fst e)) (dict_keys rp)) = true).
    { apply mem_string_In, filter_In. auto. }
    congruence.
Qed.

Lemma fold_override_get l : forall rp m x,
  dict_get m rp = Some x ->
  dict_get m (fold_left apply_override l rp)
  = Some (match last_match m l with Some b => snd b | None => x end).
Proof.
  induction l as [|e l IH]; intros rp m x Hget; simpl; [exact Hget|].
  rewrite (IH _ m _ (apply_override_get rp e m x Hget)).
  destruct (last_match m l); [reflexivity|].
  destruct (matches m e); reflexivity.
Qed.

Lemma insert_sorted_In x l e : In e (insert_sorted x l) <-> e = x \/ In e l.
Proof.
  induction l as [|y l IH]; simpl; [intuition|].
  destruct (colons x <=? colons y)%nat; simpl; [intuition|].
  rewrite IH. intuition.
Qed.

Lemma insert_sorted_sorted x l :
  StronglySorted by_colons l -> StronglySorted by_colons (insert_sorted x l).
Proof.
  induction 1 as [|y l Hs IH Hall]; simpl.
  - constructor; constructor.
  - destruct (Nat.leb_spec (colons x) (colons y)) as [Hle|Hlt].
    + constructor; [constructor; assumption|].
      constructor; [exact Hle|].
      eapply List.Forall_impl; [|exact Hall]. unfold by_colons. simpl. intros; lia.
    + constructor; [exact IH|].
      apply List.Forall_forall. intros e He. apply insert_sorted_In in He as [->|He].
      * unfold by_colons. lia.
      * rewrite List.Forall_forall in Hall. auto.
Qed.

Lemma sort_by_colons_sorted l : StronglySorted by_colons (sort_by_colons l).
Proof.
  induction l as [|x l IH]; simpl; [constructor|].
  apply insert_sorted_sorted, IH.
Qed.

Lemma sort_by_colons_perm l : Permutation (sort_by_colons l) l.
Proof.
  induction l as [|x l IH]; simpl; [constructor|].
  transitivity (x :: sort_by_colons l); [|constructor; exact IH].
  clear IH. generalize (sort_by_colons l) as s.
  induction s as [|y s IHs]; simpl; [reflexivity|].
  destruct (colons x <=? colons y)%nat; [reflexivity|].
  etransitivity; [apply perm_skip, IHs|apply perm_swap].
Qed.

(** Inserting into a sorted list: the new override is applied last among the
    matching ones exactly when it is strictly deeper than the previous one. *)
Lemma last_match_insert m e l :
  StronglySorted by_colons l ->
  last_match m (insert_sorted e l)
  = if matches m e then
      match last_match m l with
      | Some b => if (colons b <? colons e)%nat then Some e else Some b
      | None => Some e
      end
    else last_match m l.
Proof.
  induction 1 as [|y l Hs IH Hall]; simpl.
  - destruct (matches m e); reflexivity.
  - destruct (Nat.leb_spec (colons e) (colons y)) as [Hle|Hlt]; simpl.
    + destruct (last_match m l) as [b|] eqn:El.
      * apply last_match_In in El as [Hin _].
        rewrite List.Forall_forall in Hall. specialize (Hall _ Hin). unfold by_colons in Hall.
        destruct (Nat.ltb_spec (colons b) (colons e)); [lia|].
        destruct (matches m e); reflexivity.
      * destruct (matches m y) eqn:Ey; [|reflexivity].
        destruct (Nat.ltb_spec (colons y) (colons e)); [lia|].
        destruct (matches m e); reflexivity.
    + rewrite IH. destruct (matches m e) eqn:Ee.
      * destruct (last_match m l) as [b|] eqn:El.
        -- destruct (colons b <? colons e)%nat; reflexivity.
        -- destruct (matches m y); [|reflexivity].
           destruct (Nat.ltb_spec (colons y) (colons e)); [reflexivity|lia].
      * reflexivity.
Qed.

(** The sorted application order realises the rule of [Policy]. *)
Lemma last_match_sort m l : last_match m (sort_by_colons l) = most_specific m l.
Proof.
  induction l as [|e l IH]; simpl; [reflexivity|].
  rewrite last_match_insert by apply sort_by_colons_sorted.
  rewrite IH. destruct (matches m e), (most_specific m l); reflexivity.
Qed.

(** What [most_specific] selects. *)
Lemma most_specific_None m l :
  most_specific m l = None <-> forall e, In e l -> matches m e = false.
Proof.
  induction l as [|e l IH]; simpl; [tauto|].
  destruct (most_specific m l) as [b|].
  - split.
    + destruct (_ && _); discriminate.
    + intros H. assert (Hb : forall e, In e l -> matches m e = false) by auto.
      apply IH in Hb. discriminate.
  - destruct (matches m e) eqn:E; split; try discriminate; try reflexivity.
    + intros H. specialize (H e (or_introl eq_refl)). congruence.
    + intros _ e' [<-|Hin]; [exact E|]. apply IH; auto.
Qed.

Lemma most_specific_Some m l b :
  most_specific m l = Some b ->
  exists l1 l2,
    l = (l1 ++ b :: l2)%list /\ matches m b = true /\
    (forall e, In e l1 -> matches m e = true -> (colons e <= colons b)%nat) /\
    (forall e, In e l2 -> matches m e = true -> (colons e < colons b)%nat).
Proof.
  revert b. induction l as [|e l IH]; simpl; [discriminate|]. intros b.
  destruct (most_specific m l) as [b'|] eqn:E.
  - destruct (IH b' eq_refl) as (l1 & l2 & -> & Hb' & H1 & H2).
    destruct (matches m e) eqn:Ee; simpl.
    + destruct (Nat.ltb_spec (colons b') (colons e)); intros [= <-].
      * exists [], (l1 ++ b' :: l2)%list. repeat split; auto.
        -- simpl; tauto.
        -- intros e' He' Hm. apply in_app_iff in He' as [He'|[<-|He']].
           ++ specialize (H1 _ He' Hm). lia.
           ++ lia.
           ++ specialize (H2 _ He' Hm). lia.
      * exists (e :: l1), l2. repeat split; auto.
        intros e' [<-|He'] Hm; [lia|auto].
    + intros [= <-]. exists (e :: l1), l2. repeat split; auto.
      intros e' [<-|He'] Hm; [congruence|auto].
  - destruct (matches m e) eqn:Ee; [|discriminate]. intros [= <-].
    exists [], l. repeat split; auto.
    + simpl; tauto.
    + intros e' He' Hm. apply (proj1 (most_specific_None m l)) in He'; [congruence|exact E].
Qed.

Lemma most_specific_max m l b :
  most_specific m l = Some b ->
  In b l /\ matches m b = true /\
  forall e, In e l -> matches m e = true -> (colons e <= colons b)%nat.
Proof.
  intros H. apply most_specific_Some in H as (l1 & l2 & -> & Hb & H1 & H2).
  split; [apply in_app_iff; right; left; reflexivity|]. split; [exact Hb|].
  intros e He Hm. apply in_app_iff in He as [He|[<-|He]].
  - auto.
  - lia.
  - specialize (H2 _ He Hm). lia.
Qed.

Lemma most_specific_Permutation m l l' :
  tie_free m l -> Permutation l l' -> most_specific m l = most_specific m l'.
Proof.
  intros Htf Hp.
  destruct (most_specific m l) as [b|] eqn:E, (most_specific m l') as [b'|] eqn:E'.
  - apply most_specific_max in E as (Hin & Hm & Hmax).
    apply most_specific_max in E' as (Hin' & Hm' & Hmax').
    apply (Permutation_in _ (Permutation_sym Hp)) in Hin'.
    f_equal. apply Htf; auto.
    pose proof (Hmax _ Hin' Hm').
    pose proof (Hmax' _ (Permutation_in _ Hp Hin) Hm). lia.
  - apply most_specific_max in E as (Hin & Hm & _).
    rewrite most_specific_None in E'.
    specialize (E' _ (Permutation_in _ Hp Hin)). congruence.
  - apply most_specific_max in E' as (Hin' & Hm' & _).
    rewrite most_specific_None in E.
    specialize (E _ (Permutation_in _ (Permutation_sym Hp) Hin')). congruence.
  - reflexivity.
Qed.

(** The defaults. *)
Lemma root_permissions_Ok ops record root : forall acc,
  dict_get "root" record = Some root ->
  root_permissions ops record acc
  = Ok (fold_left (fun d oper => dict_set oper root d) ops acc).
Proof.
  induction ops as [|o ops IH]; intros acc Hroot; simpl; [reflexivity|].
  unfold dict_item. rewrite Hroot. simpl. apply IH, Hroot.
Qed.

Lemma record_permissions_get ops record root m :
  dict_get "root" record = Some root -> In m ops ->
  exists rp, record_permissions ops record = Ok rp /\
    dict_get m rp = Some (effective m root (operations_joined record)).
Proof.
  intros Hroot Hin. unfold record_permissions.
  rewrite (root_permissions_Ok _ _ _ _ Hroot). simpl.
  eexists. split; [reflexivity|].
  erewrite fold_override_get.
  - rewrite last_match_sort. reflexivity.
  - rewrite dict_get_set_all.
    apply mem_string_In in Hin. rewrite Hin. reflexivity.
Qed.

End CatalogFacts.

(** ** The monad *)

Section MonadFacts.
Context {B : Type}.

Lemma bind_Ok {A C} (m : M B A) (f : A -> M B C) st c st' :
  bind m f st = (Ok c, st') ->
  exists a st1, m st = (Ok a, st1) /\ f a st1 = (Ok c, st').
Proof.
  unfold bind. destruct (m st) as [[a|e] st1]; [eauto|discriminate].
Qed.

Lemma bind_eq {A C} (m : M B A) (f : A -> M B C) st a st1 :
  m st = (Ok a, st1) -> bind m f st = f a st1.
Proof. unfold bind. intros ->. reflexivity. Qed.

Lemma bind_Err {A C} (m : M B A) (f : A -> M B C) st e st1 :
  m st = (Err e, st1) -> bind m f st = (Err e, st1).
Proof. unfold bind. intros ->. reflexivity. Qed.

Lemma set_backend_neq (b : B) (c : call) (st : state B) : set_backend b c st <> st.
Proof.
  intros Heq. apply (f_equal calls) in Heq. simpl in Heq.
  apply (f_equal (@length call)) in Heq. rewrite length_app in Heq. simpl in Heq. lia.
Qed.

Lemma set_tokens_cache_same (st : state B) : set_tokens_cache (tokens_cache st) st = st.
Proof. destruct st; reflexivity. Qed.
End MonadFacts.

(** Inversion of a successful run, one [bind] at a time. *)
Tactic Notation "inv_bind" hyp(H) "as" ident(a) ident(st1) ident(H1) :=
  apply bind_Ok in H as (a & st1 & H1 & H).

(** ** Tokens in internal mode *)

Module TokenFacts.
Import Authenticator TokenSteps.

Section WithBackend.
Context {B : Type} `{Authconn B}.
Implicit Types (st : state B) (cfg : config).

Lemma _internal_tokens_prune_eq st time now :
  _internal_tokens_prune (B:=B) time now st
  = let now := match now with
               | Some n => if n =? 0 then time else n
               | None => time
               end in
    (Ok tt,
     if (next_db_prune_time st =? 0) || (now <=? next_db_prune_time st)
     then pruned now st else st).
Proof.
  unfold _internal_tokens_prune. cbv zeta. unfold bind at 1, gets at 1.
  destruct (_ || _); reflexivity.
Qed.

(** Once the deadline has passed the pass is skipped. *)
Lemma prune_skipped_after_deadline st time now :
  now <> 0 -> next_db_prune_time st <> 0 -> next_db_prune_time st < now ->
  _internal_tokens_prune time (Some now) st = (Ok tt, st).
Proof.
  intros Hnow Hnext Hlt. rewrite _internal_tokens_prune_eq. cbv zeta.
  destruct (Z.eqb_spec now 0); [contradiction|].
  destruct (Z.eqb_spec (next_db_prune_time st) 0); [contradiction|].
  destruct (Z.leb_spec now (next_db_prune_time st)); [lia|]. reflexivity.
Qed.

(** Up to the deadline the pass runs at every call. *)
Lemma prune_runs_until_deadline st time now :
  now <> 0 -> now <= next_db_prune_time st ->
  _internal_tokens_prune time (Some now) st = (Ok tt, pruned now st).
Proof.
  intros Hnow Hle. rewrite _internal_tokens_prune_eq. cbv zeta.
  destruct (Z.eqb_spec now 0); [contradiction|].
  destruct (Z.leb_spec now (next_db_prune_time st)); [|lia].
  rewrite orb_true_r. reflexivity.
Qed.

Lemma evicted_cache token_id st :
  tokens_cache (evicted token_id st) = delete token_id (tokens_cache st).
Proof.
  unfold evicted. destruct (tokens_cache st !! token_id) eqn:E; simpl; [reflexivity|].
  symmetry. apply delete_id, E.
Qed.

Lemma evicted_db token_id st : db (evicted token_id st) = db st.
Proof. unfold evicted. destruct (tokens_cache st !! token_id); reflexivity. Qed.

Lemma truthy_Some (t : string) : t <> "" -> Py.truthy (Some t) = true.
Proof.
  intros Hne. simpl. destruct (String.eqb_spec t ""); [contradiction|reflexivity].
Qed.

Lemma get_one_error {A} (rows : list A) e :
  Db.get_one rows = Err e -> exists m code, e = DbException m code.
Proof.
  destruct rows as [|r [|r' rows]]; simpl; intros [= <-]; eauto.
Qed.

(** [_internal_authorize] by cases on the cache. *)
Lemma _internal_authorize_eq cfg now token_id st :
  token_id <> "" ->
  _internal_authorize cfg now (Some token_id) st
  = match tokens_cache st !! token_id with
    | Some s =>
        if expires s <? now then from_store cfg now token_id (evicted token_id st)
        else (Ok (Stored s), st)
    | None => from_store cfg now token_id st
    end.
Proof.
  intros Hne. unfold _internal_authorize, _internal_authorize_try, catch, bind, gets, modify, ret, raise.
  rewrite (truthy_Some _ Hne). cbn [negb default from_option id].
  unfold evicted, from_store.
  destruct (tokens_cache st !! token_id) as [s|] eqn:Ec.
  - destruct (expires s <? now) eqn:Ee.
    + cbn [db set_tokens_cache].
      destruct (Db.get_one _) as [s'|e] eqn:Eg.
      * destruct (expires s' <? now); [unfold bypass|].
        -- destruct (Py.truthy _); reflexivity.
        -- reflexivity.
      * destruct (get_one_error _ _ Eg) as (m & code & ->).
        destruct (bool_decide _); reflexivity.
    + reflexivity.
  - destruct (Db.get_one _) as [s'|e] eqn:Eg.
    + destruct (expires s' <? now); [unfold bypass|].
      * destruct (Py.truthy _); reflexivity.
      * reflexivity.
    + destruct (get_one_error _ _ Eg) as (m & code & ->).
      destruct (bool_decide _); reflexivity.
Qed.
Lemma bypass_not_stored cfg e s : bypass cfg e <> Ok (Stored s).
Proof. unfold bypass. destruct (Py.truthy _); discriminate. Qed.

Lemma from_store_sound cfg now token_id st r st' :
  from_store cfg now token_id st = (r, st') ->
  (forall s, r = Ok (Stored s) -> ~ expires s < now) /\
  db st' = db st /\
  (forall s, tokens_cache st' !! token_id = Some s ->
     tokens_cache st !! token_id = Some s \/ ~ expires s < now).
Proof.
  unfold from_store. destruct (Db.get_one _) as [s'|e].
  - destruct (Z.ltb_spec (expires s') now); intros [= <- <-].
    + split; [intros s Hs; exfalso; exact (bypass_not_stored _ _ _ Hs)|]. auto.
    + split; [intros s [= <-]; lia|]. split; [reflexivity|].
      intros s. simpl. rewrite lookup_insert_eq. intros [= <-]. right; lia.
  - destruct e; intros [= <- <-];
      (split; [try discriminate; destruct (bool_decide _); discriminate|auto]).
Qed.

Lemma from_store_expired cfg now token_id st s :
  Db.tokens_by_id token_id (db st) = [s] -> expires s < now ->
  from_store cfg now token_id st = (bypass cfg expired_token, st).
Proof.
  intros Hrows Hexp. unfold from_store. rewrite Hrows. simpl.
  destruct (Z.ltb_spec (expires s) now); [reflexivity|lia].
Qed.

End WithBackend.
End TokenFacts.

(** ** The facade *)

Module FacadeFacts.
Import Authenticator.

Section WithBackend.
Context {B : Type} `{Authconn B}.
Implicit Types (st : state B) (cfg : config).

Lemma catch_Ok {A} (m : M B A) (h : exn -> M B A) st a st' :
  catch m h st = (Ok a, st') ->
  m st = (Ok a, st') \/ exists e st1, m st = (Err e, st1) /\ h e st1 = (Ok a, st').
Proof.
  unfold catch. destruct (m st) as [[a'|e] st1]; [intros [= <- <-]; auto|eauto].
Qed.

Lemma invoke_eq {A} (c : call) (f : B -> result A * B) st r b' :
  f (backend st) = (r, b') -> invoke c f st = (r, set_backend b' c st).
Proof. unfold invoke. intros ->. reflexivity. Qed.

Lemma invoke_Ok {A} (c : call) (f : B -> result A * B) st a st' :
  invoke c f st = (Ok a, st') ->
  exists b', f (backend st) = (Ok a, b') /\ st' = set_backend b' c st.
Proof.
  unfold invoke. destruct (f (backend st)) as [r b']. intros [= -> <-]. eauto.
Qed.

Lemma lift_Ok {A} (r : result A) st a st' :
  lift (B:=B) r st = (Ok a, st') -> r = Ok a /\ st' = st.
Proof. unfold lift. intros [= -> ->]. auto. Qed.

Lemma gets_Ok {A} (f : state B -> A) st a st' :
  gets f st = (Ok a, st') -> a = f st /\ st' = st.
Proof. unfold gets. intros [= <- <-]. auto. Qed.

Lemma cached_Ok token st s st' :
  cached token st = (Ok s, st') -> tokens_cache st !! token = Some s /\ st' = st.
Proof.
  unfold cached, bind, gets. destruct (tokens_cache st !! token); [|discriminate].
  intros [= <- <-]. auto.
Qed.

(** [check_permissions] once the operation is resolved. *)
Lemma check_permissions_eq st session url method key parameters operation roles_required
    answer b' :
  Url._normalize_url (resources_to_operations_mapping st) url method = Ok (key, parameters) ->
  dict_get key (resources_to_operations_mapping st) = Some operation ->
  dict_get operation (operation_to_allowed_roles st) = Some roles_required ->
  get_user_role_list (backend st) (s_id session) = (answer, b') ->
  check_permissions session url method st
  = (match answer with
     | Err e => Err e
     | Ok roles_allowed =>
         if role_in "anonymous" roles_required then Ok tt
         else match roles_allowed with
              | None => Err TypeError
              | Some roles =>
                  if existsb (fun role => role_in role roles_required) roles then Ok tt
                  else Err lack_of_permissions
              end
     end, set_backend b' (Get_user_role_list (s_id session)) st).
Proof.
  intros Hurl Hop Hreq Hans.
  unfold check_permissions, bind, gets, lift, invoke, dict_item.
  rewrite Hurl. cbn [fst]. rewrite Hop, Hreq, Hans.
  destruct answer as [[roles|]|e]; [| |reflexivity];
    destruct (role_in "anonymous" roles_required); try reflexivity.
  destruct (existsb _ roles); reflexivity.
Qed.

(** A successful check resolved the URL and asked the backend. *)
Lemma check_permissions_Ok st session url method st' :
  check_permissions session url method st = (Ok tt, st') ->
  exists key parameters operation roles_required roles_allowed b',
    Url._normalize_url (resources_to_operations_mapping st) url method = Ok (key, parameters) /\
    dict_get key (resources_to_operations_mapping st) = Some operation /\
    dict_get operation (operation_to_allowed_roles st) = Some roles_required /\
    get_user_role_list (backend st) (s_id session) = (Ok roles_allowed, b') /\
    st' = set_backend b' (Get_user_role_list (s_id session)) st /\
    (role_in "anonymous" roles_required = true \/
     exists roles, roles_allowed = Some roles /\
       existsb (fun role => role_in role roles_required) roles = true).
Proof.
  intros Hrun. unfold check_permissions in Hrun.
  inv_bind Hrun as mapping st1 H1. apply gets_Ok in H1 as [-> ->].
  inv_bind Hrun as kp st2 H2. apply lift_Ok in H2 as [Hurl ->]. destruct kp as [key parameters].
  inv_bind Hrun as op st3 H3. apply lift_Ok in H3 as [Hop ->].
  inv_bind Hrun as index st4 H4. apply gets_Ok in H4 as [-> ->].
  inv_bind Hrun as req st5 H5. apply lift_Ok in H5 as [Hreq ->].
  inv_bind Hrun as a3 st6 H6. apply invoke_Ok in H6 as (b' & Hans & ->).
  unfold dict_item in Hop, Hreq. cbn [fst] in Hop.
  destruct (dict_get key _) as [operation|] eqn:Eop; [|discriminate].
  injection Hop as <-.
  destruct (dict_get operation _) as [roles_required|] eqn:Ereq; [|discriminate].
  injection Hreq as <-.
  exists key, parameters, operation, roles_required, a3, b'.
  repeat (split; [first [assumption|reflexivity]|]).
  destruct (role_in "anonymous" roles_required) eqn:Ea.
  - injection Hrun as <-. auto.
  - destruct a3 as [roles|]; [|discriminate].
    destruct (existsb _ roles) eqn:Ex; [|discriminate].
    injection Hrun as <-. eauto.
Qed.

Lemma role_in_In role roles_required :
  role_in role roles_required = true <-> In (VStr role) roles_required.
Proof.
  unfold role_in. rewrite existsb_exists. split.
  - intros (v & Hin & Hv). apply bool_decide_eq_true in Hv. subst. exact Hin.
  - intros Hin. exists (VStr role). split; [exact Hin|]. apply bool_decide_eq_true. reflexivity.
Qed.

Lemma roles_intersect roles roles_required :
  existsb (fun role => role_in role roles_required) roles = true
  <-> exists role, In role roles /\ In (VStr role) roles_required.
Proof.
  rewrite existsb_exists. split; intros (role & Hin & Hr); exists role;
    (split; [exact Hin|]); apply role_in_In, Hr.
Qed.

(** The request's token is read without any effect. *)
Lemma presented_token_state req st r st' :
  presented_token req st = (r, st') -> st' = st.
Proof.
  unfold presented_token.
  destruct (if Py.truthy (authorization req) then _ else _) as [token user_passwd64].
  destruct (Py.truthy token); [intros [= _ <-]; reflexivity|].
  unfold bind, gets.
  destruct (Py.truthy (session_authorization st)); [intros [= _ <-]; reflexivity|].
  destruct (_ && _); intros [= _ <-]; reflexivity.
Qed.

Lemma truthy_inv (o : option string) :
  Py.truthy o = true -> exists t, o = Some t /\ t <> "".
Proof.
  destruct o as [t|]; [|discriminate]. simpl.
  destruct (String.eqb_spec t ""); [discriminate|eauto].
Qed.

(** [new_token] in delegated mode makes exactly one call, with the username
    in both credential positions. *)
Lemma new_token_call cfg sha idf now token_id sess i r st :
  is_internal cfg = false ->
  calls (snd (new_token cfg sha idf now token_id sess i r st))
  = (calls st ++
     [Authenticate (in_username i) (in_username i)
        (match sess with Some s => session_get_token s | None => None end)
        (in_project_id i)])%list.
Proof.
  intros Hi. unfold new_token. rewrite Hi.
  unfold bind at 1. unfold invoke.
  destruct (authenticate _ _ _ _ _) as [[ti|e] b']; [|reflexivity].
  unfold bind, lift, ret, raise, modify.
  destruct (ti__id ti); [|reflexivity].
  destruct (ti_project_id ti); [|reflexivity].
  destruct (Py.truthy (ti_username ti)); [reflexivity|].
  destruct sess; reflexivity.
Qed.

End WithBackend.
End FacadeFacts.

(** ** The catalog build reads only the view of the stored records *)

Module InitDbFacts.
Import Catalog Similar InitDb.

Lemma field_sim_refl a : field_sim a a.
Proof. split; auto. Qed.

Lemma record_sim_refl r : record_sim r r.
Proof. induction r; constructor; auto using field_sim_refl. Qed.

Lemma record_sim_get k r1 r2 :
  record_sim r1 r2 -> k <> "_admin" -> k <> "_id" -> dict_get k r1 = dict_get k r2.
Proof.
  intros Hs Ha Hi. induction Hs as [|[k1 v1] [k2 v2] r1 r2 [Hk Hv] _ IH]; [reflexivity|].
  simpl in *. subst k2. destruct (String.eqb_spec k1 k) as [->|]; [|exact IH].
  destruct Hv as [ -> | [Hx | Hx] ]; congruence.
Qed.

Lemma record_sim_get_is_Some k r1 r2 :
  record_sim r1 r2 -> is_Some (dict_get k r1) <-> is_Some (dict_get k r2).
Proof.
  intros Hs. induction Hs as [|[k1 v1] [k2 v2] r1 r2 [Hk Hv] _ IH]; [reflexivity|].
  simpl in *. subst k2. destruct (String.eqb k1 k); [|exact IH].
  split; intros _; eauto.
Qed.

Lemma record_sim_joined r1 r2 :
  record_sim r1 r2 -> operations_joined r1 = operations_joined r2.
Proof.
  intros Hs. induction Hs as [|[k1 v1] [k2 v2] r1 r2 [Hk Hv] _ IH]; [reflexivity|].
  unfold operations_joined in *. simpl in *. subst k2. rewrite IH.
  destruct Hv as [ -> | [ -> | -> ] ]; reflexivity.
Qed.

Lemma record_sim_view r1 r2 : record_sim r1 r2 -> view r1 = view r2.
Proof.
  intros Hs. unfold view.
  rewrite (record_sim_get "root" r1 r2 Hs), (record_sim_get "name" r1 r2 Hs) by discriminate.
  rewrite (record_sim_joined r1 r2 Hs). reflexivity.
Qed.

Lemma record_sim_set k v r1 r2 :
  record_sim r1 r2 -> record_sim (dict_set k v r1) (dict_set k v r2).
Proof.
  intros Hs. induction Hs as [|[k1 v1] [k2 v2] r1 r2 [Hk Hv] Hrest IH]; simpl.
  - constructor; [apply field_sim_refl|constructor].
  - simpl in Hk. subst k2. destruct (String.eqb k1 k).
    + constructor; [apply field_sim_refl|assumption].
    + constructor; [split; auto|exact IH].
Qed.

Lemma record_sim_set_id v1 v2 r1 r2 :
  record_sim r1 r2 -> record_sim (dict_set "_id" v1 r1) (dict_set "_id" v2 r2).
Proof.
  intros Hs. induction Hs as [|[k1 w1] [k2 w2] r1 r2 [Hk Hv] Hrest IH]; simpl.
  - constructor; [split; simpl; auto|constructor].
  - simpl in Hk. subst k2. destruct (String.eqb_spec k1 "_id") as [->|].
    + constructor; [split; simpl; auto|assumption].
    + constructor; [split; auto|exact IH].
Qed.

Lemma role_item_sim now1 now2 name root role_ops :
  record_sim (role_item now1 name root role_ops) (role_item now2 name root role_ops).
Proof.
  unfold role_item.
  assert (Hbase : record_sim
            [("_admin", VAdmin now1 now1); ("name", VStr name); ("root", VBool root)]
            [("_admin", VAdmin now2 now2); ("name", VStr name); ("root", VBool root)]).
  { constructor; [split; simpl; auto|apply record_sim_refl]. }
  revert Hbase. generalize [("_admin", VAdmin now1 now1); ("name", VStr name); ("root", VBool root)].
  generalize [("_admin", VAdmin now2 now2); ("name", VStr name); ("root", VBool root)].
  induction role_ops as [|[k v] ops IH]; intros d2 d1 Hs; simpl; [exact Hs|].
  apply IH, record_sim_set, Hs.
Qed.

(** The index build depends on the records through their views only. *)
Lemma root_permissions_view ops r1 r2 acc :
  view r1 = view r2 -> root_permissions ops r1 acc = root_permissions ops r2 acc.
Proof.
  intros Hv.
  assert (Hn : dict_item "root" r1 = dict_item "root" r2).
  { unfold dict_item. injection Hv as -> _ _. reflexivity. }
  revert acc. induction ops as [|o ops IH]; intros acc; simpl; [reflexivity|].
  rewrite Hn. destruct (dict_item "root" r2); simpl; [apply IH|reflexivity].
Qed.

Lemma record_permissions_view ops r1 r2 :
  view r1 = view r2 -> record_permissions ops r1 = record_permissions ops r2.
Proof.
  intros Hv. unfold record_permissions.
  rewrite (root_permissions_view ops r1 r2 [] Hv).
  injection Hv as _ _ ->. reflexivity.
Qed.

Lemma append_role_view r1 r2 allowed perms :
  view r1 = view r2 -> append_role r1 allowed perms = append_role r2 allowed perms.
Proof.
  intros Hv.
  assert (Hn : dict_item "name" r1 = dict_item "name" r2).
  { unfold dict_item. injection Hv as _ -> _. reflexivity. }
  revert perms. induction allowed as [|a allowed IH]; intros perms; simpl;
    [reflexivity|].
  destruct (dict_item a perms); simpl; [|reflexivity].
  rewrite Hn. destruct (dict_item "name" r2); simpl; [apply IH|reflexivity].
Qed.

Lemma add_records_sim ops rs1 rs2 :
  Forall2 record_sim rs1 rs2 ->
  forall perms, add_records ops rs1 perms = add_records ops rs2 perms.
Proof.
  induction 1 as [|r1 r2 rs1 rs2 Hs _ IH]; intros perms; simpl; [reflexivity|].
  apply record_sim_view in Hs.
  rewrite (record_permissions_view ops r1 r2 Hs).
  destruct (record_permissions ops r2) as [rp|]; simpl; [|reflexivity].
  rewrite (append_role_view r1 r2 _ _ Hs).
  destruct (append_role r2 _ perms); simpl; [apply IH|reflexivity].
Qed.

Lemma build_permissions_sim ops rs1 rs2 :
  Forall2 record_sim rs1 rs2 -> build_permissions ops rs1 = build_permissions ops rs2.
Proof. intros Hs. unfold build_permissions. apply add_records_sim, Hs. Qed.

Lemma create_role_record_sim f1 f2 i1 i2 d1 d2 :
  record_sim i1 i2 ->
  Forall2 record_sim (roles_operations d1) (roles_operations d2) ->
  Forall2 record_sim (roles_operations (Db.create_role_record f1 i1 d1))
    (roles_operations (Db.create_role_record f2 i2 d2)).
Proof.
  intros Hi Hd. unfold Db.create_role_record. simpl.
  apply Forall2_app; [exact Hd|]. constructor; [|constructor].
  pose proof (record_sim_get_is_Some "_id" i1 i2 Hi) as Hsome.
  destruct (dict_get "_id" i1) as [x|], (dict_get "_id" i2) as [y|].
  - exact Hi.
  - destruct (proj1 Hsome) as [? ?]; [eauto|discriminate].
  - destruct (proj2 Hsome) as [? ?]; [eauto|discriminate].
  - apply record_sim_set_id, Hi.
Qed.

Section WithBackend.
Context {B : Type} `{Authconn B}.
Implicit Types (st : state B) (cfg : config).

(** One round of the loop, as a function of the state. *)
Lemma create_roles_cons cfg time fresh_id n rwo doc roles st :
  create_roles cfg time fresh_id n (rwo :: doc) roles st
  = if mem_string (role rwo) roles then create_roles cfg time fresh_id (S n) doc roles st
    else match operations rwo with
         | [] => create_roles cfg time fresh_id (S n) doc (roles ++ [role rwo]) st
         | _ =>
           match role_operations (operations rwo) [] None with
           | Err e => (Err e, st)
           | Ok ro =>
               let item := role_item (time n) (role rwo) (default false (snd ro)) (fst ro) in
               if negb (String.eqb (authentication_backend cfg) "internal")
                  && negb (String.eqb (role rwo) "anonymous")
               then
                 match keystone_id (role rwo) st with
                 | (Ok kid, st1) =>
                     create_roles cfg time fresh_id (S n) doc (roles ++ [role rwo])
                       (set_db (Db.create_role_record fresh_id
                                  (dict_set "_id" (VStr (r__id kid)) item) (db st1)) st1)
                 | (Err e, st1) => (Err e, st1)
                 end
               else
                 create_roles cfg time fresh_id (S n) doc (roles ++ [role rwo])
                   (set_db (Db.create_role_record fresh_id item (db st)) st)
           end
         end.
Proof.
  cbn [create_roles].
  destruct (mem_string (role rwo) roles); [reflexivity|].
  destruct (operations rwo) as [|o ops]; [reflexivity|].
  unfold bind at 1, lift at 1.
  destruct (role_operations (o :: ops) [] None) as [ro|e]; [|reflexivity].
  cbv zeta. unfold bind at 1.
  destruct (negb _ && negb _).
  - unfold bind at 1. destruct (keystone_id (role rwo) st) as [[kid|e] st1]; [|reflexivity].
    unfold ret at 1. unfold bind at 1, modify at 1. reflexivity.
  - unfold ret at 1. unfold bind at 1, modify at 1. reflexivity.
Qed.

Lemma keystone_id_frame name st r st' :
  keystone_id name st = (r, st') ->
  resources_to_operations_mapping st' = resources_to_operations_mapping st /\
  operation_to_allowed_roles st' = operation_to_allowed_roles st /\
  db st' = db st.
Proof.
  unfold keystone_id, bind, invoke, ret.
  destruct (get_role_list (backend st)) as [[listed|e] b1]; [|intros [= <- <-]; auto].
  destruct (List.filter _ listed) as [|kid ?]; [|intros [= <- <-]; auto].
  cbn [backend set_backend].
  destruct (create_role b1 name) as [r' b2]. intros [= <- <-]. auto.
Qed.

Lemma create_roles_frame cfg time fresh_id doc : forall n roles st r st',
  create_roles cfg time fresh_id n doc roles st = (r, st') ->
  resources_to_operations_mapping st' = resources_to_operations_mapping st /\
  operation_to_allowed_roles st' = operation_to_allowed_roles st.
Proof.
  induction doc as [|rwo doc IH]; intros n roles st r st' Hrun.
  - injection Hrun as <- <-. auto.
  - rewrite create_roles_cons in Hrun.
    destruct (mem_string (role rwo) roles); [eapply IH; eassumption|].
    destruct (operations rwo) as [|o ops]; [eapply IH; eassumption|].
    destruct (role_operations (o :: ops) [] None) as [ro|e]; [|injection Hrun as <- <-; auto].
    cbv zeta in Hrun. destruct (negb _ && negb _).
    + destruct (keystone_id (role rwo) st) as [[kid|e] st1] eqn:Ek.
      * apply IH in Hrun. apply keystone_id_frame in Ek. simpl in Hrun.
        destruct Hrun, Ek as (? & ? & ?). split; congruence.
      * injection Hrun as <- <-. apply keystone_id_frame in Ek. tauto.
    + apply IH in Hrun. exact Hrun.
Qed.

(** Two runs over the same document leave similar role records. *)
Lemma create_roles_sim cfg time1 time2 fresh1 fresh2 doc :
  forall n roles (st1 st2 : state B) st1' st2',
    Forall2 record_sim (roles_operations (db st1)) (roles_operations (db st2)) ->
    create_roles cfg time1 fresh1 n doc roles st1 = (Ok tt, st1') ->
    create_roles cfg time2 fresh2 n doc roles st2 = (Ok tt, st2') ->
    Forall2 record_sim (roles_operations (db st1')) (roles_operations (db st2')).
Proof.
  induction doc as [|rwo doc IH]; intros n roles st1 st2 st1' st2' Hs H1 H2.
  - injection H1 as <-. injection H2 as <-. exact Hs.
  - rewrite create_roles_cons in H1, H2.
    destruct (mem_string (role rwo) roles); [eapply IH; eassumption|].
    destruct (operations rwo) as [|o ops]; [eapply IH; eassumption|].
    destruct (role_operations (o :: ops) [] None) as [ro|e]; [|discriminate].
    cbv zeta in H1, H2. destruct (negb _ && negb _).
    + destruct (keystone_id (role rwo) st1) as [[kid1|e1] s1] eqn:Ek1; [|discriminate].
      destruct (keystone_id (role rwo) st2) as [[kid2|e2] s2] eqn:Ek2; [|discriminate].
      apply keystone_id_frame in Ek1 as (_ & _ & Hd1).
      apply keystone_id_frame in Ek2 as (_ & _ & Hd2).
      eapply IH; [|exact H1|exact H2]. cbn [db set_db].
      apply create_role_record_sim.
      * apply record_sim_set_id, role_item_sim.
      * rewrite Hd1, Hd2. exact Hs.
    + eapply IH; [|exact H1|exact H2]. cbn [db set_db].
      apply create_role_record_sim; [apply role_item_sim|exact Hs].
Qed.
(** [init_db] step by step. *)
Lemma init_db_eq cfg time fresh_id resources roles st :
  init_db cfg time fresh_id resources roles st
  = if String.eqb (authentication_backend cfg) "internal" then (Ok tt, st)
    else
      let lr := load_resources resources [] (resources_to_operations_mapping st) in
      let st0 := set_mapping (snd lr) st in
      match (if (length (roles_operations (db st)) =? 0)%nat
             then create_roles cfg time fresh_id 0 roles [] st0
             else (Ok tt, st0)) with
      | (Err e, st1) => (Err e, st1)
      | (Ok _, st1) =>
          match build_permissions (fst lr) (roles_operations (db st1)) with
          | Err e => (Err e, st1)
          | Ok permissions =>
              invoke (Assign_role_to_user "admin" "admin" "system_admin")
                (fun b => assign_role_to_user b "admin" "admin" "system_admin")
                (set_index (store_permissions permissions (operation_to_allowed_roles st1)) st1)
          end
      end.
Proof.
  unfold init_db.
  destruct (String.eqb (authentication_backend cfg) "internal") eqn:Ei; [reflexivity|].
  unfold bind at 1, gets at 1.
  destruct (load_resources resources [] (resources_to_operations_mapping st)) as [ops mapping].
  cbv zeta. cbn [fst snd].
  unfold bind at 1, modify at 1. unfold bind at 1, gets at 1. cbn [db set_mapping].
  unfold bind at 1.
  destruct (length (roles_operations (db st)) =? 0)%nat.
  - destruct (create_roles cfg time fresh_id 0 roles [] (set_mapping mapping st))
      as [[u|e] st1]; [|reflexivity].
    unfold bind at 1, gets at 1. unfold bind at 1, lift at 1.
    destruct (build_permissions ops (roles_operations (db st1))) as [permissions|e];
      [|reflexivity].
    unfold bind at 1, modify at 1. cbn [negb]. reflexivity.
  - unfold ret at 1.
    unfold bind at 1, gets at 1. unfold bind at 1, lift at 1. cbn [db set_mapping].
    destruct (build_permissions ops (roles_operations (db st))) as [permissions|e];
      [|reflexivity].
    unfold bind at 1, modify at 1. cbn [negb]. reflexivity.
Qed.


End WithBackend.
End InitDbFacts.

(** ** URL resolution on resource maps without greedy placeholders *)

Module UrlFacts.
Import Url UrlSpec.

Lemma plain_key_url k : plain_key k -> exists u, key_url k = Ok u /\ ~ In artifactPath (Py.split "/" u).
Proof.
  intros (m & u & rest & Hw & Hg & _). exists u. unfold key_url, Py.nth_item.
  rewrite Hw. auto.
Qed.

Lemma plain_key_method k : plain_key k -> exists m, key_method k = Ok m.
Proof.
  intros (m & u & rest & Hw & _). exists m. unfold key_method, Py.nth_item.
  rewrite Hw. reflexivity.
Qed.

Lemma filter_by_method_filter method keys :
  Forall plain_key keys ->
  filter_by_method method keys = Ok (List.filter (method_ok method) keys).
Proof.
  induction 1 as [|k keys Hk _ IH]; simpl; [reflexivity|].
  unfold method_ok at 1. destruct (plain_key_method k Hk) as [m ->]. simpl.
  rewrite IH. simpl. destruct (Py.contains method m); reflexivity.
Qed.

Lemma survives_Ok n idx p k : plain_key k -> survives n idx p k = Ok (alive n idx p k).
Proof.
  intros Hk. unfold alive. destruct (plain_key_url k Hk) as (u & Hu & _).
  unfold survives. rewrite Hu. simpl.
  destruct (nth_error _ idx) as [seg|]; [|reflexivity].
  destruct (is_placeholder seg).
  - destruct (String.eqb seg artifactPath); [reflexivity|].
    destruct (_ && _); reflexivity.
  - destruct (String.eqb seg p); [|reflexivity].
    destruct (_ && _); reflexivity.
Qed.

Lemma scan_step_filter n idx p keys :
  Forall plain_key keys ->
  scan_step n idx p keys = Ok (List.filter (alive n idx p) keys).
Proof.
  induction 1 as [|k keys Hk _ IH]; simpl; [reflexivity|].
  rewrite (survives_Ok n idx p k Hk). simpl. rewrite IH. simpl.
  destruct (alive n idx p k); reflexivity.
Qed.

Lemma stops_plain keys : Forall plain_key keys -> stops keys = false.
Proof.
  destruct 1 as [|k keys Hk Hrest]; [reflexivity|].
  destruct Hrest; [|reflexivity]. simpl.
  destruct Hk as (m & u & rest & _ & _ & Hlast).
  destruct (last (Py.split "/" k)) as [seg|]; [|reflexivity].
  destruct (String.eqb_spec seg artifactPath); [congruence|reflexivity].
Qed.

Lemma Forall_filter_plain (f : string -> bool) keys :
  Forall plain_key keys -> Forall plain_key (List.filter f keys).
Proof.
  induction 1 as [|k keys Hk _ IH]; simpl; [constructor|].
  destruct (f k); [constructor|]; assumption.
Qed.

Lemma row_cons n idx p rest k :
  plain_key k -> row n idx (p :: rest) k = alive n idx p k && row n (S idx) rest k.
Proof.
  intros Hk. unfold row, alive, survives.
  destruct (plain_key_url k Hk) as (u & -> & Hg). simpl.
  destruct (nth_error (Py.split "/" u) idx) as [seg|] eqn:En; [|reflexivity].
  assert (Hseg : String.eqb seg artifactPath = false).
  { apply String.eqb_neq. intros ->. apply Hg. eapply nth_error_In, En. }
  rewrite Hseg.
  destruct (is_placeholder seg).
  - destruct (_ && _); reflexivity.
  - destruct (String.eqb seg p); [|reflexivity].
    destruct (_ && _); reflexivity.
Qed.

Lemma filter_filter_and {A} (f g : A -> bool) l :
  List.filter g (List.filter f l) = List.filter (fun x => f x && g x) l.
Proof.
  induction l as [|x l IH]; simpl; [reflexivity|].
  destruct (f x); simpl; [destruct (g x)|]; rewrite IH; reflexivity.
Qed.

Lemma filter_ext_Forall {A} (P : A -> Prop) (f g : A -> bool) l :
  Forall P l -> (forall x, P x -> f x = g x) -> List.filter f l = List.filter g l.
Proof.
  induction 1 as [|x l Hx _ IH]; intros Hfg; simpl; [reflexivity|].
  rewrite (Hfg x Hx), IH by exact Hfg. reflexivity.
Qed.

Lemma scan_filter n parts : forall idx keys,
  Forall plain_key keys ->
  scan n idx parts keys = Ok (List.filter (row n idx parts) keys).
Proof.
  induction parts as [|p rest IH]; intros idx keys Hk; simpl.
  - f_equal. symmetry. induction Hk as [|k keys Hk0 _ IHk]; simpl; [reflexivity|].
    unfold row at 1. destruct (plain_key_url k Hk0) as (u & -> & _). simpl. f_equal. exact IHk.
  - rewrite (scan_step_filter n idx p keys Hk). simpl.
    rewrite stops_plain by (apply Forall_filter_plain, Hk).
    rewrite IH by (apply Forall_filter_plain, Hk).
    f_equal. rewrite filter_filter_and.
    apply (filter_ext_Forall plain_key); [exact Hk|].
    intros k Hk0. symmetry. apply row_cons, Hk0.
Qed.

Lemma matching_scan mapping method url :
  Forall plain_key (dict_keys mapping) ->
  let parts := Py.split "/" (strip_query url) in
  List.filter (row (length parts) 0 parts) (List.filter (method_ok method) (dict_keys mapping))
  = matching mapping method url.
Proof.
  intros Hk parts. rewrite filter_filter_and. unfold matching.
  apply (filter_ext_Forall plain_key); [exact Hk|].
  intros k (m & u & rest & Hw & _).
  unfold method_ok, row, entry_matches, key_method, key_url, Py.nth_item.
  rewrite Hw. reflexivity.
Qed.

(** A plain template that matches has as many segments as the request. *)
Lemma template_matches_length n template : forall parts idx,
  ~ In artifactPath template ->
  parts <> [] ->
  (idx + length parts = n)%nat ->
  template_matches n template idx parts = true ->
  length template = n.
Proof.
  induction parts as [|p rest IH]; intros idx Hg Hne Hlen Hm; [contradiction|].
  simpl in Hm, Hlen.
  destruct (nth_error template idx) as [seg|] eqn:En; [|discriminate].
  assert (Hseg : String.eqb seg artifactPath = false).
  { apply String.eqb_neq. intros ->. apply Hg. eapply nth_error_In, En. }
  rewrite Hseg in Hm.
  assert (Hstep : (if (idx =? n - 1)%nat && negb (n =? length template)%nat then false
                   else template_matches n template (S idx) rest) = true).
  { destruct (is_placeholder seg); [exact Hm|].
    destruct (String.eqb seg p); [exact Hm|discriminate]. }
  destruct rest as [|p' rest'].
  - simpl in Hlen.
    destruct (Nat.eqb_spec idx (n - 1)) as [_|Hx]; [|lia]. simpl in Hstep.
    destruct (Nat.eqb_spec n (length template)); [auto|discriminate].
  - destruct ((idx =? n - 1)%nat && negb (n =? length template)%nat); [discriminate|].
    apply (IH (S idx)); [exact Hg|discriminate|simpl in *; lia|exact Hstep].
Qed.

Lemma extract_Ok segs : forall tparts idx acc,
  (idx + length tparts <= length segs)%nat ->
  exists ps, extract segs idx tparts acc = Ok ps.
Proof.
  induction tparts as [|t tparts IH]; intros idx acc Hlen; simpl; [eauto|].
  simpl in Hlen.
  destruct (is_placeholder t); [|apply IH; lia].
  destruct (String.eqb t artifactPath); [apply IH; lia|].
  unfold Py.nth_item. destruct (nth_error segs idx) as [v|] eqn:En.
  - simpl. apply IH. lia.
  - apply nth_error_None in En. lia.
Qed.

Lemma split_nonempty c s : Py.split c s <> [].
Proof.
  destruct s as [|a s]; simpl; [discriminate|].
  destruct (Ascii.eqb a c); [discriminate|]. destruct (Py.split c s); discriminate.
Qed.

(** On a resource map without greedy placeholders resolution succeeds
    exactly when one entry matches, and fails otherwise. *)
Lemma resolver_agrees_on_plain_maps mapping url method :
  Forall plain_key (dict_keys mapping) ->
  match matching mapping method url with
  | [] => _normalize_url mapping url method = Err (not_found url)
  | [key] => exists parameters, _normalize_url mapping url method = Ok (key, parameters)
  | _ => _normalize_url mapping url method = Err (multiple_found url)
  end.
Proof.
  intros Hk. unfold _normalize_url.
  rewrite (filter_by_method_filter method _ Hk). simpl.
  rewrite scan_filter by (apply Forall_filter_plain, Hk). simpl.
  rewrite (matching_scan mapping method url Hk).
  destruct (matching mapping method url) as [|key [|key' more]] eqn:Em; try reflexivity.
  assert (Hin : In key (matching mapping method url)) by (rewrite Em; left; reflexivity).
  unfold matching in Hin. apply filter_In in Hin as [Hin Hmatch].
  rewrite Forall_forall in Hk. 
  destruct (Hk key) as (m & u & rest & Hw & Hg & _).
  { apply list_elem_of_In, Hin. }
  unfold entry_matches in Hmatch. rewrite Hw in Hmatch.
  apply andb_true_iff in Hmatch as [_ Hmatch].
  apply template_matches_length in Hmatch; [|exact Hg|apply split_nonempty|reflexivity].
  unfold key_url, Py.nth_item. rewrite Hw. simpl.
  destruct (extract_Ok (Py.split "/" (strip_query url)) (Py.split "/" u) 0 []) as [ps Hps];
    [simpl; lia|].
  rewrite Hps. simpl. eauto.
Qed.

End UrlFacts.

(** ** Issuing and revoking tokens in internal mode *)

Module IssueFacts.
Import Authenticator TokenSteps TokenFacts FacadeFacts TokenApi Issue.

Section WithBackend.
Context {B : Type} `{Authconn B}.
Implicit Types (st : state B) (cfg : config).

Lemma credentials_user_state sha sess i st r st' :
  credentials_user sha sess i st = (r, st') -> st' = st.
Proof.
  unfold credentials_user, bind, gets, ret, raise.
  destruct (Py.truthy (in_username i)).
  - destruct (Db.users_by_name _ _) as [|u us].
    + intros [= _ <-]. reflexivity.
    + destruct (String.eqb _ _); intros [= _ <-]; reflexivity.
  - destruct sess as [s|]; [|intros [= _ <-]; reflexivity].
    destruct (Db.users_by_name _ _); intros [= _ <-]; reflexivity.
Qed.

Lemma get_project_state idf p st r st' :
  get_project idf p st = (r, st') -> st' = st.
Proof. unfold get_project. intros [= _ <-]. reflexivity. Qed.

Lemma scoped_project_state idf u i st r st' :
  scoped_project idf u i st = (r, st') -> st' = st.
Proof.
  unfold scoped_project.
  destruct (Py.truthy (in_project_id i)).
  - cbv zeta. destruct (negb _).
    + unfold bind. destruct (get_project idf _ st) as [[p|e] st1] eqn:E;
        apply get_project_state in E; subst st1.
      * unfold raise, ret. destruct (_ && _); intros [= _ <-]; reflexivity.
      * intros [= _ <-]. reflexivity.
    + unfold ret. intros [= _ <-]. reflexivity.
  - unfold lift. intros [= _ <-]. reflexivity.
Qed.

(** A successful issuance, step by step. *)
Lemma _internal_new_token_Ok sha idf now token_id sess i r st s st' :
  _internal_new_token sha idf now token_id sess i r st = (Ok s, st') ->
  s__id s = token_id /\ s_id s = token_id /\
  issued_at s = now /\ expires s = now + 3600 /\
  (exists u, credentials_user sha sess i st = (Ok u, st) /\ username s = Some (u_username u)) /\
  _internal_tokens_prune now (Some now) (issued s st) = (Ok tt, st').
Proof.
  intros Hrun. unfold _internal_new_token in Hrun.
  inv_bind Hrun as u st1 H1. pose proof (credentials_user_state _ _ _ _ _ _ H1) as ->.
  inv_bind Hrun as p st2 H2. pose proof (scoped_project_state _ _ _ _ _ _ H2) as ->.
  inv_bind Hrun as a st3 H3.
  assert (st3 = st) as ->.
  { destruct (String.eqb p "admin"); [unfold ret in H3; congruence|].
    inv_bind H3 as pr st4 H4. apply get_project_state in H4. unfold ret in H3. congruence. }
  inv_bind Hrun as x4 st4 H4. inv_bind Hrun as x5 st5 H5. inv_bind Hrun as x6 st6 H6.
  unfold ret in Hrun. injection Hrun as <- <-.
  unfold modify in H4, H5. injection H4 as _ <-. injection H5 as _ <-.
  cbn [s__id s_id issued_at expires username].
  repeat (split; [reflexivity|]). split; [eauto|].
  destruct x6. exact H6.
Qed.

Lemma filter_nil_filter {A} (f g : A -> bool) l :
  List.filter f l = [] -> List.filter f (List.filter g l) = [].
Proof.
  induction l as [|x l IH]; simpl; [reflexivity|].
  destruct (f x) eqn:Ef; [discriminate|]. intros Hl.
  destruct (g x); simpl; [rewrite Ef|]; auto.
Qed.

Lemma tokens_by_id_issued now (s : session) d :
  Db.tokens_by_id (s__id s) d = [] ->
  ~ expires s < now ->
  Db.tokens_by_id (s__id s) (Db.del_expired now (Db.create_token s d)) = [s].
Proof.
  intros Hfresh Hlive. unfold Db.tokens_by_id in *. simpl.
  rewrite !List.filter_app. simpl.
  destruct (Z.ltb_spec (expires s) now); [lia|]. simpl.
  rewrite String.eqb_refl. rewrite filter_nil_filter by exact Hfresh. reflexivity.
Qed.

Lemma prune_after_issue now s st st' :
  _internal_tokens_prune now (Some now) (issued s st) = (Ok tt, st') ->
  st' = issued s st \/ st' = pruned now (issued s st).
Proof.
  rewrite _internal_tokens_prune_eq. cbv zeta.
  replace (if now =? 0 then now else now) with now by (destruct (now =? 0); reflexivity).
  destruct (_ || _); intros [= <-]; auto.
Qed.

(** Tokens the store does not know. *)
Lemma unknown_token_invalid cfg now token_id st :
  token_id <> "" ->
  (forall c, tokens_cache st !! token_id = Some c -> expires c < now) ->
  Db.tokens_by_id token_id (db st) = [] ->
  _internal_authorize cfg now (Some token_id) st = (Err invalid_token, evicted token_id st).
Proof.
  intros Hne Hc Hrows. rewrite _internal_authorize_eq by exact Hne.
  assert (Hfs : forall st0, db st0 = db st -> from_store cfg now token_id st0 = (Err invalid_token, st0)).
  { intros st0 Hd. unfold from_store. rewrite Hd, Hrows. reflexivity. }
  destruct (tokens_cache st !! token_id) as [c|] eqn:Ec.
  - specialize (Hc c eq_refl). destruct (Z.ltb_spec (expires c) now); [|lia].
    apply Hfs, evicted_db.
  - unfold evicted. rewrite Ec. apply Hfs. reflexivity.
Qed.

Lemma remove_first_None token_id l :
  List.filter (fun s => String.eqb (s__id s) token_id) l = [] ->
  Db.remove_first token_id l = None.
Proof.
  induction l as [|s l IH]; simpl; [reflexivity|].
  destruct (String.eqb (s__id s) token_id); [discriminate|].
  intros Hl. rewrite IH by exact Hl. reflexivity.
Qed.

Lemma remove_first_single token_id l s :
  List.filter (fun s => String.eqb (s__id s) token_id) l = [s] ->
  exists l', Db.remove_first token_id l = Some l' /\
    List.filter (fun s => String.eqb (s__id s) token_id) l' = [] /\
    (forall t, In t l' <-> In t l /\ s__id t <> token_id).
Proof.
  induction l as [|x l IH]; simpl; [discriminate|].
  destruct (String.eqb_spec (s__id x) token_id) as [Hx|Hx].
  - intros [= -> Hl]. exists l. split; [reflexivity|]. split; [exact Hl|].
    intros t. split.
    + intros Ht. split; [auto|]. intros Hid.
      assert (Hin : In t (List.filter (fun s => String.eqb (s__id s) token_id) l)).
      { apply filter_In. split; [exact Ht|]. apply String.eqb_eq, Hid. }
      rewrite Hl in Hin. destruct Hin.
    + intros [[<-|Ht] Hid]; [contradiction|exact Ht].
  - intros Hl. destruct (IH Hl) as (l' & -> & Hnil & Hiff).
    exists (x :: l'). split; [reflexivity|]. simpl.
    destruct (String.eqb_spec (s__id x) token_id); [contradiction|].
    split; [exact Hnil|]. intros t. rewrite Hiff. split.
    + intros [<-|[Ht Hid]]; auto.
    + intros [[<-|Ht] Hid]; auto.
Qed.

End WithBackend.
End IssueFacts.

(** ** More on the facade *)

Module FacadeMore.
Import Authenticator TokenSteps TokenFacts FacadeFacts TokenApi.

Section WithBackend.
Context {B : Type} `{Authconn B}.
Implicit Types (st : state B) (cfg : config).

Lemma authorize_try_Err_eq cfg now req st m c st1 :
  authorize_try cfg now req st = (Err (AuthException m c), st1) ->
  authorize cfg now req st
  = (Err (AuthException m UNAUTHORIZED),
     set_http (if Py.truthy (session_authorization st1) then None
               else session_authorization st1)
       (Some ("Bearer realm=" +:+ dquote +:+ m +:+ dquote)) st1).
Proof. intros Htry. unfold authorize, catch. rewrite Htry. reflexivity. Qed.

Lemma check_permissions_cache (s : session) url method st r st' :
  check_permissions s url method st = (r, st') -> tokens_cache st' = tokens_cache st.
Proof.
  intros Hcheck. apply (f_equal snd) in Hcheck. cbn [snd] in Hcheck. subst st'.
  unfold check_permissions, bind, gets, lift, invoke.
  destruct (Url._normalize_url _ _ _) as [kp|e]; [|reflexivity].
  destruct (dict_item _ _) as [op|e]; [|reflexivity].
  destruct (dict_item op _) as [rr|e]; [|reflexivity].
  destruct (get_user_role_list _ _) as [[ra|e] b3]; [|reflexivity].
  destruct (role_in "anonymous" rr); [reflexivity|].
  destruct ra as [roles|]; [|reflexivity].
  destruct (existsb _ roles); reflexivity.
Qed.

End WithBackend.
End FacadeMore.

(** ** More on the catalog build *)

Module CatalogMore.
Import Catalog Policy CatalogFacts InitDb InitDbFacts Similar CatalogSpec.

Lemma NoDup_snoc {A} (l : list A) (x : A) :
  List.NoDup l -> ~ In x l -> List.NoDup (l ++ [x]).
Proof.
  induction 1 as [|y l Hy Hl IH]; intros Hx; simpl.
  - constructor; [intros []|constructor].
  - constructor.
    + intros Hin. apply in_app_iff in Hin as [Hin|[<-|[]]]; [contradiction|].
      apply Hx. left. reflexivity.
    + apply IH. intros Hin. apply Hx. right. exact Hin.
Qed.

Section DictMore.
Context {V : Type}.
Implicit Types (d : dict V) (k : string) (v : V).

Lemma dict_set_absent k v d : dict_get k d = None -> dict_set k v d = (d ++ [(k, v)])%list.
Proof.
  induction d as [|[k' v'] d IH]; simpl; [reflexivity|].
  destruct (String.eqb k' k); [discriminate|]. intros Hd. rewrite IH by exact Hd. reflexivity.
Qed.

Lemma dict_set_same k v d : dict_get k d = Some v -> dict_set k v d = d.
Proof.
  induction d as [|[k' v'] d IH]; simpl; [discriminate|].
  destruct (String.eqb k' k); [intros [= ->]; reflexivity|].
  intros Hd. rewrite IH by exact Hd. reflexivity.
Qed.

Lemma dict_keys_set k v d :
  dict_keys (dict_set k v d)
  = match dict_get k d with
    | Some _ => dict_keys d
    | None => (dict_keys d ++ [k])%list
    end.
Proof.
  destruct (dict_get k d) as [w|] eqn:E.
  - apply dict_keys_set_present. eapply dict_get_Some_key, E.
  - rewrite (dict_set_absent k v d E). unfold dict_keys. rewrite map_app. reflexivity.
Qed.

Lemma dict_set_NoDup k v d : List.NoDup (dict_keys d) -> List.NoDup (dict_keys (dict_set k v d)).
Proof.
  intros Hnd. rewrite dict_keys_set. destruct (dict_get k d) eqn:E; [exact Hnd|].
  apply dict_get_None in E. apply NoDup_snoc; assumption.
Qed.
End DictMore.

(** *** The role map *)

Lemma single_colon (k : string) :
  String.length k = 1%nat -> ends_with_colon k = true -> k = ":".
Proof.
  destruct k as [|a [|b k]]; simpl; try discriminate.
  unfold ends_with_colon. simpl. intros _ Ha. apply Ascii.eqb_eq in Ha. subst. reflexivity.
Qed.

Lemma kept_cons ops x kv : kept ops kv -> kept (x :: ops) kv.
Proof. intros (H1 & H2 & H3 & b & H4 & H5). repeat split; auto. exists b. simpl. auto. Qed.

Lemma role_operations_inv ops : forall acc r0 role_ops root,
  role_operations ops acc r0 = Ok (role_ops, root) ->
  (List.NoDup (dict_keys acc) -> List.NoDup (dict_keys role_ops)) /\
  (forall kv, In kv role_ops -> In kv acc \/ kept ops kv) /\
  (root = r0 \/ exists b, root = Some b /\ In (":", YBool b) ops).
Proof.
  induction ops as [|[k y] ops IH]; intros acc r0 role_ops root Hrun; simpl in Hrun.
  - injection Hrun as <- <-. auto.
  - assert (Hweak : forall acc' r',
              role_operations ops acc' r' = Ok (role_ops, root) ->
              (List.NoDup (dict_keys acc') -> List.NoDup (dict_keys role_ops)) /\
              (forall kv, In kv role_ops -> In kv acc' \/ kept ((k, y) :: ops) kv) /\
              (root = r' \/ exists b, root = Some b /\ In (":", YBool b) ((k, y) :: ops))).
    { intros acc' r' Hrun'. destruct (IH _ _ _ _ Hrun') as (Hnd & Hin & Hroot).
      split; [exact Hnd|]. split.
      - intros kv Hkv. destruct (Hin kv Hkv); auto using kept_cons.
      - destruct Hroot as [->|(b & -> & Hb)]; [auto|]. right. exists b. simpl. auto. }
    destruct y as [b| | |]; try (apply Hweak, Hrun).
    destruct (String.eqb_spec k ":") as [->|Hk].
    { destruct (Hweak _ _ Hrun) as (Hnd & Hin & Hroot). split; [exact Hnd|].
      split; [exact Hin|]. right.
      destruct Hroot as [->|(b' & -> & Hb)]; [exists b; simpl; auto|exists b'; auto]. }
    unfold Py.last_item in Hrun.
    destruct (last (list_ascii_of_string k)) as [c|] eqn:El; [|discriminate].
    simpl in Hrun.
    destruct (negb (String.length k =? 1)%nat && Ascii.eqb c ":") eqn:Ec;
      [apply Hweak, Hrun|].
    destruct (Hweak _ _ Hrun) as (Hnd & Hin & Hroot).
    assert (Hgood : kept ((k, YBool b) :: ops) (k, VBool b)).
    { unfold kept. simpl. split.
      { intros ->. discriminate. }
      split; [exact Hk|]. split.
      - unfold ends_with_colon. rewrite El.
        destruct (Ascii.eqb c ":") eqn:Ecc; [|reflexivity].
        rewrite andb_true_r in Ec. apply negb_false_iff, Nat.eqb_eq in Ec.
        exfalso. apply Hk. apply single_colon; [exact Ec|].
        unfold ends_with_colon. rewrite El. exact Ecc.
      - exists b. auto. }
    destruct (dict_get k acc) as [w|] eqn:Eg.
    + split; [exact Hnd|]. split; [exact Hin|exact Hroot].
    + split; [intros Hacc; apply Hnd, dict_set_NoDup, Hacc|]. split; [|exact Hroot].
      intros kv Hkv. destruct (Hin kv Hkv) as [Hold|Hnew]; [|auto].
      rewrite (dict_set_absent k (VBool b) acc Eg) in Hold.
      apply in_app_iff in Hold as [Hold|[<-|[]]]; auto.
Qed.

(** *** The resource map *)

Lemma load_resources_inv doc : forall ops0 m0 ops mapping,
  load_resources doc ops0 m0 = (ops, mapping) ->
  (List.NoDup ops0 -> List.NoDup ops) /\
  (forall op, In op ops <-> In op ops0 \/ exists res, In (res, op) doc) /\
  (List.NoDup (dict_keys doc) ->
   forall res, dict_get res mapping
               = match dict_get res doc with Some op => Some op | None => dict_get res m0 end).
Proof.
  induction doc as [|[res op] doc IH]; intros ops0 m0 ops mapping Hrun; simpl in Hrun.
  - injection Hrun as <- <-. split; [auto|]. split; [|reflexivity].
    intros op. split; [auto|]. intros [|[res []]]; auto.
  - destruct (IH _ _ _ _ Hrun) as (Hnd & Hops & Hmap). split; [|split].
    + intros Hnd0. apply Hnd. destruct (mem_string op ops0) eqn:Em; [exact Hnd0|].
      apply NoDup_snoc; [exact Hnd0|]. intros Hx. apply mem_string_In in Hx. congruence.
    + intros o. rewrite Hops. split.
      * intros [Ho|(r & Hr)]; [|right; exists r; simpl; auto].
        destruct (mem_string op ops0) eqn:Em; [auto|].
        apply in_app_iff in Ho as [Ho|[<-|[]]]; [auto|]. right. exists res. simpl. auto.
      * intros [Ho|(r & [[= <- <-]|Hr])].
        -- left. destruct (mem_string op ops0); [exact Ho|]. apply in_app_iff. auto.
        -- left. destruct (mem_string op ops0) eqn:Em; [apply mem_string_In, Em|].
           apply in_app_iff. right. left. reflexivity.
        -- right. eauto.
    + intros Hdoc res0. simpl in Hdoc. apply NoDup_cons_iff in Hdoc as [Hres Hdoc].
      rewrite (Hmap Hdoc res0). simpl. rewrite dict_get_set.
      destruct (String.eqb_spec res res0) as [->|Hne]; [|reflexivity].
      apply dict_get_None in Hres. rewrite Hres. reflexivity.
Qed.

(** *** The reverse index *)

Lemma fold_set_keys {V} (v : V) (ops : list string) : forall (acc : dict V),
  List.NoDup ops -> (forall o, In o ops -> ~ In o (dict_keys acc)) ->
  dict_keys (fold_left (fun d o => dict_set o v d) ops acc) = (dict_keys acc ++ ops)%list.
Proof.
  induction ops as [|o ops IH]; intros acc Hnd Hfresh; simpl; [symmetry; apply app_nil_r|].
  apply NoDup_cons_iff in Hnd as [Ho Hnd].
  assert (Hget : dict_get o acc = None) by (apply dict_get_None, Hfresh; left; reflexivity).
  rewrite IH; [|exact Hnd|].
  - rewrite dict_keys_set, Hget, <- app_assoc. reflexivity.
  - intros o' Ho'. rewrite dict_keys_set, Hget. intros Hin.
    apply in_app_iff in Hin as [Hin|[<-|[]]]; [|contradiction].
    apply (Hfresh o'); [right; exact Ho'|exact Hin].
Qed.

Lemma fold_apply_override_keys l : forall rp,
  dict_keys (fold_left apply_override l rp) = dict_keys rp.
Proof.
  induction l as [|e l IH]; intros rp; simpl; [reflexivity|].
  rewrite IH. apply apply_override_keys.
Qed.

(** The table of one record: its keys are the operations, its entries the
    effective permissions. *)
Lemma record_permissions_table ops record rp :
  List.NoDup ops ->
  record_permissions ops record = Ok rp ->
  dict_keys rp = ops /\
  forall op, In op ops ->
    exists root, dict_get "root" record = Some root /\
      dict_get op rp = Some (effective op root (operations_joined record)).
Proof.
  intros Hnd Hrun. destruct ops as [|o ops].
  - unfold record_permissions in Hrun. simpl in Hrun. injection Hrun as <-.
    split; [apply fold_apply_override_keys|]. intros op [].
  - destruct (dict_get "root" record) as [root|] eqn:Eroot.
    + split.
      * unfold record_permissions in Hrun.
        rewrite (root_permissions_Ok _ _ _ _ Eroot) in Hrun. simpl in Hrun.
        injection Hrun as <-. rewrite fold_apply_override_keys.
        change (dict_keys (fold_left (fun d oper => dict_set oper root d) (o :: ops) [])
                = (o :: ops)).
        rewrite fold_set_keys; [reflexivity|exact Hnd|intros ? _ []].
      * intros op Hop. exists root. split; [reflexivity|].
        destruct (record_permissions_get (o :: ops) record root op Eroot Hop)
          as (rp' & Hrp' & Hget).
        congruence.
    + unfold record_permissions in Hrun. simpl in Hrun. unfold dict_item in Hrun.
      rewrite Eroot in Hrun. discriminate.
Qed.

Lemma NoDup_map_fst_filter {A C} (f : A * C -> bool) (l : list (A * C)) :
  List.NoDup (map fst l) -> List.NoDup (map fst (List.filter f l)).
Proof.
  induction l as [|x l IH]; simpl; [auto|]. intros Hnd.
  apply NoDup_cons_iff in Hnd as [Hx Hnd].
  destruct (f x); simpl; [|auto]. constructor; [|auto].
  intros Hin. apply Hx. apply in_map_iff in Hin as (y & Hy & Hin).
  apply filter_In in Hin as [Hin _]. apply in_map_iff. eauto.
Qed.

Lemma allowed_operations_In rp op :
  List.NoDup (dict_keys rp) ->
  In op (allowed_operations rp) <-> exists v, dict_get op rp = Some v /\ is_True v = true.
Proof.
  intros Hnd. unfold allowed_operations. rewrite in_map_iff. split.
  - intros ([k v] & <- & Hin). apply filter_In in Hin as [Hin Ht].
    exists v. split; [apply In_dict_get; assumption|exact Ht].
  - intros (v & Hget & Ht). exists (op, v). split; [reflexivity|].
    apply filter_In. split; [apply dict_get_In, Hget|exact Ht].
Qed.

Lemma append_role_name record a rest perms perms' :
  append_role record (a :: rest) perms = Ok perms' -> is_Some (dict_get "name" record).
Proof.
  simpl. destruct (dict_item a perms); [|discriminate]. simpl. unfold dict_item.
  destruct (dict_get "name" record); [eauto|discriminate].
Qed.

Lemma append_role_get record name allowed :
  dict_get "name" record = Some name ->
  forall perms perms',
    List.NoDup allowed ->
    append_role record allowed perms = Ok perms' ->
    dict_keys perms' = dict_keys perms /\
    forall op, dict_get op perms'
               = if mem_string op allowed
                 then option_map (fun l => (l ++ [name])%list) (dict_get op perms)
                 else dict_get op perms.
Proof.
  intros Hname. induction allowed as [|a allowed IH]; intros perms perms' Hnd Hrun.
  - simpl in Hrun. injection Hrun as <-. auto.
  - cbn [append_role] in Hrun. unfold dict_item in Hrun. rewrite Hname in Hrun.
    destruct (dict_get a perms) as [l|] eqn:Ea; simpl in Hrun; [|discriminate Hrun].
    apply NoDup_cons_iff in Hnd as [Ha Hnd].
    destruct (IH _ _ Hnd Hrun) as (Hkeys & Hget). split.
    + rewrite Hkeys. apply dict_keys_set_present. eapply dict_get_Some_key, Ea.
    + intros op. rewrite Hget, dict_get_set. unfold mem_string. simpl.
      rewrite (String.eqb_sym op a).
      destruct (String.eqb_spec a op) as [->|Hne]; simpl.
      * fold (mem_string op allowed).
        destruct (mem_string op allowed) eqn:Em;
          [apply mem_string_In in Em; contradiction|].
        rewrite Ea. reflexivity.
      * reflexivity.
Qed.

(** One record adds its contribution to every entry. *)
Lemma add_record_step ops record perms rp perms' :
  List.NoDup ops ->
  dict_keys perms = ops ->
  record_permissions ops record = Ok rp ->
  append_role record (allowed_operations rp) perms = Ok perms' ->
  dict_keys perms' = ops /\
  forall op l, In op ops -> dict_get op perms = Some l ->
    dict_get op perms' = Some (l ++ contribution op record)%list.
Proof.
  intros Hnd Hkeys Hrp Happ.
  destruct (record_permissions_table ops record rp Hnd Hrp) as (Hrpk & Hrpg).
  assert (Hndrp : List.NoDup (dict_keys rp)) by (rewrite Hrpk; exact Hnd).
  assert (Hnda : List.NoDup (allowed_operations rp)).
  { unfold allowed_operations. apply NoDup_map_fst_filter, Hndrp. }
  destruct (allowed_operations rp) as [|a rest] eqn:Eall.
  - simpl in Happ. injection Happ as <-. split; [exact Hkeys|].
    intros op l Hop Hl. rewrite Hl. f_equal.
    destruct (Hrpg op Hop) as (root & Hroot & Hget).
    unfold contribution. rewrite Hroot.
    destruct (dict_get "name" record); [|symmetry; apply app_nil_r].
    destruct (is_True (effective op root (operations_joined record))) eqn:Et;
      [|symmetry; apply app_nil_r].
    assert (Hin : In op (allowed_operations rp)).
    { apply allowed_operations_In; [exact Hndrp|]. eauto. }
    rewrite Eall in Hin. destruct Hin.
  - destruct (append_role_name _ _ _ _ _ Happ) as [name Hname].
    destruct (append_role_get record name (a :: rest) Hname perms perms' Hnda Happ)
      as (Hk & Hg).
    split; [congruence|].
    intros op l Hop Hl. rewrite Hg, Hl.
    destruct (Hrpg op Hop) as (root & Hroot & Hget).
    unfold contribution. rewrite Hroot, Hname.
    destruct (mem_string op (a :: rest)) eqn:Em; cbn [option_map].
    + apply mem_string_In in Em. rewrite <- Eall in Em.
      apply allowed_operations_In in Em as (v & Hv & Ht); [|exact Hndrp].
      rewrite Hget in Hv. injection Hv as <-. rewrite Ht. reflexivity.
    + destruct (is_True (effective op root (operations_joined record))) eqn:Et.
      * assert (Hin : In op (allowed_operations rp)).
        { apply allowed_operations_In; [exact Hndrp|]. eauto. }
        rewrite Eall in Hin. apply mem_string_In in Hin. congruence.
      * rewrite app_nil_r. reflexivity.
Qed.

Lemma add_records_get ops records : forall perms perms' (acc : string -> list value),
  List.NoDup ops ->
  dict_keys perms = ops ->
  (forall op, In op ops -> dict_get op perms = Some (acc op)) ->
  add_records ops records perms = Ok perms' ->
  dict_keys perms' = ops /\
  forall op, In op ops ->
    dict_get op perms' = Some (acc op ++ allowed_roles op records)%list.
Proof.
  induction records as [|record records IH]; intros perms perms' acc Hnd Hkeys Hacc Hrun.
  - simpl in Hrun. injection Hrun as <-. split; [exact Hkeys|].
    intros op Hop. rewrite (Hacc op Hop). simpl. rewrite app_nil_r. reflexivity.
  - simpl in Hrun.
    destruct (record_permissions ops record) as [rp|] eqn:Erp; [|discriminate].
    simpl in Hrun.
    destruct (append_role record (allowed_operations rp) perms) as [perms1|] eqn:Eap;
      [|discriminate].
    simpl in Hrun.
    destruct (add_record_step ops record perms rp perms1 Hnd Hkeys Erp Eap) as (Hk1 & Hg1).
    destruct (IH perms1 perms' (fun op => (acc op ++ contribution op record)%list)
                Hnd Hk1) as (Hk & Hg); [|exact Hrun|].
    + intros op Hop. apply Hg1; auto.
    + split; [exact Hk|]. intros op Hop. rewrite (Hg op Hop). simpl.
      rewrite <- app_assoc. reflexivity.
Qed.

(** The table built from the stored records. *)
Lemma index_lists_allowed_roles :
  forall (ops : list string) (records : list (dict value)) (permissions : dict (list value)),
    List.NoDup ops ->
    build_permissions ops records = Ok permissions ->
    dict_keys permissions = ops /\
    forall op, In op ops -> dict_get op permissions = Some (allowed_roles op records).
Proof.
  intros ops records permissions Hnd Hrun. unfold build_permissions in Hrun.
  apply (add_records_get ops records _ _ (fun _ => []) Hnd) in Hrun; [exact Hrun| |].
  - rewrite fold_set_keys; [reflexivity|exact Hnd|intros ? _ []].
  - intros op Hop. rewrite dict_get_set_all.
    apply mem_string_In in Hop. rewrite Hop. reflexivity.
Qed.

(** *** Storing the index, and running [init_db] again *)

Lemma dict_get_store (perms : dict (list value)) : forall index k,
  List.NoDup (dict_keys perms) ->
  dict_get k (store_permissions perms index)
  = match dict_get k perms with Some v => Some v | None => dict_get k index end.
Proof.
  unfold store_permissions.
  induction perms as [|[k0 v0] perms IH]; intros index k Hnd; simpl; [reflexivity|].
  simpl in Hnd. apply NoDup_cons_iff in Hnd as [Hk0 Hnd].
  rewrite (IH _ k Hnd), dict_get_set.
  destruct (String.eqb_spec k0 k) as [->|Hne]; [|reflexivity].
  apply dict_get_None in Hk0. rewrite Hk0. reflexivity.
Qed.

Lemma store_permissions_fixed (perms : dict (list value)) index :
  (forall k v, In (k, v) perms -> dict_get k index = Some v) ->
  store_permissions perms index = index.
Proof.
  unfold store_permissions. induction perms as [|[k v] perms IH]; intros Hall; simpl;
    [reflexivity|].
  rewrite dict_set_same by (apply Hall; left; reflexivity).
  apply IH. intros k' v' Hin. apply Hall. right. exact Hin.
Qed.

Lemma store_permissions_idempotent (perms : dict (list value)) index :
  List.NoDup (dict_keys perms) ->
  store_permissions perms (store_permissions perms index) = store_permissions perms index.
Proof.
  intros Hnd. apply store_permissions_fixed. intros k v Hin.
  rewrite dict_get_store by exact Hnd. rewrite (In_dict_get _ _ _ Hnd Hin). reflexivity.
Qed.

Lemma load_resources_fst doc : forall ops0 m m',
  fst (load_resources doc ops0 m) = fst (load_resources doc ops0 m').
Proof.
  induction doc as [|[res op] doc IH]; intros ops0 m m'; simpl; [reflexivity|]. apply IH.
Qed.

Lemma load_resources_fixed doc : forall ops0 m,
  (forall res op, In (res, op) doc -> dict_get res m = Some op) ->
  snd (load_resources doc ops0 m) = m.
Proof.
  induction doc as [|[res op] doc IH]; intros ops0 m Hall; simpl; [reflexivity|].
  rewrite dict_set_same by (apply Hall; left; reflexivity).
  apply IH. intros res' op' Hin. apply Hall. right. exact Hin.
Qed.

Section WithBackend.
Context {B : Type} `{Authconn B}.
Implicit Types (st : state B) (cfg : config).

(** A successful [init_db], step by step. *)
Lemma init_db_Ok cfg time fresh_id resources roles st st' :
  authentication_backend cfg <> "internal" ->
  init_db cfg time fresh_id resources roles st = (Ok tt, st') ->
  exists ops mapping s1 permissions,
    load_resources resources [] (resources_to_operations_mapping st) = (ops, mapping) /\
    (if (length (roles_operations (db st)) =? 0)%nat
     then create_roles cfg time fresh_id 0 roles [] (set_mapping mapping st)
     else (Ok tt, set_mapping mapping st)) = (Ok tt, s1) /\
    build_permissions ops (roles_operations (db s1)) = Ok permissions /\
    resources_to_operations_mapping st' = mapping /\
    operation_to_allowed_roles st'
      = store_permissions permissions (operation_to_allowed_roles st) /\
    db st' = db s1.
Proof.
  intros Hmode Hrun. rewrite init_db_eq in Hrun.
  destruct (String.eqb_spec (authentication_backend cfg) "internal"); [contradiction|].
  cbv zeta in Hrun.
  destruct (load_resources resources [] (resources_to_operations_mapping st))
    as [ops mapping] eqn:El. cbn [fst snd] in Hrun.
  destruct (if (length (roles_operations (db st)) =? 0)%nat then _ else _)
    as [[[]|e] s1] eqn:Ec; [|discriminate].
  destruct (build_permissions ops (roles_operations (db s1))) as [permissions|e] eqn:Eb;
    [|discriminate].
  unfold invoke in Hrun.
  destruct (assign_role_to_user _ _ _ _) as [r b] in Hrun. injection Hrun as _ <-.
  exists ops, mapping, s1, permissions.
  assert (Hframe : resources_to_operations_mapping s1 = mapping /\
                   operation_to_allowed_roles s1 = operation_to_allowed_roles st).
  { destruct (length (roles_operations (db st)) =? 0)%nat.
    - apply create_roles_frame in Ec. exact Ec.
    - injection Ec as <-. auto. }
  destruct Hframe as [Hm Hi]. cbn. rewrite Hm, Hi. auto 10.
Qed.

End WithBackend.
End CatalogMore.

(** ** More on URL resolution *)

Module UrlMore.
Import Url UrlSpec UrlFacts.

Lemma filter_by_method_In method keys : forall filtered k,
  filter_by_method method keys = Ok filtered ->
  In k filtered ->
  In k keys /\ exists m, key_method k = Ok m /\ Py.contains method m = true.
Proof.
  induction keys as [|key keys IH]; intros filtered k Hrun Hin; simpl in Hrun.
  - injection Hrun as <-. destruct Hin.
  - destruct (key_method key) as [m|] eqn:Em; [|discriminate]. simpl in Hrun.
    destruct (filter_by_method method keys) as [tl|]; [|discriminate]. simpl in Hrun.
    injection Hrun as <-.
    destruct (Py.contains method m) eqn:Ec.
    + destruct Hin as [<-|Hin]; [split; [left; reflexivity|exists m; auto]|].
      destruct (IH tl k eq_refl Hin) as [Hk Hm]. split; [right; exact Hk|exact Hm].
    + destruct (IH tl k eq_refl Hin) as [Hk Hm]. split; [right; exact Hk|exact Hm].
Qed.

Lemma scan_step_In n idx p keys : forall tmp k,
  scan_step n idx p keys = Ok tmp -> In k tmp -> In k keys.
Proof.
  induction keys as [|key keys IH]; intros tmp k Hrun Hin; simpl in Hrun.
  - injection Hrun as <-. destruct Hin.
  - destruct (survives n idx p key) as [b|]; [|discriminate]. simpl in Hrun.
    destruct (scan_step n idx p keys) as [tl|]; [|discriminate]. simpl in Hrun.
    injection Hrun as <-. destruct b.
    + destruct Hin as [<-|Hin]; [left; reflexivity|right; eauto].
    + right. eauto.
Qed.

Lemma scan_In n parts : forall idx keys out k,
  scan n idx parts keys = Ok out -> In k out -> In k keys.
Proof.
  induction parts as [|p parts IH]; intros idx keys out k Hrun Hin; simpl in Hrun.
  - injection Hrun as <-. exact Hin.
  - destruct (scan_step n idx p keys) as [tmp|] eqn:Es; [|discriminate]. simpl in Hrun.
    destruct (stops tmp).
    + injection Hrun as <-. eapply scan_step_In; eassumption.
    + eapply scan_step_In; [exact Es|]. eapply IH; eassumption.
Qed.

(** *** The query string *)

Lemma index_question_append (url q : string) :
  index 0 "?" url = None ->
  index 0 "?" (url +:+ String "?" q) = Some (String.length url).
Proof.
  induction url as [|a url IH]; intros Hnone.
  - change ("" +:+ String "?" q) with (String "?" q). cbn [index String.prefix String.length].
    destruct (ascii_dec "?" "?"); [|contradiction]. destruct q; reflexivity.
  - cbn [index] in Hnone.
    change (String a url +:+ String "?" q) with (String a (url +:+ String "?" q)).
    cbn [index].
    destruct (String.prefix "?" (String a url)) eqn:Ep; [discriminate|].
    assert (Ep' : String.prefix "?" (String a (url +:+ String "?" q)) = false).
    { cbn [String.prefix] in *. destruct (ascii_dec "?" a); [|reflexivity].
      destruct url; discriminate. }
    rewrite Ep'.
    destruct (index 0 "?" url) as [n|]; [discriminate|].
    rewrite IH by reflexivity. reflexivity.
Qed.

Lemma substring_append (url rest : string) :
  substring 0 (String.length url) (url +:+ rest) = url.
Proof.
  induction url as [|a url IH]; simpl.
  - destruct rest; reflexivity.
  - change (String a url +:+ rest) with (String a (url +:+ rest)).
    cbn [append]. f_equal. exact IH.
Qed.

Lemma strip_query_append (url q : string) :
  Py.contains "?" url = false ->
  strip_query (url +:+ String "?" q) = url /\ strip_query url = url.
Proof.
  intros Hc. unfold strip_query, Py.contains, Py.find, Py.take in *.
  destruct (index 0 "?" url) eqn:Ei; [discriminate|]. split; [|reflexivity].
  rewrite (index_question_append url q Ei).
  rewrite Nat2Z.id. apply substring_append.
Qed.

End UrlMore.

(** ** Merging documents *)

Module MergeFacts.
Import Merge MergeSpec CatalogMore.

(** *** Deleting a key *)

Section DictDel.
Context {V : Type}.
Implicit Types (d : dict V) (k m : string) (v : V).

Lemma dict_del_absent k d : dict_get k d = None -> dict_del k d = d.
Proof.
  induction d as [|[k' v'] d IH]; simpl; [reflexivity|].
  destruct (String.eqb k' k); [discriminate|]. intros Hn. f_equal. apply IH, Hn.
Qed.

Lemma dict_get_del_other k m d :
  m <> k -> dict_get m (dict_del k d) = dict_get m d.
Proof.
  intros Hne. induction d as [|[k' v'] d IH]; simpl; [reflexivity|].
  destruct (String.eqb_spec k' k) as [->|Hk'].
  - destruct (String.eqb_spec k m) as [->|_]; [contradiction|reflexivity].
  - simpl. destruct (String.eqb k' m); [reflexivity|apply IH].
Qed.

Lemma dict_del_In k d kv : In kv (dict_del k d) -> In kv d.
Proof.
  induction d as [|[k' v'] d IH]; simpl; [tauto|].
  destruct (String.eqb k' k); simpl; [tauto|]. intros [->|Hx]; auto.
Qed.

Lemma dict_del_keys_incl k d x : In x (dict_keys (dict_del k d)) -> In x (dict_keys d).
Proof.
  unfold dict_keys. rewrite !in_map_iff. intros (kv & Hk & Hin).
  exists kv. split; [exact Hk|]. eapply dict_del_In, Hin.
Qed.

Lemma dict_del_NoDup k d :
  List.NoDup (dict_keys d) -> List.NoDup (dict_keys (dict_del k d)).
Proof.
  induction d as [|[k' v'] d IH]; simpl; [auto|].
  intros Hnd. inversion Hnd as [|? ? Hnotin Hnd']; subst.
  destruct (String.eqb k' k); [exact Hnd'|]. simpl. constructor; [|apply IH, Hnd'].
  intros Hin. apply Hnotin. eapply dict_del_keys_incl, Hin.
Qed.

Lemma dict_get_del_same k d :
  List.NoDup (dict_keys d) -> dict_get k (dict_del k d) = None.
Proof.
  induction d as [|[k' v'] d IH]; simpl; [reflexivity|].
  intros Hnd. inversion Hnd as [|? ? Hnotin Hnd']; subst.
  destruct (String.eqb_spec k' k) as [->|Hk'].
  - apply dict_get_None. exact Hnotin.
  - simpl. destruct (String.eqb_spec k' k); [contradiction|]. apply IH, Hnd'.
Qed.


(** with distinct keys, an assignment leaves the new entry and the entries
    of the other keys *)
Lemma dict_set_In_other k v d m w :
  List.NoDup (dict_keys d) -> In (m, w) (dict_set k v d) ->
  (m = k /\ w = v) \/ (m <> k /\ In (m, w) d).
Proof.
  intros Hnd Hin.
  pose proof (dict_set_NoDup k v d Hnd) as Hnd'.
  pose proof (In_dict_get m w _ Hnd' Hin) as Hget.
  rewrite dict_get_set in Hget.
  destruct (String.eqb_spec k m) as [->|Hne].
  - injection Hget as <-. left. auto.
  - right. split; [congruence|]. apply dict_get_In, Hget.
Qed.

End DictDel.

Section WithValues.
Context {A : Type}.
Implicit Types (d changed reference : dict (json A)) (v : json A) (k m : string).

Lemma deep_update_loop d changed :
  deep_update (JDict d) changed = update_all d changed.
Proof.
  unfold update_all. simpl. revert changed.
  induction d as [|[k v] rest IH]; intros changed; [reflexivity|].
  simpl. apply IH.
Qed.

Lemma update_all_cons k v rest changed :
  update_all ((k, v) :: rest) changed = update_all rest (update_key deep_update k v changed).
Proof. reflexivity. Qed.

(** the dictionary the update of the key [k] is applied to: the one under
    [k], or a copy of the one of the reference *)
Lemma update_key_dict k sub changed :
  update_key deep_update k (JDict sub) changed
  = dict_set k (JDict (deep_update (JDict sub)
                         match dict_get k changed with
                         | Some (JDict current) => current
                         | _ => sub
                         end)) changed.
Proof.
  unfold update_key. destruct (dict_get k changed) as [[|a|current]|]; reflexivity.
Qed.

Lemma update_key_get_other k v m changed :
  m <> k -> dict_get m (update_key deep_update k v changed) = dict_get m changed.
Proof.
  intros Hne. destruct v as [|a|sub].
  - apply dict_get_del_other, Hne.
  - simpl. rewrite dict_get_set. destruct (String.eqb_spec k m); congruence.
  - rewrite update_key_dict, dict_get_set. destruct (String.eqb_spec k m); congruence.
Qed.

Lemma update_key_NoDup k v changed :
  List.NoDup (dict_keys changed) ->
  List.NoDup (dict_keys (update_key deep_update k v changed)).
Proof.
  intros Hnd. destruct v as [|a|sub].
  - apply dict_del_NoDup, Hnd.
  - apply dict_set_NoDup, Hnd.
  - rewrite update_key_dict. apply dict_set_NoDup, Hnd.
Qed.

Lemma update_key_get_same k v changed :
  List.NoDup (dict_keys changed) ->
  dict_get k (update_key deep_update k v changed)
  = match v with
    | JNone => None
    | JOther a => Some (JOther a)
    | JDict sub =>
        Some (JDict (deep_update v
                       match dict_get k changed with
                       | Some (JDict current) => current
                       | _ => sub
                       end))
    end.
Proof.
  intros Hnd. destruct v as [|a|sub].
  - apply dict_get_del_same, Hnd.
  - simpl. rewrite dict_get_set, String.eqb_refl. reflexivity.
  - rewrite update_key_dict, dict_get_set, String.eqb_refl. reflexivity.
Qed.

Lemma update_all_get_other entries : forall changed m,
  ~ In m (dict_keys entries) ->
  dict_get m (update_all entries changed) = dict_get m changed.
Proof.
  induction entries as [|[k v] rest IH]; intros changed m Hm; [reflexivity|].
  rewrite update_all_cons, IH by (intros Hin; apply Hm; right; exact Hin).
  apply update_key_get_other. intros ->. apply Hm. left. reflexivity.
Qed.

Lemma update_all_NoDup entries : forall changed,
  List.NoDup (dict_keys changed) -> List.NoDup (dict_keys (update_all entries changed)).
Proof.
  induction entries as [|[k v] rest IH]; intros changed Hnd; [exact Hnd|].
  rewrite update_all_cons. apply IH, update_key_NoDup, Hnd.
Qed.

(** *** The result, key by key *)

Lemma update_all_get entries : forall changed k,
  List.NoDup (dict_keys entries) ->
  List.NoDup (dict_keys changed) ->
  dict_get k (update_all entries changed)
  = match dict_get k entries with
    | None => dict_get k changed
    | Some JNone => None
    | Some (JOther a) => Some (JOther a)
    | Some (JDict sub) =>
        Some (JDict (deep_update (JDict sub)
                       match dict_get k changed with
                       | Some (JDict current) => current
                       | _ => sub
                       end))
    end.
Proof.
  induction entries as [|[k0 v0] rest IH]; intros changed k Hnd Hc; [reflexivity|].
  rewrite update_all_cons. simpl dict_get.
  apply NoDup_cons_iff in Hnd as [Hk0 Hnd].
  destruct (String.eqb_spec k0 k) as [->|Hne].
  - rewrite update_all_get_other by exact Hk0.
    rewrite update_key_get_same by exact Hc. destruct v0; reflexivity.
  - rewrite IH by (try apply update_key_NoDup; assumption).
    rewrite update_key_get_other by congruence. reflexivity.
Qed.

(** *** Distinct keys are kept *)

Lemma well_formed_dict d :
  well_formed (JDict d)
  <-> List.NoDup (dict_keys d) /\ Forall (fun kv => well_formed (snd kv)) d.
Proof.
  split; [inversion 1; auto|intros [? ?]; constructor; assumption].
Qed.

Lemma well_formed_get k d v :
  Forall (fun kv => well_formed (snd kv)) d -> dict_get k d = Some v -> well_formed v.
Proof.
  intros Hall Hget. apply dict_get_In in Hget.
  rewrite List.Forall_forall in Hall. exact (Hall _ Hget).
Qed.

(** the dictionary an update of [k] starts from is well formed *)
Lemma well_formed_start k sub changed :
  well_formed (JDict sub) ->
  Forall (fun kv => well_formed (snd kv)) changed ->
  well_formed (JDict match dict_get k changed with
                     | Some (JDict current) => current
                     | _ => sub
                     end).
Proof.
  intros Hsub Hall. destruct (dict_get k changed) as [[|a|current]|] eqn:E; try exact Hsub.
  exact (well_formed_get _ _ _ Hall E).
Qed.

Lemma update_key_well_formed k v changed :
  (forall c, well_formed v -> well_formed (JDict c) -> well_formed (JDict (deep_update v c))) ->
  well_formed v ->
  well_formed (JDict changed) ->
  well_formed (JDict (update_key deep_update k v changed)).
Proof.
  intros IH Hv Hc. apply well_formed_dict in Hc as [Hnd Hall].
  apply well_formed_dict. split; [apply update_key_NoDup, Hnd|].
  rewrite List.Forall_forall in *. intros [m w] Hin. simpl.
  destruct v as [|a|sub].
  - apply dict_del_In in Hin. exact (Hall _ Hin).
  - simpl in Hin. apply dict_set_In_other in Hin as [[_ ->]|[_ Hin]]; [|exact (Hall _ Hin)|exact Hnd].
    constructor.
  - rewrite update_key_dict in Hin.
    apply dict_set_In_other in Hin as [[_ ->]|[_ Hin]]; [|exact (Hall _ Hin)|exact Hnd].
    apply IH; [exact Hv|]. apply well_formed_start; [exact Hv|].
    apply List.Forall_forall. exact Hall.
Qed.

Lemma update_all_well_formed entries : forall changed,
  Forall (fun kv => forall c, well_formed (snd kv) -> well_formed (JDict c) ->
                              well_formed (JDict (deep_update (snd kv) c))) entries ->
  Forall (fun kv => well_formed (snd kv)) entries ->
  well_formed (JDict changed) ->
  well_formed (JDict (update_all entries changed)).
Proof.
  induction entries as [|[k v] rest IH]; intros changed HIH Hwf Hc; [exact Hc|].
  rewrite update_all_cons. inversion HIH; subst. inversion Hwf; subst.
  apply IH; try assumption. apply update_key_well_formed; assumption.
Qed.

Lemma deep_update_well_formed v : forall changed,
  well_formed v -> well_formed (JDict changed) ->
  well_formed (JDict (deep_update v changed)).
Proof.
  induction v as [|a|d IH] using json_induction; intros changed Hv Hc; try exact Hc.
  rewrite deep_update_loop. apply well_formed_dict in Hv as [_ Hall].
  apply update_all_well_formed; assumption.
Qed.

(** *** A second pass changes nothing *)

Lemma settled_fixed k v changed :
  settled k v changed -> update_key deep_update k v changed = changed.
Proof.
  destruct v as [|a|sub]; simpl.
  - apply dict_del_absent.
  - apply dict_set_same.
  - intros (current & Hget & Hfix). rewrite Hget, Hfix. apply dict_set_same, Hget.
Qed.

Lemma settled_other k v m w changed :
  m <> k -> settled k v changed -> settled k v (update_key deep_update m w changed).
Proof.
  intros Hne. unfold settled.
  rewrite (update_key_get_other m w k changed) by congruence. auto.
Qed.

Lemma settled_after k v changed :
  (forall c, well_formed v -> well_formed (JDict c) ->
             deep_update v (deep_update v c) = deep_update v c) ->
  well_formed v ->
  well_formed (JDict changed) ->
  settled k v (update_key deep_update k v changed).
Proof.
  intros IH Hv Hc. apply well_formed_dict in Hc as [Hnd Hall].
  unfold settled. rewrite update_key_get_same by exact Hnd.
  destruct v as [|a|sub]; try reflexivity.
  eexists. split; [reflexivity|].
  apply IH; [exact Hv|]. apply well_formed_start; assumption.
Qed.

Lemma update_all_settled entries : forall changed,
  Forall (fun kv => forall c, well_formed (snd kv) -> well_formed (JDict c) ->
                              deep_update (snd kv) (deep_update (snd kv) c)
                              = deep_update (snd kv) c) entries ->
  List.NoDup (dict_keys entries) ->
  Forall (fun kv => well_formed (snd kv)) entries ->
  well_formed (JDict changed) ->
  forall k v, In (k, v) entries -> settled k v (update_all entries changed).
Proof.
  induction entries as [|[k0 v0] rest IH]; intros changed HIH Hnd Hwf Hc k v Hin; [destruct Hin|].
  rewrite update_all_cons. inversion HIH; subst. inversion Hwf; subst.
  apply NoDup_cons_iff in Hnd as [Hk0 Hnd]. simpl in *.
  assert (Hc' : well_formed (JDict (update_key deep_update k0 v0 changed))).
  { apply update_key_well_formed; try assumption. intros c. apply deep_update_well_formed. }
  destruct Hin as [[= <- <-]|Hin].
  - assert (Hs : settled k0 v0 (update_key deep_update k0 v0 changed))
      by (apply settled_after; assumption).
    clear - Hs Hk0. revert Hs. generalize (update_key deep_update k0 v0 changed).
    induction rest as [|[k1 v1] rest IHr]; intros c Hs; [exact Hs|].
    rewrite update_all_cons. apply IHr.
    + intros Hin. apply Hk0. right. exact Hin.
    + apply settled_other; [|exact Hs]. intros ->. apply Hk0. left. reflexivity.
  - apply IH; assumption.
Qed.

Lemma update_all_fixed entries : forall changed,
  (forall k v, In (k, v) entries -> settled k v changed) ->
  update_all entries changed = changed.
Proof.
  induction entries as [|[k0 v0] rest IH]; intros changed Hs; [reflexivity|].
  rewrite update_all_cons, settled_fixed by (apply Hs; left; reflexivity).
  apply IH. intros k v Hin. apply Hs. right. exact Hin.
Qed.

Lemma deep_update_twice v : forall changed,
  well_formed v -> well_formed (JDict changed) ->
  deep_update v (deep_update v changed) = deep_update v changed.
Proof.
  induction v as [|a|d IH] using json_induction; intros changed Hv Hc; try reflexivity.
  rewrite !deep_update_loop. apply well_formed_dict in Hv as [Hnd Hall].
  apply update_all_fixed. intros k v Hin.
  apply update_all_settled; assumption.
Qed.

(** *** No [None] is left *)




End WithValues.
End MergeFacts.
(** ** The token table of the Engine *)

Module EngineFacts.
Import Merge MergeFacts Engine.

Lemma new_token_Return sha256_hexdigest now token_id sess i r e s e' :
  new_token sha256_hexdigest now token_id sess i r e = (Return s, e') ->
  e' = set_tokens (dict_set token_id s (e_tokens e)) e /\
  s__id s = token_id /\ s_id s = token_id /\
  issued_at s = now /\ expires s = now + 3600 /\
  exists user_content,
    credentials_user sha256_hexdigest sess i (e_db e) = Return user_content /\
    username s = Some (u_username user_content).
Proof.
  unfold new_token.
  destruct (credentials_user sha256_hexdigest sess i (e_db e)) as [user_content|x];
    [|discriminate].
  destruct (scoped_project user_content i) as [project_id|x]; [|discriminate].
  destruct (project_admin project_id (e_db e)) as [session_admin|x]; [|discriminate].
  intros [= <- <-]. simpl. repeat split; eauto.
Qed.

Lemma authorize_known cfg now token_id (s : session) e :
  token_id <> "" ->
  dict_get token_id (e_tokens e) = Some s ->
  now <= expires s ->
  authorize cfg now (Some token_id) e = (Return (Session s), e).
Proof.
  intros Hne Hget Hexp. unfold authorize, authorize_try.
  rewrite (TokenFacts.truthy_Some token_id Hne). simpl. rewrite Hget.
  destruct (Z.ltb_spec (expires s) now); [lia|reflexivity].
Qed.

Lemma authorize_unknown cfg now token_id e :
  token_id <> "" ->
  dict_get token_id (e_tokens e) = None ->
  authorize cfg now (Some token_id) e
  = (if Py.truthy (test_user_not_authorized cfg) then
       Return (Fake_session "fake-token-id-for-test"
                 (default "admin" (test_project_not_authorized cfg))
                 (default "" (test_user_not_authorized cfg)))
     else Raise invalid_token, e).
Proof.
  intros Hne Hget. unfold authorize, authorize_try.
  rewrite (TokenFacts.truthy_Some token_id Hne). simpl. rewrite Hget.
  destruct (Py.truthy (test_user_not_authorized cfg)); reflexivity.
Qed.

End EngineFacts.


(** * The claims *)

Module CatalogClaims.
Import Catalog Policy CatalogFacts.

(** C5 (amended). For every stored role and every operation name [m] of the
    catalog, the role's entry for [m] starts at the role's root default and
    ends as the value of the matching declared prefix (plain string prefix)
    with the greatest number of colons, the one declared last among matching
    prefixes with equally many colons; when no two matching prefixes have
    equally many colons the entry is the same for every declaration order
    of the role's fields. *)
Theorem effective_permission_resolution :
  forall (operations : list string) (record : dict value) (root : value) (m : string),
    dict_get "root" record = Some root ->
    In m operations ->
    exists rp,
      record_permissions operations record = Ok rp /\
      dict_get m rp = Some (effective m root (operations_joined record)) /\
      match most_specific m (operations_joined record) with
      | None => forall e, In e (operations_joined record) -> matches m e = false
      | Some b =>
          exists l1 l2,
            operations_joined record = (l1 ++ b :: l2)%list /\
            matches m b = true /\
            (forall e, In e l1 -> matches m e = true -> (colons e <= colons b)%nat) /\
            (forall e, In e l2 -> matches m e = true -> (colons e < colons b)%nat)
      end /\
      forall record',
        List.NoDup (dict_keys record) ->
        Permutation record record' ->
        tie_free m (operations_joined record) ->
        exists rp',
          record_permissions operations record' = Ok rp' /\
          dict_get m rp' = dict_get m rp.
Proof.
  intros ops record root m Hroot Hin.
  destruct (record_permissions_get ops record root m Hroot Hin) as (rp & Hrp & Hget).
  exists rp. split; [exact Hrp|]. split; [exact Hget|]. split.
  - destruct (most_specific m (operations_joined record)) as [b|] eqn:E.
    + apply most_specific_Some, E.
    + apply most_specific_None, E.
  - intros record' Hnd Hp Htf.
    assert (Hroot' : dict_get "root" record' = Some root).
    { rewrite <- (dict_get_Permutation "root" record record' Hnd Hp). exact Hroot. }
    destruct (record_permissions_get ops record' root m Hroot' Hin) as (rp' & Hrp' & Hget').
    exists rp'. split; [exact Hrp'|].
    rewrite Hget, Hget'. unfold effective.
    rewrite (most_specific_Permutation m (operations_joined record) (operations_joined record')).
    + reflexivity.
    + exact Htf.
    + unfold operations_joined. apply filter_Permutation, Hp.
Qed.

Lemma effective_permission_resolution_witness :
  dict_get "root" Sample.project_viewer = Some (VBool false) /\
  In "vnfds:id" Sample.operation_names /\
  exists rp,
    record_permissions Sample.operation_names Sample.project_viewer = Ok rp /\
    dict_get "vnfds:id" rp = Some (VBool true).
Proof.
  split; [reflexivity|]. split; [simpl; tauto|].
  destruct (effective_permission_resolution Sample.operation_names Sample.project_viewer
              (VBool false) "vnfds:id" eq_refl (or_intror (or_introl eq_refl)))
    as (rp & Hrp & Hget & _).
  exists rp. split; [exact Hrp|]. rewrite Hget. reflexivity.
Defined.

(** C5 as stated fails: the same overrides declared in two orders give
    different decisions for [vnfds:id]. *)
Lemma declaration_order_matters :
  Permutation Sample.role_vnf_first Sample.role_vnfds_first /\
  (rp ← record_permissions ["vnfds:id"] Sample.role_vnf_first; Ok (dict_get "vnfds:id" rp))
    = Ok (Some (VBool false)) /\
  (rp ← record_permissions ["vnfds:id"] Sample.role_vnfds_first; Ok (dict_get "vnfds:id" rp))
    = Ok (Some (VBool true)).
Proof.
  split; [|split; reflexivity].
  unfold Sample.role_vnf_first, Sample.role_vnfds_first.
  do 2 apply perm_skip. apply perm_swap.
Qed.

End CatalogClaims.

Module TokenClaims.
Import Authenticator TokenSteps TokenFacts.

(** C3. The prune pass is meant to run once the prune interval has elapsed
    since the last run.  The code compares the wrong way round: in the
    state left by a pass at time 1000 (next pass due at 2800) a call at
    1001 prunes again, while a call at 5000, long after the interval, does
    nothing and leaves the token that expired at 4600 in the store. *)
Theorem prune_interval_check_inverted :
  next_db_prune_time Sample.after_prune = 1000 + periodin_db_pruning /\
  (let r := _internal_tokens_prune 1001 (Some 1001) Sample.after_prune in
   fst r = Ok tt /\
   tokens_cache (snd r) = ∅ /\
   next_db_prune_time (snd r) = 1001 + periodin_db_pruning) /\
  (let r := _internal_tokens_prune 5000 (Some 5000) Sample.after_prune in
   fst r = Ok tt /\
   snd r = Sample.after_prune /\
   In Sample.alice_session (tokens (db (snd r))) /\
   expires Sample.alice_session < 5000).
Proof.
  split; [reflexivity|]. split.
  - rewrite prune_runs_until_deadline by (simpl; lia).
    repeat split.
  - rewrite prune_skipped_after_deadline by (simpl; lia).
    repeat split; simpl; auto; lia.
Qed.

Section WithBackend.
Context {B : Type} `{Authconn B}.
Implicit Types (st : state B) (cfg : config).

Lemma expired_in_store cfg now token_id st s :
  token_id <> "" ->
  tokens_cache st !! token_id = None ->
  Db.tokens_by_id token_id (db st) = [s] ->
  expires s < now ->
  _internal_authorize cfg now (Some token_id) st = (bypass cfg expired_token, st).
Proof.
  intros Hne Hc Hrows Hexp. rewrite _internal_authorize_eq by exact Hne.
  rewrite Hc. apply from_store_expired with (s := s); assumption.
Qed.

(** C7 (amended). Internal-mode validation of a non-empty token id never
    returns a stored session whose expiry has passed and never leaves one
    in the cache under that id, and it does not touch the store.  When
    the session the store holds for the id has [expires < now] (and the
    cache holds none or an expired one), the cache entry is removed and
    validation fails with Unauthorized ("Expired Token ..."), unless the
    test bypass is configured, in which case the fixed fake session is
    returned instead; any later lookup has the same outcome. *)
Theorem internal_authorize_rejects_expired :
  forall cfg st (now : Z) (token_id : string),
    token_id <> "" ->
    forall r st',
      _internal_authorize cfg now (Some token_id) st = (r, st') ->
      (forall s, r = Ok (Stored s) -> ~ expires s < now) /\
      (forall s, tokens_cache st' !! token_id = Some s -> ~ expires s < now) /\
      db st' = db st /\
      (forall s,
         Db.tokens_by_id token_id (db st) = [s] ->
         expires s < now ->
         (forall c, tokens_cache st !! token_id = Some c -> expires c < now) ->
         tokens_cache st' = delete token_id (tokens_cache st) /\
         r = (if Py.truthy (test_user_not_authorized cfg) then
                Ok (Fake "fake-token-id-for-test"
                      (default "admin" (test_project_not_authorized cfg))
                      (default "" (test_user_not_authorized cfg)) true)
              else Err (AuthException "Expired Token or Authorization http header"
                          UNAUTHORIZED)) /\
         forall now', now <= now' ->
           fst (_internal_authorize cfg now' (Some token_id) st') = r).
Proof.
  intros cfg st now token_id Hne r st' Hrun.
  rewrite _internal_authorize_eq in Hrun by exact Hne.
  destruct (tokens_cache st !! token_id) as [c|] eqn:Ec.
  - destruct (Z.ltb_spec (expires c) now) as [Hexp|Hok].
    + destruct (from_store_sound _ _ _ _ _ _ Hrun) as (H1 & H2 & H3).
      split; [exact H1|]. split.
      { intros s Hs. destruct (H3 s Hs) as [Hold|Hfresh]; [|exact Hfresh].
        rewrite evicted_cache, lookup_delete_eq in Hold. discriminate. }
      split; [rewrite H2; apply evicted_db|].
      intros s Hrows Hs _.
      rewrite from_store_expired with (s := s) in Hrun;
        [|rewrite evicted_db; exact Hrows|exact Hs].
      injection Hrun as <- <-.
      split; [apply evicted_cache|]. split; [reflexivity|].
      intros now' Hle. rewrite expired_in_store with (s := s); [reflexivity|exact Hne| | |lia].
      * rewrite evicted_cache. apply lookup_delete_eq.
      * rewrite evicted_db. exact Hrows.
    + injection Hrun as <- <-.
      split; [intros s [= <-]; lia|]. split; [intros s Hs; rewrite Ec in Hs; injection Hs as <-; lia|].
      split; [reflexivity|].
      intros s _ _ Hc. specialize (Hc c eq_refl). lia.
  - destruct (from_store_sound _ _ _ _ _ _ Hrun) as (H1 & H2 & H3).
    split; [exact H1|]. split.
    { intros s Hs. destruct (H3 s Hs) as [Hold|Hfresh]; [congruence|exact Hfresh]. }
    split; [exact H2|].
    intros s Hrows Hs _.
    rewrite from_store_expired with (s := s) in Hrun; [|exact Hrows|exact Hs].
    injection Hrun as <- <-.
    split; [symmetry; apply delete_id, Ec|]. split; [reflexivity|].
    intros now' Hle. rewrite expired_in_store with (s := s); auto. lia.
Qed.

End WithBackend.

Lemma internal_authorize_rejects_expired_witness :
"tok-alice" <> "" /\
fst (_internal_authorize Sample.internal_cfg 5000 (Some "tok-alice") Sample.after_prune)
= Err (AuthException "Expired Token or Authorization http header" UNAUTHORIZED).
Proof.
split; [discriminate|].
destruct (_internal_authorize Sample.internal_cfg 5000 (Some "tok-alice")
            Sample.after_prune) as [r st'] eqn:Hrun.
destruct (internal_authorize_rejects_expired Sample.internal_cfg Sample.after_prune
            5000 "tok-alice" ltac:(discriminate) r st' Hrun) as (_ & _ & _ & Hexp).
destruct (Hexp Sample.alice_session eq_refl ltac:(simpl; lia)) as (_ & Hr & _).
- intros c Hc. vm_compute in Hc. injection Hc as <-. simpl. lia.
- exact Hr.
Defined.

(** C7 as stated fails: with the test bypass configured, validating an
  expired token does not fail, it returns the fake session. *)
Lemma bypass_accepts_expired_token :
expires Sample.alice_session < 5000 /\
Sample.after_prune.(tokens_cache) !! "tok-alice" = Some Sample.alice_session /\
fst (_internal_authorize Sample.bypass_cfg 5000 (Some "tok-alice") Sample.after_prune)
= Ok (Fake "fake-token-id-for-test" "admin" "tester" true).
Proof. split; [simpl; lia|]. split; vm_compute; reflexivity. Qed.

End TokenClaims.

Module FacadeClaims.
Import Authenticator FacadeFacts.

Section WithBackend.
Context {B : Type} `{Authconn B}.
Implicit Types (st : state B) (cfg : config).

(** C10. In delegated mode, for every token id that is not in the token
    cache, [del_token] first performs the revocation at the backend and only
    then fails: once the backend has revoked the token, the unconditional
    deletion from the cache raises NotFound.  The error leaves a state in
    which the backend has moved on and the call is on record, not the
    state the operation started from. *)
Theorem del_token_revokes_before_not_found :
  forall cfg st (token : string) (r : result unit) (b' : B),
    is_internal cfg = false ->
    tokens_cache st !! token = None ->
    revoke_token (backend st) token = (r, b') ->
    let st' := set_backend b' (Revoke_token token) st in
    del_token cfg token st
    = (Err (match r with
            | Ok _ | Err KeyError =>
                AuthException ("Token '" +:+ token +:+ "' not found") NOT_FOUND
            | Err e => e
            end), st') /\
    backend st' = b' /\
    calls st' = (calls st ++ [Revoke_token token])%list /\
    tokens_cache st' = tokens_cache st /\
    st' <> st.
Proof.
  intros cfg st token r b' Hi Hc Hrev st'.
  split; [|split; [reflexivity|split; [reflexivity|split; [reflexivity|apply set_backend_neq]]]].
  unfold del_token. rewrite Hi. unfold catch.
  destruct r as [[]|e].
  - rewrite (bind_eq _ _ st tt st') by (apply invoke_eq, Hrev).
    unfold del_cached, bind, gets. subst st'. cbn [tokens_cache set_backend]. rewrite Hc.
    reflexivity.
  - rewrite (bind_Err _ _ st e st') by (apply invoke_eq, Hrev).
    destruct e; reflexivity.
Qed.

(** C8 (amended). Every session record created by [new_token] has
    [issued_at] equal to the time of the call.  In internal mode its
    [expires] is one hour later, hence [expires > issued_at].  In delegated
    mode its [expires] is the value the backend answered, taken as it is,
    or one hour later when the backend gave none; [expires > issued_at]
    then holds exactly when the backend gave none or gave a time after the
    call. *)
Theorem new_token_expiry :
  forall cfg sha256_hexdigest id_field st (now : Z) (token_id : string)
         (sess : option session) (i : indata) (r : remote) (s : session) st',
    new_token cfg sha256_hexdigest id_field now token_id sess i r st = (Ok s, st') ->
    issued_at s = now /\
    if is_internal cfg then expires s = now + 3600 /\ issued_at s < expires s
    else
      exists ti b',
        authenticate (backend st) (in_username i) (in_username i)
          (match sess with Some s0 => session_get_token s0 | None => None end)
          (in_project_id i) = (Ok ti, b') /\
        expires s = default (now + 3600) (ti_expires ti) /\
        (issued_at s < expires s <->
         match ti_expires ti with Some e => now < e | None => True end).
Proof.
  intros cfg sha idf st now token_id sess i r s st' Hrun.
  unfold new_token in Hrun. destruct (is_internal cfg).
  - unfold _internal_new_token in Hrun.
    inv_bind Hrun as u st1 H1. inv_bind Hrun as p st2 H2. inv_bind Hrun as a st3 H3.
    inv_bind Hrun as x4 st4 H4. inv_bind Hrun as x5 st5 H5. inv_bind Hrun as x6 st6 H6.
    unfold ret in Hrun. injection Hrun as <- <-. simpl. lia.
  - inv_bind Hrun as ti st1 H1. apply invoke_Ok in H1 as (b' & Hauth & ->).
    inv_bind Hrun as tid st2 H2. inv_bind Hrun as pid st3 H3. inv_bind Hrun as uname st4 H4.
    inv_bind Hrun as x5 st5 H5.
    unfold ret in Hrun. injection Hrun as <- <-. simpl.
    split; [reflexivity|]. exists ti, b'. split; [exact Hauth|]. split; [reflexivity|].
    destruct (ti_expires ti); simpl; [tauto|]. split; [tauto|lia].
Qed.

(** C4 (amended). For every session and resolved operation,
    [check_permissions] first fetches the session's role set from the
    identity backend, whatever the operation's allowed roles are, and fails
    with the backend's error when that fetch fails.  When the fetch
    succeeds: if "anonymous" is among the allowed roles access is granted
    whatever was fetched; otherwise access is granted if and only if the
    fetched set intersects the allowed-role list, and Unauthorized
    ("lack of permissions") is raised when it does not (a missing role set
    raises a TypeError). *)
Theorem check_permissions_decision :
  forall st (session : session) (url method key : string) (parameters : dict string)
         (operation : string) (roles_required : list value)
         (answer : result (option (list string))) (b' : B),
    Url._normalize_url (resources_to_operations_mapping st) url method
      = Ok (key, parameters) ->
    dict_get key (resources_to_operations_mapping st) = Some operation ->
    dict_get operation (operation_to_allowed_roles st) = Some roles_required ->
    get_user_role_list (backend st) (s_id session) = (answer, b') ->
    exists r,
      check_permissions session url method st
      = (r, set_backend b' (Get_user_role_list (s_id session)) st) /\
      match answer with
      | Err e => r = Err e
      | Ok roles_allowed =>
          if role_in "anonymous" roles_required then r = Ok tt
          else match roles_allowed with
               | None => r = Err TypeError
               | Some roles =>
                   (r = Ok tt <->
                    exists role, In role roles /\ In (VStr role) roles_required) /\
                   (r <> Ok tt ->
                    r = Err (AuthException "Access denied: lack of permissions."
                               UNAUTHORIZED))
               end
      end.
Proof.
  intros st session url method key parameters operation roles_required answer b'
    Hurl Hop Hreq Hans.
  eexists. split; [eapply check_permissions_eq; eassumption|].
  destruct answer as [[roles|]|e]; [| |reflexivity];
    destruct (role_in "anonymous" roles_required); try reflexivity.
  destruct (existsb _ roles) eqn:Ex.
  - split; [|congruence]. split; [intros _; apply roles_intersect, Ex|reflexivity].
  - split; [|reflexivity]. split; [discriminate|].
    intros Hex. apply roles_intersect in Hex. congruence.
Qed.

(** C1 (amended). In delegated mode a successful [authorize] has had the
    presented token validated by the backend, has then run
    [check_permissions] (URL resolution and the role check) on the cached
    session against the request's path and method with success, and
    returns that cached session.  In internal mode a successful
    [authorize] returns what [_internal_authorize] returns for the
    presented token; no URL resolution and no permission check take
    place. *)
Theorem authorize_success :
  forall cfg (now : Z) (req : request) st (g : granted) st',
    authorize cfg now req st = (Ok g, st') ->
    if is_internal cfg then
      exists token,
        presented_token req st = (Ok token, st) /\
        _internal_authorize cfg now token st = (Ok g, st')
    else
      exists (token : string) (s : session) info (b1 : B),
        presented_token req st = (Ok (Some token), st) /\
        validate_token (backend st) token = (Ok info, b1) /\
        tokens_cache st !! token = Some s /\
        check_permissions s (path_info req) (method req)
          (set_backend b1 (Validate_token token) st) = (Ok tt, st') /\
        g = Stored s.
Proof.
  intros cfg now req st g st' Hrun.
  unfold authorize in Hrun. apply catch_Ok in Hrun as [Hrun|(e & st1 & _ & Hh)].
  2:{ destruct e; first [discriminate|unfold bind, modify, raise in Hh; discriminate]. }
  unfold authorize_try in Hrun.
  inv_bind Hrun as token st1 H1.
  pose proof (presented_token_state _ _ _ _ H1) as ->.
  destruct (is_internal cfg).
  - exists token. auto.
  - destruct (Py.truthy token) eqn:Et; [|discriminate]. cbn [negb] in Hrun.
    apply truthy_inv in Et as (t & -> & Hne). cbn [default from_option id] in Hrun.
    apply catch_Ok in Hrun as [Hrun|(e & st1 & _ & Hh)].
    2:{ destruct e; try discriminate;
        unfold bind, raise in Hh;
        destruct (del_token cfg t st1) as [[x|e'] st2]; discriminate. }
    inv_bind Hrun as info st1 H2. apply invoke_Ok in H2 as (b1 & Hval & ->).
    inv_bind Hrun as s st2 H3. apply cached_Ok in H3 as [Hc ->].
    inv_bind Hrun as u st3 H4. destruct u.
    inv_bind Hrun as s' st4 H5. apply cached_Ok in H5 as [Hc' ->].
    unfold ret in Hrun. injection Hrun as <- <-.
    destruct (check_permissions_Ok _ _ _ _ _ H4) as (k & ps & op & rr & ra & b2 & _ & _ & _ & _ & Hst & _).
    rewrite Hst in Hc'. cbn [tokens_cache set_backend] in Hc, Hc'.
    assert (s' = s) as -> by congruence.
    exists t, s, info, b1. auto.
Qed.

End WithBackend.

Lemma del_token_revokes_before_not_found_witness :
  is_internal Sample.keystone_cfg = false /\
  Sample.delegated.(tokens_cache) !! "tok-bob" = None /\
  fst (del_token Sample.keystone_cfg "tok-bob" Sample.delegated)
  = Err (AuthException "Token 'tok-bob' not found" NOT_FOUND) /\
  calls (snd (del_token Sample.keystone_cfg "tok-bob" Sample.delegated))
  = [Revoke_token "tok-bob"].
Proof.
  split; [reflexivity|]. split; [vm_compute; reflexivity|].
  destruct (del_token_revokes_before_not_found Sample.keystone_cfg Sample.delegated
              "tok-bob" (Ok tt) (snd (revoke_token (backend Sample.delegated) "tok-bob"))
              eq_refl ltac:(vm_compute; reflexivity) eq_refl) as (Hrun & _ & Hcalls & _).
  rewrite Hrun. split; [reflexivity|exact Hcalls].
Defined.

Lemma new_token_expiry_witness :
  exists s st',
    new_token Sample.internal_cfg Sample.a_hash Sample.by_id 1000 "R4nd0m" None
      Sample.alice_login Sample.a_remote (Sample.fresh Sample.no_backend Sample.store)
    = (Ok s, st') /\
    issued_at s = 1000 /\ expires s = 4600.
Proof.
  destruct (new_token Sample.internal_cfg Sample.a_hash Sample.by_id 1000 "R4nd0m" None
              Sample.alice_login Sample.a_remote (Sample.fresh Sample.no_backend Sample.store))
    as [[s|e] st'] eqn:Hrun; [|vm_compute in Hrun; discriminate].
  exists s, st'. split; [reflexivity|].
  destruct (new_token_expiry _ _ _ _ _ _ _ _ _ _ _ Hrun) as (Hi & He & _).
  split; [exact Hi|exact He].
Defined.

(** C8 as stated fails in delegated mode: the backend's expiry is copied
    without being compared with the time of issue. *)
Lemma delegated_session_expires_before_issue :
  exists s st',
    new_token Sample.keystone_cfg Sample.a_hash Sample.by_id 1000 "R4nd0m" None
      Sample.svc_login Sample.a_remote (Sample.fresh Sample.skewed_keystone Sample.store)
    = (Ok s, st') /\
    issued_at s = 1000 /\ expires s = 900 /\ ~ expires s > issued_at s.
Proof.
  eexists. eexists. split; [vm_compute; reflexivity|].
  simpl. repeat split; lia.
Qed.

(** C2. The delegated [new_token] is meant to hand the caller's password to
    the backend.  For the login of alice with password "secret" the call
    that reaches the backend carries "alice" in the password position, so
    the backend rejects the correct credentials. *)
Theorem new_token_sends_username_as_password :
  in_password Sample.alice_login = Some "secret" /\
  (let r := new_token Sample.keystone_cfg Sample.a_hash Sample.by_id 1000 "R4nd0m" None
              Sample.alice_login Sample.a_remote
              (Sample.fresh Sample.a_keystone Sample.store) in
   calls (snd r) = [Authenticate (Some "alice") (Some "alice") None (Some "admin")] /\
   fst r = Err (AuthException "Keystone: wrong credentials" UNAUTHORIZED)) /\
  fst (authenticate Sample.a_keystone (Some "alice") (Some "secret") None (Some "admin"))
  = Ok {| ti__id := Some "tok-alice"; ti_expires := None; ti_project_id := Some "admin";
          ti_username := Some "alice"; ti_project_name := Some "admin" |}.
Proof.
  split; [reflexivity|]. split; [|vm_compute; reflexivity].
  cbv zeta. split.
  - rewrite new_token_call by reflexivity. reflexivity.
  - vm_compute. reflexivity.
Qed.

Lemma check_permissions_decision_witness :
  exists st',
    check_permissions Sample.alice_session "/vnfds/abc123" "GET" Sample.delegated
    = (Ok tt, st') /\
    calls st' = [Get_user_role_list "tok-alice"].
Proof.
  destruct (check_permissions_decision Sample.delegated Sample.alice_session
              "/vnfds/abc123" "GET" "GET /vnfds/<id>" [("id", "abc123")] "vnfds:id"
              [VStr "project_viewer"] (Ok (Some ["project_viewer"])) Sample.a_keystone
              ltac:(vm_compute; reflexivity) eq_refl eq_refl eq_refl)
    as (r & Hrun & Hr).
  cbn [role_in existsb bool_decide orb] in Hr.
  destruct (bool_decide (VStr "project_viewer" = VStr "anonymous")) eqn:Ea;
    [apply bool_decide_eq_true in Ea; discriminate|].
  cbn [orb] in Hr. destruct Hr as [Hr _].
  exists (set_backend Sample.a_keystone (Get_user_role_list "tok-alice") Sample.delegated).
  split; [|reflexivity].
  rewrite Hrun. f_equal. apply Hr. exists "project_viewer". simpl. auto.
Defined.

(** C4 as stated fails: for a public operation ("anonymous" allowed) the
    backend is consulted all the same, and when it rejects the session the
    access is not granted. *)
Lemma anonymous_operation_consults_backend :
  dict_get "vnfds" Sample.vnfd_index = Some [VStr "anonymous"] /\
  (let r := check_permissions Sample.bob_session "/vnfds" "GET" Sample.delegated in
   fst r = Err Sample.ks_denied /\
   calls (snd r) = [Get_user_role_list "tok-bob"]) /\
  (let r := check_permissions Sample.alice_session "/vnfds" "GET" Sample.delegated in
   fst r = Ok tt /\
   calls (snd r) = [Get_user_role_list "tok-alice"]).
Proof. repeat split; vm_compute; reflexivity. Qed.

Lemma authorize_success_witness :
  exists st',
    authorize Sample.keystone_cfg 2000 (Sample.get_vnfd "Bearer tok-alice") Sample.delegated
    = (Ok (Stored Sample.alice_session), st') /\
    check_permissions Sample.alice_session "/vnfds/abc123" "GET"
      (set_backend Sample.a_keystone (Validate_token "tok-alice") Sample.delegated)
    = (Ok tt, st').
Proof.
  destruct (authorize Sample.keystone_cfg 2000 (Sample.get_vnfd "Bearer tok-alice")
              Sample.delegated) as [[g|e] st'] eqn:Hrun; [|vm_compute in Hrun; discriminate].
  destruct (authorize_success _ _ _ _ _ _ Hrun) as (token & s & info & b1 & Hp & Hv & Hc & Hcheck & ->).
  vm_compute in Hp. injection Hp as <-.
  vm_compute in Hv. injection Hv as <- <-.
  vm_compute in Hc. injection Hc as <-.
  exists st'. split; [reflexivity|exact Hcheck].
Defined.

(** C1 as stated fails in internal mode: a valid token is granted access
    although the request's URL resolves to no operation and no permission
    check is made. *)
Lemma internal_authorize_skips_permission_check :
  is_internal Sample.internal_cfg = true /\
  (let r := authorize Sample.internal_cfg 2000 (Sample.get_vnfd "Bearer tok-alice")
              Sample.after_prune in
   fst r = Ok (Stored Sample.alice_session) /\
   calls (snd r) = []) /\
  Url._normalize_url (resources_to_operations_mapping Sample.after_prune)
    "/vnfds/abc123" "GET"
  = Err (Url.not_found "/vnfds/abc123").
Proof. repeat split; vm_compute; reflexivity. Qed.

End FacadeClaims.

Module InitDbClaims.
Import Catalog Similar InitDb InitDbFacts.

Section WithBackend.
Context {B : Type} `{Authconn B}.
Implicit Types (st : state B) (cfg : config).

(** C9. The catalog build is deterministic: two runs of [init_db] on the
    same resource-map and role-map documents, started with the same resource
    map and index in memory and the same stored role records, produce the
    same operation-to-allowed-roles index (and the same resource map),
    whatever the clock readings, the identifiers handed out by the store
    and the state and answers of the identity backend in the two runs. *)
Theorem init_db_deterministic :
  forall cfg (time1 time2 : nat -> Z) (fresh1 fresh2 : nat -> string)
         (resources : dict string) (roles : list role_with_operations)
         (st1 st2 st1' st2' : state B),
    resources_to_operations_mapping st1 = resources_to_operations_mapping st2 ->
    operation_to_allowed_roles st1 = operation_to_allowed_roles st2 ->
    roles_operations (db st1) = roles_operations (db st2) ->
    init_db cfg time1 fresh1 resources roles st1 = (Ok tt, st1') ->
    init_db cfg time2 fresh2 resources roles st2 = (Ok tt, st2') ->
    operation_to_allowed_roles st1' = operation_to_allowed_roles st2' /\
    resources_to_operations_mapping st1' = resources_to_operations_mapping st2'.
Proof.
  intros cfg time1 time2 fresh1 fresh2 resources roles st1 st2 st1' st2' Hm Hi Hr H1 H2.
  rewrite init_db_eq in H1, H2.
  destruct (String.eqb (authentication_backend cfg) "internal").
  { injection H1 as <-. injection H2 as <-. auto. }
  cbv zeta in H1, H2. rewrite <- Hm, <- Hr in H2.
  set (lr := load_resources resources [] (resources_to_operations_mapping st1)) in *.
  assert (Hruns : exists s1 s2,
    (if (length (roles_operations (db st1)) =? 0)%nat
     then create_roles cfg time1 fresh1 0 roles [] (set_mapping (snd lr) st1)
     else (Ok tt, set_mapping (snd lr) st1)) = (Ok tt, s1) /\
    (if (length (roles_operations (db st1)) =? 0)%nat
     then create_roles cfg time2 fresh2 0 roles [] (set_mapping (snd lr) st2)
     else (Ok tt, set_mapping (snd lr) st2)) = (Ok tt, s2)).
  { destruct (if (length (roles_operations (db st1)) =? 0)%nat
              then create_roles cfg time1 fresh1 0 roles [] (set_mapping (snd lr) st1)
              else _) as [[[]|e1] s1]; [|discriminate].
    destruct (if (length (roles_operations (db st1)) =? 0)%nat
              then create_roles cfg time2 fresh2 0 roles [] (set_mapping (snd lr) st2)
              else _) as [[[]|e2] s2]; [|discriminate].
    eauto. }
  destruct Hruns as (s1 & s2 & E1 & E2). rewrite E1 in H1. rewrite E2 in H2.
  assert (Hsim : Forall2 record_sim (roles_operations (db s1)) (roles_operations (db s2))
                 /\ operation_to_allowed_roles s1 = operation_to_allowed_roles s2
                 /\ resources_to_operations_mapping s1 = resources_to_operations_mapping s2).
  { destruct (length (roles_operations (db st1)) =? 0)%nat.
    - split.
      + eapply create_roles_sim; [|exact E1|exact E2]. cbn [db set_mapping].
        rewrite Hr. clear. induction (roles_operations (db st2)); constructor;
          auto using record_sim_refl.
      + apply create_roles_frame in E1 as [Ha Hb]. apply create_roles_frame in E2 as [Hc Hd].
        rewrite Ha, Hb, Hc, Hd. simpl. auto.
    - injection E1 as <-. injection E2 as <-. simpl. split; [|auto].
      rewrite Hr. clear. induction (roles_operations (db st2)); constructor;
        auto using record_sim_refl. }
  destruct Hsim as (Hsim & Hix & Hmap).
  rewrite (build_permissions_sim _ _ _ Hsim) in H1.
  destruct (build_permissions (fst lr) (roles_operations (db s2))) as [permissions|e];
    [|discriminate].
  unfold invoke in H1, H2.
  destruct (assign_role_to_user _ _ _ _) as [r1 b1] in H1.
  destruct (assign_role_to_user _ _ _ _) as [r2 b2] in H2.
  injection H1 as _ <-. injection H2 as _ <-. simpl. rewrite Hix, Hmap. auto.
Qed.

End WithBackend.

Lemma init_db_deterministic_witness :
  exists st1' st2',
    init_db Sample.keystone_cfg (fun _ => 1000) (fun _ => "uuid-a")
      Sample.vnfd_map Sample.role_map (Sample.fresh Sample.a_keystone Sample.store)
    = (Ok tt, st1') /\
    init_db Sample.keystone_cfg (fun n => 2000 + Z.of_nat n) (fun _ => "uuid-b")
      Sample.vnfd_map Sample.role_map (Sample.fresh Sample.listing_keystone Sample.store)
    = (Ok tt, st2') /\
    operation_to_allowed_roles st1' = operation_to_allowed_roles st2' /\
    roles_operations (db st1') <> roles_operations (db st2').
Proof.
  destruct (init_db Sample.keystone_cfg (fun _ => 1000) (fun _ => "uuid-a")
              Sample.vnfd_map Sample.role_map (Sample.fresh Sample.a_keystone Sample.store))
    as [[[]|e1] st1'] eqn:H1; [|vm_compute in H1; discriminate].
  destruct (init_db Sample.keystone_cfg (fun n => 2000 + Z.of_nat n) (fun _ => "uuid-b")
              Sample.vnfd_map Sample.role_map
              (Sample.fresh Sample.listing_keystone Sample.store))
    as [[[]|e2] st2'] eqn:H2; [|vm_compute in H2; discriminate].
  exists st1', st2'. split; [reflexivity|]. split; [reflexivity|].
  split.
  - exact (proj1 (init_db_deterministic _ _ _ _ _ _ _
                    (Sample.fresh Sample.a_keystone Sample.store)
                    (Sample.fresh Sample.listing_keystone Sample.store) _ _
                    eq_refl eq_refl eq_refl H1 H2)).
  - vm_compute in H1. vm_compute in H2.
    injection H1 as <-. injection H2 as <-. vm_compute. discriminate.
Defined.

End InitDbClaims.

Module UrlClaims.
Import Url UrlSpec.

(** C6. Resolution is meant to return the entry exactly when one entry
    matches, and to fail otherwise.  The scan stops as soon as one candidate
    is left whose key ends in the greedy placeholder, before its literal
    segments are compared, and it drops a greedy candidate at the next index
    when it is not alone.  With the resource map of the artifact scenario the
    request [GET /nsds/abc/secret/file], which no entry matches, resolves
    to the artifact operation; with a greedy and a plain template side by
    side, [GET /a/b/d], which only the greedy entry matches, is not found,
    and [GET /a/b/c], which both match, silently resolves to the plain
    one. *)
Theorem resolver_greedy_break :
  (matching Sample.artifact_map "GET" "/nsds/abc/secret/file" = [] /\
   _normalize_url Sample.artifact_map "/nsds/abc/secret/file" "GET"
   = Ok ("GET /vnfds/<id>/artifacts/<artifactPath>",
         [("id", "abc"); ("artifactPath", "file")])) /\
  (matching Sample.greedy_and_plain "GET" "/a/b/d" = ["GET /a/<artifactPath>"] /\
   _normalize_url Sample.greedy_and_plain "/a/b/d" "GET" = Err (not_found "/a/b/d")) /\
  (matching Sample.greedy_and_plain "GET" "/a/b/c"
   = ["GET /a/<artifactPath>"; "GET /a/<id>/c"] /\
   _normalize_url Sample.greedy_and_plain "/a/b/c" "GET"
   = Ok ("GET /a/<id>/c", [("id", "b")])).
Proof. repeat split; vm_compute; reflexivity. Qed.

(** The scenario of the specification itself resolves as described. *)
Example resolve_artifact :
  matching Sample.artifact_map "GET" "/vnfds/abc/artifacts/folder/sub/file.yaml"
  = ["GET /vnfds/<id>/artifacts/<artifactPath>"] /\
  _normalize_url Sample.artifact_map "/vnfds/abc/artifacts/folder/sub/file.yaml" "GET"
  = Ok ("GET /vnfds/<id>/artifacts/<artifactPath>",
        [("id", "abc"); ("artifactPath", "folder/sub/file.yaml")]).
Proof. split; vm_compute; reflexivity. Qed.

End UrlClaims.

(** * Further properties of the code *)

(** ** The life of an internal token *)

Module TokenLifecycle.
Import Authenticator TokenSteps TokenFacts FacadeFacts TokenApi Issue IssueFacts.

Section WithBackend.
Context {B : Type} `{Authconn B}.
Implicit Types (st : state B) (cfg : config).

(** X1. Issue, then validate.  When [_internal_new_token] succeeds for a
    non-empty token id the store did not hold yet, [_internal_authorize]
    returns the very session that was issued for that id at any time up to
    its expiry, one hour after the issue; this also holds when the issue
    ran the prune pass, which empties the cache. *)
Theorem issue_then_validate :
  forall cfg sha256_hexdigest id_field st (now : Z) (token_id : string)
         (sess : option session) (i : indata) (r : remote) (s : session) st' (now2 : Z),
    token_id <> "" ->
    Db.tokens_by_id token_id (db st) = [] ->
    _internal_new_token sha256_hexdigest id_field now token_id sess i r st = (Ok s, st') ->
    now2 <= now + 3600 ->
    fst (_internal_authorize cfg now2 (Some token_id) st') = Ok (Stored s).
Proof.
  intros cfg sha idf st now token_id sess i r s st' now2 Hne Hfresh Hrun Hnow2.
  apply _internal_new_token_Ok in Hrun as (Hid & _ & _ & Hexp & _ & Hprune).
  rewrite _internal_authorize_eq by exact Hne.
  apply prune_after_issue in Hprune as [->| ->].
  - unfold issued. cbn [tokens_cache set_db set_tokens_cache]. rewrite Hid, lookup_insert_eq.
    destruct (Z.ltb_spec (expires s) now2); [lia|]. reflexivity.
  - unfold pruned. cbn [tokens_cache set_tokens_cache]. rewrite lookup_empty.
    unfold from_store. cbn [db set_db set_tokens_cache set_next_db_prune_time issued].
    rewrite <- Hid, tokens_by_id_issued; [|rewrite Hid; exact Hfresh|lia]. simpl.
    destruct (Z.ltb_spec (expires s) now2); [lia|]. reflexivity.
Qed.

(** X2. Issuing a token keeps the store sound: the new session is stored,
    every stored token that had not expired at the time of the issue is
    still stored, no other token appears, and the users and projects are
    untouched. *)
Theorem issue_keeps_unexpired_tokens :
  forall sha256_hexdigest id_field st (now : Z) (token_id : string)
         (sess : option session) (i : indata) (r : remote) (s : session) st',
    _internal_new_token sha256_hexdigest id_field now token_id sess i r st = (Ok s, st') ->
    In s (tokens (db st')) /\
    (forall t, In t (tokens (db st)) -> ~ expires t < now -> In t (tokens (db st'))) /\
    (forall t, In t (tokens (db st')) -> t = s \/ In t (tokens (db st))) /\
    users (db st') = users (db st) /\
    projects (db st') = projects (db st).
Proof.
  intros sha idf st now token_id sess i r s st' Hrun.
  apply _internal_new_token_Ok in Hrun as (_ & _ & _ & Hexp & _ & Hprune).
  apply prune_after_issue in Hprune as [->| ->];
    cbn [db set_db set_tokens_cache set_next_db_prune_time issued pruned tokens users projects
         Db.create_token Db.del_expired].
  - repeat split; auto.
    + apply in_app_iff. right. left. reflexivity.
    + intros t Ht _. apply in_app_iff. auto.
    + intros t Ht. apply in_app_iff in Ht as [Ht|[<-|[]]]; auto.
  - repeat split; auto.
    + apply filter_In. split; [apply in_app_iff; right; left; reflexivity|].
      destruct (Z.ltb_spec (expires s) now); [lia|reflexivity].
    + intros t Ht Hlive. apply filter_In. split; [apply in_app_iff; auto|].
      destruct (Z.ltb_spec (expires t) now); [lia|reflexivity].
    + intros t Ht. apply filter_In in Ht as [Ht _].
      apply in_app_iff in Ht as [Ht|[<-|[]]]; auto.
Qed.

(** X3. After a successful issue, [_internal_get_token_list] answers
    without changing the state, lists only stored tokens of the asking
    user that have not expired, and lists the new session when the asking
    user is its owner and it has not expired. *)
Theorem issued_token_is_listed :
  forall sha256_hexdigest id_field st (now : Z) (token_id : string)
         (sess : option session) (i : indata) (r : remote) (s : session) st'
         (now2 : Z) (g : granted),
    _internal_new_token sha256_hexdigest id_field now token_id sess i r st = (Ok s, st') ->
    exists l,
      _internal_get_token_list now2 g st' = (Ok l, st') /\
      (forall t, In t l ->
         username t = granted_username g /\ now2 < expires t /\ In t (tokens (db st'))) /\
      (granted_username g = username s -> now2 < now + 3600 -> In s l).
Proof.
  intros sha idf st now token_id sess i r s st' now2 g Hrun.
  eexists. split; [reflexivity|]. split.
  - intros t Ht. apply filter_In in Ht as [Ht Hc].
    apply andb_true_iff in Hc as [Hu He].
    apply bool_decide_eq_true in Hu. apply Z.ltb_lt in He. auto.
  - intros Hu Hlt.
    pose proof (issue_keeps_unexpired_tokens _ _ _ _ _ _ _ _ _ _ Hrun) as (Hin & _).
    apply _internal_new_token_Ok in Hrun as (_ & _ & _ & Hexp & _).
    apply filter_In. split; [exact Hin|].
    apply andb_true_iff. split; [apply bool_decide_eq_true; auto|].
    apply Z.ltb_lt. lia.
Qed.

(** X4. A token the store does not hold is invalid, also under the test
    bypass: for a non-empty id with no stored session and no unexpired
    cached one, [_internal_authorize] fails with "Invalid Token ..." for
    every configuration, since the error is raised inside the handler of
    the store's exception and the handler of the bypass does not see it. *)
Theorem unknown_token_is_invalid_under_bypass :
  forall cfg (now : Z) (token_id : string) st,
    token_id <> "" ->
    (forall c, tokens_cache st !! token_id = Some c -> expires c < now) ->
    Db.tokens_by_id token_id (db st) = [] ->
    exists st',
      _internal_authorize cfg now (Some token_id) st
      = (Err (AuthException "Invalid Token or Authorization http header" UNAUTHORIZED), st') /\
      tokens_cache st' = delete token_id (tokens_cache st) /\
      db st' = db st.
Proof.
  intros cfg now token_id st Hne Hc Hrows.
  exists (evicted token_id st). split.
  - exact (unknown_token_invalid cfg now token_id st Hne Hc Hrows).
  - split; [apply evicted_cache|apply evicted_db].
Qed.

(** X5. Delete, then validate.  When the store holds exactly one session
    for a non-empty id, [_internal_del_token] answers "token '<id>'
    deleted", drops the cache entry and the stored sessions of that id and
    nothing else, and a later [_internal_authorize] of the id fails with
    "Invalid Token ...", whatever the configuration. *)
Theorem revoked_token_is_invalid :
  forall cfg st (token_id : string) (s : session) (now : Z),
    token_id <> "" ->
    Db.tokens_by_id token_id (db st) = [s] ->
    exists st',
      _internal_del_token token_id st = (Ok ("token '" +:+ token_id +:+ "' deleted"), st') /\
      tokens_cache st' !! token_id = None /\
      (forall t, In t (tokens (db st')) <-> In t (tokens (db st)) /\ s__id t <> token_id) /\
      _internal_authorize cfg now (Some token_id) st' = (Err invalid_token, st').
Proof.
  intros cfg st token_id s now Hne Hrows.
  destruct (remove_first_single token_id (tokens (db st)) s Hrows) as (l' & Hrm & Hnil & Hiff).
  eexists. split.
  - unfold _internal_del_token, bind, modify, catch, ret, Db.del_one_token.
    cbn [db set_tokens_cache]. rewrite Hrm. reflexivity.
  - cbn [tokens_cache db set_db set_tokens_cache tokens].
    split; [apply lookup_delete_eq|]. split; [exact Hiff|].
    rewrite unknown_token_invalid; [|exact Hne| |exact Hnil].
    + f_equal. unfold evicted. cbn [tokens_cache set_db set_tokens_cache].
      rewrite lookup_delete_eq. reflexivity.
    + cbn [tokens_cache set_db set_tokens_cache]. rewrite lookup_delete_eq. discriminate.
Qed.

(** X6. Deleting a token the store does not hold fails with NotFound
    ("Token '<id>' not found"); the cache entry of the id has been dropped
    by then. *)
Theorem del_unknown_token_not_found :
  forall st (token_id : string),
    Db.tokens_by_id token_id (db st) = [] ->
    _internal_del_token token_id st
    = (Err (AuthException ("Token '" +:+ token_id +:+ "' not found") NOT_FOUND),
       set_tokens_cache (delete token_id (tokens_cache st)) st).
Proof.
  intros st token_id Hrows.
  unfold _internal_del_token, bind, modify, catch, ret, raise, Db.del_one_token.
  cbn [db set_tokens_cache]. rewrite (remove_first_None _ _ Hrows). reflexivity.
Qed.

End WithBackend.

Lemma issue_then_validate_witness :
  exists s st',
    _internal_new_token Sample.a_hash Sample.by_id 1000 "R4nd0m" None
      Sample.alice_login Sample.a_remote (Sample.fresh Sample.no_backend Sample.store)
    = (Ok s, st') /\
    fst (_internal_authorize Sample.internal_cfg 2000 (Some "R4nd0m") st') = Ok (Stored s).
Proof.
  destruct (_internal_new_token Sample.a_hash Sample.by_id 1000 "R4nd0m" None
              Sample.alice_login Sample.a_remote (Sample.fresh Sample.no_backend Sample.store))
    as [[s|e] st'] eqn:Hrun; [|vm_compute in Hrun; discriminate].
  exists s, st'. split; [reflexivity|].
  apply (issue_then_validate Sample.internal_cfg Sample.a_hash Sample.by_id
           (Sample.fresh Sample.no_backend Sample.store) 1000 "R4nd0m" None
           Sample.alice_login Sample.a_remote s st' 2000);
    [discriminate|reflexivity|exact Hrun|lia].
Defined.

Lemma issue_keeps_unexpired_tokens_witness :
  exists s st',
    _internal_new_token Sample.a_hash Sample.by_id 1000 "R4nd0m" None
      Sample.alice_login Sample.a_remote (Sample.fresh Sample.no_backend Sample.store)
    = (Ok s, st') /\
    In s (tokens (db st')) /\ In Sample.alice_session (tokens (db st')).
Proof.
  destruct (_internal_new_token Sample.a_hash Sample.by_id 1000 "R4nd0m" None
              Sample.alice_login Sample.a_remote (Sample.fresh Sample.no_backend Sample.store))
    as [[s|e] st'] eqn:Hrun; [|vm_compute in Hrun; discriminate].
  exists s, st'. split; [reflexivity|].
  destruct (issue_keeps_unexpired_tokens _ _ _ _ _ _ _ _ _ _ Hrun) as (Hs & Hkeep & _).
  split; [exact Hs|]. apply Hkeep; [simpl; auto|simpl; lia].
Defined.

Lemma issued_token_is_listed_witness :
  exists s st' l,
    _internal_new_token Sample.a_hash Sample.by_id 1000 "R4nd0m" None
      Sample.alice_login Sample.a_remote (Sample.fresh Sample.no_backend Sample.store)
    = (Ok s, st') /\
    _internal_get_token_list 2000 (Stored s) st' = (Ok l, st') /\ In s l.
Proof.
  destruct (_internal_new_token Sample.a_hash Sample.by_id 1000 "R4nd0m" None
              Sample.alice_login Sample.a_remote (Sample.fresh Sample.no_backend Sample.store))
    as [[s|e] st'] eqn:Hrun; [|vm_compute in Hrun; discriminate].
  destruct (issued_token_is_listed _ _ _ _ _ _ _ _ _ _ 2000 (Stored s) Hrun)
    as (l & Hl & _ & Hin).
  exists s, st', l. split; [reflexivity|]. split; [exact Hl|].
  apply Hin; [reflexivity|lia].
Defined.

Lemma unknown_token_is_invalid_under_bypass_witness :
  Py.truthy (test_user_not_authorized Sample.bypass_cfg) = true /\
  fst (_internal_authorize Sample.bypass_cfg 2000 (Some "tok-bob") Sample.after_prune)
  = Err (AuthException "Invalid Token or Authorization http header" UNAUTHORIZED).
Proof.
  split; [reflexivity|].
  destruct (unknown_token_is_invalid_under_bypass Sample.bypass_cfg 2000 "tok-bob"
              Sample.after_prune ltac:(discriminate)
              ltac:(intros c Hc; vm_compute in Hc; discriminate) eq_refl)
    as (st' & Hrun & _).
  rewrite Hrun. reflexivity.
Defined.

Lemma revoked_token_is_invalid_witness :
  exists st',
    _internal_del_token "tok-alice" Sample.after_prune
    = (Ok "token 'tok-alice' deleted", st') /\
    _internal_authorize Sample.bypass_cfg 2000 (Some "tok-alice") st'
    = (Err invalid_token, st').
Proof.
  destruct (revoked_token_is_invalid Sample.bypass_cfg Sample.after_prune "tok-alice"
              Sample.alice_session 2000 ltac:(discriminate) eq_refl)
    as (st' & Hdel & _ & _ & Hauth).
  exists st'. split; [exact Hdel|exact Hauth].
Defined.

Lemma del_unknown_token_not_found_witness :
  fst (_internal_del_token "tok-bob" Sample.after_prune)
  = Err (AuthException "Token 'tok-bob' not found" NOT_FOUND).
Proof.
  rewrite (del_unknown_token_not_found Sample.after_prune "tok-bob" eq_refl). reflexivity.
Defined.

End TokenLifecycle.

(** ** The facade: reading tokens, failures of [authorize], the cache *)

Module FacadeExtras.
Import Authenticator TokenSteps TokenFacts FacadeFacts TokenApi FacadeMore.

Section WithBackend.
Context {B : Type} `{Authconn B}.
Implicit Types (st : state B) (cfg : config).

(** X7. [get_token] changes nothing and hands out a session only to its
    owner or to an administrator: whenever it returns a session, the state
    is the one it started from, the session's user is the asking user or
    the asking session is an admin one, and the session is the single one
    the store holds for the id (internal mode) or the one cached under the
    id (delegated mode). *)
Theorem get_token_owner_or_admin :
  forall cfg (g : granted) (token : string) st (v : session) st',
    get_token cfg g token st = (Ok v, st') ->
    st' = st /\
    (username v = granted_username g \/ granted_admin g = true) /\
    if is_internal cfg then Db.tokens_by_id token (db st) = [v]
    else tokens_cache st !! token = Some v.
Proof.
  intros cfg g token st v st' Hrun.
  assert (Howned : forall tv st0, owned g tv st0 = (Ok v, st') ->
            st' = st0 /\ tv = Some v /\
            (username v = granted_username g \/ granted_admin g = true)).
  { intros tv st0. unfold owned, raise, ret. destruct tv as [w|]; [|discriminate].
    destruct (bool_decide (username w = granted_username g)) eqn:Eu;
      destruct (granted_admin g) eqn:Ea; cbn [negb andb]; intros [= <- <-];
      try apply bool_decide_eq_true in Eu; auto. }
  unfold get_token in Hrun. destruct (is_internal cfg).
  - unfold _internal_get_token in Hrun. inv_bind Hrun as tv st1 H1.
    injection H1 as H1 <-. apply Howned in Hrun as (-> & -> & Hown).
    split; [reflexivity|]. split; [exact Hown|].
    destruct (Db.tokens_by_id token (db st)) as [|x [|y l]]; simpl in H1; congruence.
  - inv_bind Hrun as tv st1 H1. apply gets_Ok in H1 as [-> ->].
    apply Howned in Hrun as (-> & Hc & Hown). auto.
Qed.

(** X8. Every authentication failure that leaves [authorize] is a 401 with
    a challenge: when [authorize] raises an AuthException, its code is
    Unauthorized whatever the code of the inner failure was, the session
    cookie is cleared and the WWW-Authenticate header is set to
    Bearer realm=<quote><message><quote>. *)
Theorem authorize_failure_challenge :
  forall cfg (now : Z) (req : request) st (message : string) (http_code : http_status) st',
    authorize cfg now req st = (Err (AuthException message http_code), st') ->
    http_code = UNAUTHORIZED /\
    Py.truthy (session_authorization st') = false /\
    www_authenticate st' = Some ("Bearer realm=" +:+ dquote +:+ message +:+ dquote).
Proof.
  intros cfg now req st message http_code st'. unfold authorize, catch.
  destruct (authorize_try cfg now req st) as [[g|e] st1]; [discriminate|].
  destruct e; try discriminate.
  unfold bind, modify, raise. intros [= <- <- <-]. simpl.
  split; [reflexivity|]. split; [|reflexivity].
  destruct (Py.truthy (session_authorization st1)) eqn:E; [reflexivity|exact E].
Qed.

(** X9. A logged-out session cookie is no token: with the cookie holding
    "logout" and no Bearer header, [authorize] fails with "Needed a token or
    Authorization http header" (outside the internal test bypass), clears
    the cookie and sets the challenge, and does nothing else. *)
Theorem logout_cookie_is_rejected :
  forall cfg (now : Z) (req : request) st,
    session_authorization st = Some "logout" ->
    String.eqb (Py.lower (hd "" (Py.split " " (default "" (authorization req))))) "bearer"
      = false ->
    is_internal cfg = false \/ Py.truthy (test_user_not_authorized cfg) = false ->
    authorize cfg now req st
    = (Err (AuthException "Needed a token or Authorization http header" UNAUTHORIZED),
       set_http None
         (Some ("Bearer realm=" +:+ dquote +:+ "Needed a token or Authorization http header"
                +:+ dquote)) st).
Proof.
  intros cfg now req st Hcookie Hscheme Hmode.
  assert (Hp : presented_token req st = (Ok None, st)).
  { unfold presented_token.
    destruct (Py.truthy (authorization req)).
    - cbv zeta. rewrite Hscheme.
      destruct (String.eqb _ "basic"); cbn [Py.truthy]; unfold bind, gets;
        rewrite Hcookie; reflexivity.
    - cbn [Py.truthy]. unfold bind, gets. rewrite Hcookie. reflexivity. }
  rewrite (authorize_try_Err_eq cfg now req st
             "Needed a token or Authorization http header" UNAUTHORIZED st).
  - rewrite Hcookie. reflexivity.
  - unfold authorize_try. rewrite (bind_eq _ _ _ _ _ Hp).
    destruct (is_internal cfg) eqn:Ei.
    + destruct Hmode as [Hm|Hm]; [discriminate|].
      unfold _internal_authorize, _internal_authorize_try, catch. cbn [Py.truthy negb].
      unfold raise, needed_token. rewrite Hm. reflexivity.
    + reflexivity.
Qed.

(** X10. In delegated mode a request whose permission check fails costs
    its token: once the backend has validated the presented token and the
    check raises an AuthException, [authorize] revokes the token at the
    backend, drops it from the cache and fails with Unauthorized and the
    message of the check. *)
Theorem denied_request_revokes_token :
  forall cfg (now : Z) (req : request) st (token : string) (s : session)
         info (b1 b2 : B) (message : string) (http_code : http_status) st2,
    is_internal cfg = false ->
    presented_token req st = (Ok (Some token), st) ->
    token <> "" ->
    validate_token (backend st) token = (Ok info, b1) ->
    tokens_cache st !! token = Some s ->
    check_permissions s (path_info req) (method req)
      (set_backend b1 (Validate_token token) st)
    = (Err (AuthException message http_code), st2) ->
    revoke_token (backend st2) token = (Ok tt, b2) ->
    exists st',
      authorize cfg now req st = (Err (AuthException message UNAUTHORIZED), st') /\
      tokens_cache st' = delete token (tokens_cache st) /\
      backend st' = b2 /\
      calls st' = (calls st2 ++ [Revoke_token token])%list.
Proof.
  intros cfg now req st token s info b1 b2 message http_code st2
    Hi Hp Hne Hval Hc Hcheck Hrev.
  assert (Hcache2 : tokens_cache st2 = tokens_cache st).
  { apply check_permissions_cache in Hcheck. exact Hcheck. }
  eexists. split.
  - apply (authorize_try_Err_eq cfg now req st message http_code).
    unfold authorize_try. rewrite (bind_eq _ _ _ _ _ Hp). rewrite Hi.
    rewrite (truthy_Some _ Hne). cbn [negb default from_option id].
    unfold catch.
    rewrite (bind_eq _ _ st info (set_backend b1 (Validate_token token) st))
      by (apply invoke_eq, Hval).
    assert (Hcached : cached token (set_backend b1 (Validate_token token) st)
                      = (Ok s, set_backend b1 (Validate_token token) st)).
    { unfold cached, bind, gets. cbn [tokens_cache set_backend]. rewrite Hc. reflexivity. }
    rewrite (bind_eq _ _ _ _ _ Hcached).
    rewrite (bind_Err _ _ _ _ _ Hcheck).
    assert (Hdel : del_token cfg token st2
                   = (Ok ("token '" +:+ token +:+ "' deleted"),
                      set_tokens_cache (delete token (tokens_cache st))
                        (set_backend b2 (Revoke_token token) st2))).
    { unfold del_token. rewrite Hi. unfold catch.
      rewrite (bind_eq _ _ st2 tt (set_backend b2 (Revoke_token token) st2))
        by (apply invoke_eq, Hrev).
      unfold del_cached, bind, gets, modify, ret. cbn [tokens_cache set_backend].
      rewrite Hcache2, Hc. cbn [tokens_cache set_backend]. rewrite Hcache2. reflexivity. }
    rewrite (bind_eq _ _ _ _ _ Hdel). reflexivity.
  - cbn [tokens_cache backend calls set_http set_tokens_cache set_backend]. auto.
Qed.

(** X11. The delegated cache round trip: a session made by [new_token] is
    cached under its id and the store is not touched; [get_token] by the
    session itself returns it; after [del_token] (the backend revoking the
    token) the cache is as it was without the id, and [get_token] fails
    with "token not found". *)
Theorem cached_token_round_trip :
  forall cfg sha256_hexdigest id_field st (now : Z) (token_id : string)
         (sess : option session) (i : indata) (r : remote) (s : session) st',
    is_internal cfg = false ->
    new_token cfg sha256_hexdigest id_field now token_id sess i r st = (Ok s, st') ->
    tokens_cache st' = <[s_id s := s]> (tokens_cache st) /\
    db st' = db st /\
    get_token cfg (Stored s) (s_id s) st' = (Ok s, st') /\
    forall b2,
      revoke_token (backend st') (s_id s) = (Ok tt, b2) ->
      exists st'',
        del_token cfg (s_id s) st' = (Ok ("token '" +:+ s_id s +:+ "' deleted"), st'') /\
        tokens_cache st'' = delete (s_id s) (tokens_cache st) /\
        get_token cfg (Stored s) (s_id s) st'' = (Err token_not_found, st'').
Proof.
  intros cfg sha idf st now token_id sess i r s st' Hi Hrun.
  unfold new_token in Hrun. rewrite Hi in Hrun.
  inv_bind Hrun as ti st1 H1. apply invoke_Ok in H1 as (b' & Hauth & ->).
  inv_bind Hrun as tid st2 H2. apply lift_Ok in H2 as [_ ->].
  inv_bind Hrun as pid st3 H3. apply lift_Ok in H3 as [_ ->].
  inv_bind Hrun as uname st4 H4.
  assert (st4 = set_backend b' (Authenticate (in_username i) (in_username i)
            match sess with Some s0 => session_get_token s0 | None => None end
            (in_project_id i)) st) as ->.
  { destruct (Py.truthy (ti_username ti)); [unfold ret in H4; congruence|].
    destruct sess; [unfold ret in H4; congruence|discriminate]. }
  inv_bind Hrun as x5 st5 H5. unfold modify in H5. injection H5 as _ <-.
  unfold ret in Hrun. injection Hrun as <- <-.
  cbn [s_id tokens_cache db set_tokens_cache set_backend].
  split; [reflexivity|]. split; [reflexivity|].
  assert (Hget : forall st0 (c : gmap string session) v,
            tokens_cache st0 !! tid = c !! tid ->
            c !! tid = Some v ->
            get_token cfg (Stored v) tid st0 = (Ok v, st0)).
  { intros st0 c v Hc Hv. unfold get_token. rewrite Hi. unfold bind, gets, owned.
    rewrite Hc, Hv. cbn [granted_username].
    rewrite bool_decide_eq_true_2 by reflexivity. reflexivity. }
  split.
  - eapply Hget; [reflexivity|]. cbn [tokens_cache set_tokens_cache].
    apply lookup_insert_eq.
  - intros b2 Hrev. eexists. split; [|split].
    + unfold del_token. rewrite Hi. unfold catch.
      erewrite bind_eq by (apply invoke_eq, Hrev).
      unfold del_cached, bind, gets, modify, ret. cbn [tokens_cache set_backend set_tokens_cache].
      rewrite lookup_insert_eq. reflexivity.
    + cbn [tokens_cache set_tokens_cache set_backend]. apply delete_insert_eq.
    + unfold get_token. rewrite Hi. unfold bind, gets, owned.
      cbn [tokens_cache set_tokens_cache set_backend]. rewrite lookup_delete_eq. reflexivity.
Qed.

End WithBackend.

Lemma get_token_owner_or_admin_witness :
  get_token Sample.internal_cfg (Stored Sample.bob_session) "tok-alice" Sample.after_prune
  = (Err needed_admin, Sample.after_prune) /\
  exists v,
    get_token Sample.internal_cfg (Stored Sample.alice_session) "tok-alice" Sample.after_prune
    = (Ok v, Sample.after_prune) /\
    username v = Some "alice".
Proof.
  split; [vm_compute; reflexivity|].
  destruct (get_token Sample.internal_cfg (Stored Sample.alice_session) "tok-alice"
              Sample.after_prune) as [[v|e] st'] eqn:Hrun; [|vm_compute in Hrun; discriminate].
  destruct (get_token_owner_or_admin _ _ _ _ _ _ Hrun) as (-> & _ & Hv).
  cbn [is_internal Sample.internal_cfg authentication_backend String.eqb Ascii.eqb Bool.eqb] in Hv.
  exists v. split; [reflexivity|].
  vm_compute in Hv. injection Hv as <-. reflexivity.
Defined.

Lemma authorize_failure_challenge_witness :
  exists message st',
    authorize Sample.keystone_cfg 2000 (Sample.get_vnfd "Bearer tok-bob") Sample.delegated
    = (Err (AuthException message UNAUTHORIZED), st') /\
    www_authenticate st' = Some ("Bearer realm=" +:+ dquote +:+ message +:+ dquote).
Proof.
  destruct (authorize Sample.keystone_cfg 2000 (Sample.get_vnfd "Bearer tok-bob")
              Sample.delegated) as [[g|e] st'] eqn:Hrun; [vm_compute in Hrun; discriminate|].
  destruct e as [message http_code| | | | | |]; try (vm_compute in Hrun; discriminate).
  destruct (authorize_failure_challenge _ _ _ _ _ _ _ Hrun) as (-> & _ & Hw).
  exists message, st'. split; [reflexivity|exact Hw].
Defined.

Lemma logout_cookie_is_rejected_witness :
  fst (authorize Sample.keystone_cfg 2000
         {| authorization := None; allow_basic_authentication := false;
            path_info := "/vnfds"; method := "GET" |}
         (set_http (Some "logout") None Sample.delegated))
  = Err (AuthException "Needed a token or Authorization http header" UNAUTHORIZED).
Proof.
  rewrite (logout_cookie_is_rejected Sample.keystone_cfg 2000
             {| authorization := None; allow_basic_authentication := false;
                path_info := "/vnfds"; method := "GET" |}
             (set_http (Some "logout") None Sample.delegated)
             eq_refl eq_refl (or_introl eq_refl)).
  reflexivity.
Defined.

Lemma denied_request_revokes_token_witness :
  exists message st',
    authorize Sample.keystone_cfg 2000
      {| authorization := Some "Bearer tok-alice"; allow_basic_authentication := false;
         path_info := "/nsds"; method := "GET" |} Sample.delegated
    = (Err (AuthException message UNAUTHORIZED), st') /\
    tokens_cache st' = delete "tok-alice" (tokens_cache Sample.delegated) /\
    calls st' = [Validate_token "tok-alice"; Revoke_token "tok-alice"].
Proof.
  destruct (check_permissions Sample.alice_session "/nsds" "GET"
              (set_backend Sample.a_keystone (Validate_token "tok-alice") Sample.delegated))
    as [[u|e] st2] eqn:Hcheck; [vm_compute in Hcheck; discriminate|].
  destruct e as [message http_code| | | | | |]; try (vm_compute in Hcheck; discriminate).
  destruct (denied_request_revokes_token Sample.keystone_cfg 2000
              {| authorization := Some "Bearer tok-alice"; allow_basic_authentication := false;
                 path_info := "/nsds"; method := "GET" |} Sample.delegated
              "tok-alice" Sample.alice_session None Sample.a_keystone
              (snd (revoke_token (backend st2) "tok-alice")) message http_code st2
              eq_refl ltac:(vm_compute; reflexivity) ltac:(discriminate) eq_refl
              ltac:(vm_compute; reflexivity) Hcheck eq_refl)
    as (st' & Hrun & Hcache & _ & Hcalls).
  exists message, st'. split; [exact Hrun|]. split; [exact Hcache|].
  rewrite Hcalls. vm_compute in Hcheck. injection Hcheck as _ _ <-. reflexivity.
Defined.

Lemma cached_token_round_trip_witness :
  exists s st',
    new_token Sample.keystone_cfg Sample.a_hash Sample.by_id 1000 "R4nd0m" None
      Sample.svc_login Sample.a_remote (Sample.fresh Sample.skewed_keystone Sample.store)
    = (Ok s, st') /\
    get_token Sample.keystone_cfg (Stored s) (s_id s) st' = (Ok s, st') /\
    exists st'',
      del_token Sample.keystone_cfg (s_id s) st'
      = (Ok ("token '" +:+ s_id s +:+ "' deleted"), st'') /\
      get_token Sample.keystone_cfg (Stored s) (s_id s) st'' = (Err token_not_found, st'').
Proof.
  destruct (new_token Sample.keystone_cfg Sample.a_hash Sample.by_id 1000 "R4nd0m" None
              Sample.svc_login Sample.a_remote (Sample.fresh Sample.skewed_keystone Sample.store))
    as [[s|e] st'] eqn:Hrun; [|vm_compute in Hrun; discriminate].
  destruct (cached_token_round_trip Sample.keystone_cfg _ _ _ _ _ _ _ _ _ _ eq_refl Hrun)
    as (_ & _ & Hget & Hdel).
  exists s, st'. split; [reflexivity|]. split; [exact Hget|].
  destruct (revoke_token (backend st') (s_id s)) as [[[]|e] b2] eqn:Hrevoke;
    [|simpl in Hrevoke; discriminate].
  destruct (Hdel b2 eq_refl) as (st'' & Hd & _ & Hg).
  exists st''. split; [exact Hd|exact Hg].
Defined.

End FacadeExtras.

(** ** The URL resolver *)

Module UrlExtras.
Import Url UrlSpec UrlFacts UrlMore UrlOutcome.

(** X12. Whatever [_normalize_url] returns is an entry of the resource
    map for the request's method: the returned key is a key of the map, and
    the method part of the key contains the request's method. *)
Theorem resolved_key_is_an_entry :
  forall (mapping : dict string) (url method key : string) (parameters : dict string),
    _normalize_url mapping url method = Ok (key, parameters) ->
    (exists operation, dict_get key mapping = Some operation) /\
    exists m, key_method key = Ok m /\ Py.contains method m = true.
Proof.
  intros mapping url method key parameters Hrun. unfold _normalize_url in Hrun.
  destruct (filter_by_method method (dict_keys mapping)) as [filtered|] eqn:Ef;
    [|discriminate].
  simpl in Hrun.
  destruct (scan _ 0 _ filtered) as [out|] eqn:Es; [|discriminate]. simpl in Hrun.
  destruct out as [|k [|k' out]]; try discriminate.
  destruct (key_url k) as [u|]; [|discriminate]. simpl in Hrun.
  destruct (extract _ 0 _ []) as [ps|]; [|discriminate]. simpl in Hrun.
  injection Hrun as <- <-.
  assert (Hin : In k filtered) by (eapply scan_In; [exact Es|left; reflexivity]).
  destruct (filter_by_method_In _ _ _ _ Ef Hin) as (Hkeys & Hm).
  split; [|exact Hm].
  destruct (dict_get k mapping) as [op|] eqn:Eg; [eauto|].
  apply dict_get_None in Eg. contradiction.
Qed.

(** X13. The query string plays no part in the resolution: for a URL
    without a question mark, appending "?" and any text gives the same key
    and parameters, or a failure of the same kind and HTTP code (the
    message quotes the URL as it was given). *)
Theorem query_string_is_ignored :
  forall (mapping : dict string) (url q method : string),
    Py.contains "?" url = false ->
    outcome (_normalize_url mapping (url +:+ String "?" q) method)
    = outcome (_normalize_url mapping url method).
Proof.
  intros mapping url q method Hc.
  destruct (strip_query_append url q Hc) as [Hq Hu].
  unfold _normalize_url. rewrite Hq, Hu.
  destruct (filter_by_method method (dict_keys mapping)) as [filtered|]; [|reflexivity].
  simpl.
  destruct (scan _ 0 _ filtered) as [out|]; [|reflexivity]. simpl.
  destruct out as [|k [|k' out]]; reflexivity.
Qed.

(** X14. On a resource map none of whose keys ends in a greedy
    placeholder, [_normalize_url] agrees with template matching: it fails
    with "Cannot make an authorization decision. URL not found" when no entry
    matches the method and the URL segment by segment, returns the entry
    when exactly one matches, and fails with "multiple keys found" when
    several do. *)
Theorem plain_maps_resolve_by_template :
  forall (mapping : dict string) (url method : string),
    Forall plain_key (dict_keys mapping) ->
    match matching mapping method url with
    | [] => _normalize_url mapping url method = Err (not_found url)
    | [key] => exists parameters, _normalize_url mapping url method = Ok (key, parameters)
    | _ => _normalize_url mapping url method = Err (multiple_found url)
    end.
Proof. intros mapping url method. apply resolver_agrees_on_plain_maps. Qed.

Lemma resolved_key_is_an_entry_witness :
  exists key parameters,
    _normalize_url Sample.vnfd_map "/vnfds/abc123" "GET" = Ok (key, parameters) /\
    exists operation, dict_get key Sample.vnfd_map = Some operation.
Proof.
  destruct (_normalize_url Sample.vnfd_map "/vnfds/abc123" "GET") as [[key parameters]|e] eqn:Hrun;
    [|vm_compute in Hrun; discriminate].
  exists key, parameters. split; [reflexivity|].
  exact (proj1 (resolved_key_is_an_entry _ _ _ _ _ Hrun)).
Defined.

Lemma query_string_is_ignored_witness :
  Py.contains "?" "/vnfds/abc123" = false /\
  outcome (_normalize_url Sample.vnfd_map ("/vnfds/abc123" +:+ "?verbose=1") "GET")
  = outcome (_normalize_url Sample.vnfd_map "/vnfds/abc123" "GET").
Proof.
  split; [reflexivity|].
  exact (query_string_is_ignored Sample.vnfd_map "/vnfds/abc123" "verbose=1" "GET" eq_refl).
Defined.

Lemma plain_maps_resolve_by_template_witness :
  Forall plain_key (dict_keys Sample.vnfd_map) /\
  exists parameters,
    _normalize_url Sample.vnfd_map "/vnfds/abc123" "GET" = Ok ("GET /vnfds/<id>", parameters).
Proof.
  assert (Hplain : Forall plain_key (dict_keys Sample.vnfd_map)).
  { repeat constructor.
    - exists "GET", "/vnfds", []. repeat split; [|discriminate].
      vm_compute. intuition discriminate.
    - exists "GET", "/vnfds/<id>", []. repeat split; [|discriminate].
      vm_compute. intuition discriminate. }
  split; [exact Hplain|].
  exact (plain_maps_resolve_by_template Sample.vnfd_map "/vnfds/abc123" "GET" Hplain).
Defined.

End UrlExtras.

(** ** The catalog built by [init_db] *)

Module CatalogExtras.
Import Catalog Policy CatalogFacts InitDb InitDbFacts Similar CatalogSpec CatalogMore.

(** X15. What [init_db] reads from a role of the role map is well formed:
    when the operations of a role are accepted, the overrides kept for the
    stored record have pairwise distinct keys, none of them empty, ":" or
    ending in a colon, each with the boolean the document gives that very
    key, and the root default, when one was read, is the boolean of the
    key ":". *)
Theorem role_operations_well_formed :
  forall (ops : dict yaml) (role_ops : dict value) (root : option bool),
    role_operations ops [] None = Ok (role_ops, root) ->
    List.NoDup (dict_keys role_ops) /\
    (forall k v, In (k, v) role_ops ->
       k <> "" /\ k <> ":" /\ ends_with_colon k = false /\
       exists b, v = VBool b /\ In (k, YBool b) ops) /\
    (forall b, root = Some b -> In (":", YBool b) ops).
Proof.
  intros ops role_ops root Hrun.
  destruct (role_operations_inv _ _ _ _ _ Hrun) as (Hnd & Hin & Hroot).
  split; [apply Hnd; constructor|]. split.
  - intros k v Hkv. destruct (Hin _ Hkv) as [[]|Hk]. exact Hk.
  - intros b ->. destruct Hroot as [|(b' & [= ->] & Hb)]; [discriminate|exact Hb].
Qed.

(** X16. Loading the resource map: for a document with distinct resources,
    the operation list has no duplicates and holds exactly the operations
    of the document, every resource of the document is bound to its
    operation, and the bindings of other resources are kept. *)
Theorem load_resources_spec :
  forall (doc : dict string) (m0 : dict string) (ops : list string) (mapping : dict string),
    List.NoDup (dict_keys doc) ->
    load_resources doc [] m0 = (ops, mapping) ->
    List.NoDup ops /\
    (forall op, In op ops <-> exists res, In (res, op) doc) /\
    (forall res op, In (res, op) doc -> dict_get res mapping = Some op) /\
    (forall res, ~ In res (dict_keys doc) -> dict_get res mapping = dict_get res m0).
Proof.
  intros doc m0 ops mapping Hdoc Hrun.
  destruct (load_resources_inv _ _ _ _ _ Hrun) as (Hnd & Hops & Hmap).
  split; [apply Hnd; constructor|]. split; [|split].
  - intros op. rewrite Hops. split; [intros [[]|Hx]; exact Hx|auto].
  - intros res op Hin. rewrite (Hmap Hdoc res). rewrite (In_dict_get _ _ _ Hdoc Hin). reflexivity.
  - intros res Hres. rewrite (Hmap Hdoc res). apply dict_get_None in Hres. rewrite Hres.
    reflexivity.
Qed.

Section WithBackend.
Context {B : Type} `{Authconn B}.
Implicit Types (st : state B) (cfg : config).

(** X17. The reverse index lists, for every operation, the roles that may
    perform it: after a successful [init_db] in delegated mode, the entry
    of every operation of the resource map is the list of names of the
    stored roles whose resolved permission for it is True, in the order of
    the stored records. *)
Theorem init_db_index :
  forall cfg (time : nat -> Z) (fresh_id : nat -> string) (resources : dict string)
         (roles : list role_with_operations) st st' (resource op : string),
    authentication_backend cfg <> "internal" ->
    init_db cfg time fresh_id resources roles st = (Ok tt, st') ->
    In (resource, op) resources ->
    dict_get op (operation_to_allowed_roles st')
    = Some (allowed_roles op (roles_operations (db st'))).
Proof.
  intros cfg time fresh_id resources roles st st' resource op Hmode Hrun Hin.
  apply init_db_Ok in Hrun as (ops & mapping & s1 & perms & Hl & _ & Hb & _ & Hix & Hdb);
    [|exact Hmode].
  destruct (load_resources_inv _ _ _ _ _ Hl) as (Hnd & Hops & _).
  specialize (Hnd (List.NoDup_nil _)).
  destruct (index_lists_allowed_roles ops _ perms Hnd Hb) as (Hkeys & Hget).
  assert (Hop : In op ops) by (apply Hops; right; eauto).
  rewrite Hix, dict_get_store by (rewrite Hkeys; exact Hnd).
  rewrite (Hget op Hop), Hdb. reflexivity.
Qed.

(** X18. Running [init_db] a second time changes nothing: when a run
    succeeds and a second run on the state it left, with the same resource
    and role maps, succeeds as well, the index, the resource map and the
    stored role records are the same after the second run as after the
    first, whatever the clock and the identifiers of the second run. *)
Theorem init_db_idempotent :
  forall cfg (time1 time2 : nat -> Z) (fresh1 fresh2 : nat -> string)
         (resources : dict string) (roles : list role_with_operations) st st1 st2,
    List.NoDup (dict_keys resources) ->
    init_db cfg time1 fresh1 resources roles st = (Ok tt, st1) ->
    init_db cfg time2 fresh2 resources roles st1 = (Ok tt, st2) ->
    operation_to_allowed_roles st2 = operation_to_allowed_roles st1 /\
    resources_to_operations_mapping st2 = resources_to_operations_mapping st1 /\
    roles_operations (db st2) = roles_operations (db st1).
Proof.
  intros cfg time1 time2 fresh1 fresh2 resources roles st st1 st2 Hdoc H1 H2.
  destruct (String.eqb_spec (authentication_backend cfg) "internal") as [Hint|Hmode].
  { rewrite init_db_eq in H2. rewrite Hint in H2. simpl in H2. injection H2 as <-. auto. }
  apply init_db_Ok in H1 as (ops & mapping & s1 & perms & Hl & Hc & Hb & Hm1 & Hix1 & Hdb1);
    [|exact Hmode].
  apply init_db_Ok in H2 as (ops2 & mapping2 & s2 & perms2 & Hl2 & Hc2 & Hb2 & Hm2 & Hix2 & Hdb2);
    [|exact Hmode].
  destruct (load_resources_inv _ _ _ _ _ Hl) as (Hnd & Hops & Hmap).
  specialize (Hnd (List.NoDup_nil _)).
  (* the second load leaves the operations and the map as they are *)
  assert (Hsame : ops2 = ops /\ mapping2 = mapping).
  { rewrite Hm1 in Hl2. split.
    - change ops2 with (fst (ops2, mapping2)). rewrite <- Hl2.
      change ops with (fst (ops, mapping)). rewrite <- Hl. apply load_resources_fst.
    - change mapping2 with (snd (ops2, mapping2)). rewrite <- Hl2.
      apply load_resources_fixed. intros res op Hin.
      rewrite (Hmap Hdoc res), (In_dict_get _ _ _ Hdoc Hin). reflexivity. }
  destruct Hsame as [-> ->].
  (* no record is added by the second run *)
  assert (Hrec : roles_operations (db s2) = roles_operations (db st1)).
  { destruct (length (roles_operations (db st1)) =? 0)%nat eqn:Elen.
    - rewrite Hdb1 in Elen. apply Nat.eqb_eq, length_zero_iff_nil in Elen.
      destruct (length (roles_operations (db st)) =? 0)%nat eqn:Elen0.
      + assert (Hs : Forall2 record_sim (roles_operations (db s1)) (roles_operations (db s2))).
        { eapply create_roles_sim; [|exact Hc|exact Hc2]. cbn [db set_mapping].
          apply Nat.eqb_eq, length_zero_iff_nil in Elen0. rewrite Elen0, Hdb1, Elen.
          constructor. }
        rewrite Elen in Hs. inversion Hs. rewrite Hdb1, Elen. reflexivity.
      + injection Hc as <-. cbn [db set_mapping] in Elen.
        apply Nat.eqb_neq in Elen0. rewrite Elen in Elen0. contradiction.
    - injection Hc2 as <-. reflexivity. }
  rewrite Hrec, Hdb1, Hb in Hb2. injection Hb2 as <-.
  destruct (index_lists_allowed_roles ops _ perms Hnd Hb) as (Hkeys & _).
  split; [|split].
  - rewrite Hix2, Hix1. apply store_permissions_idempotent. rewrite Hkeys. exact Hnd.
  - congruence.
  - rewrite Hdb2. exact Hrec.
Qed.

End WithBackend.

Lemma role_operations_well_formed_witness :
  exists role_ops root,
    role_operations
      [(":", YBool false); ("vnfds", YBool true); ("vnfds:id:delete", YBool false)] [] None
    = Ok (role_ops, root) /\
    List.NoDup (dict_keys role_ops) /\ root = Some false.
Proof.
  destruct (role_operations
              [(":", YBool false); ("vnfds", YBool true); ("vnfds:id:delete", YBool false)]
              [] None) as [[role_ops root]|e] eqn:Hrun; [|vm_compute in Hrun; discriminate].
  exists role_ops, root. split; [reflexivity|].
  split; [exact (proj1 (role_operations_well_formed _ _ _ Hrun))|].
  vm_compute in Hrun. injection Hrun as _ <-. reflexivity.
Defined.

Lemma load_resources_spec_witness :
  List.NoDup (dict_keys Sample.vnfd_map) /\
  forall op, In op (fst (load_resources Sample.vnfd_map [] []))
             <-> exists res, In (res, op) Sample.vnfd_map.
Proof.
  assert (Hnd : List.NoDup (dict_keys Sample.vnfd_map)).
  { repeat constructor; simpl; intuition discriminate. }
  split; [exact Hnd|].
  destruct (load_resources Sample.vnfd_map [] []) as [ops mapping] eqn:Hrun.
  exact (proj1 (proj2 (load_resources_spec _ _ _ _ Hnd Hrun))).
Defined.

Lemma init_db_index_witness :
  exists st',
    init_db Sample.keystone_cfg (fun _ => 1000) (fun _ => "uuid-a")
      Sample.vnfd_map Sample.role_map (Sample.fresh Sample.a_keystone Sample.store)
    = (Ok tt, st') /\
    dict_get "vnfds:id" (operation_to_allowed_roles st')
    = Some (allowed_roles "vnfds:id" (roles_operations (db st'))).
Proof.
  destruct (init_db Sample.keystone_cfg (fun _ => 1000) (fun _ => "uuid-a")
              Sample.vnfd_map Sample.role_map (Sample.fresh Sample.a_keystone Sample.store))
    as [[[]|e] st'] eqn:Hrun; [|vm_compute in Hrun; discriminate].
  exists st'. split; [reflexivity|].
  apply (init_db_index Sample.keystone_cfg (fun _ => 1000) (fun _ => "uuid-a")
           Sample.vnfd_map Sample.role_map (Sample.fresh Sample.a_keystone Sample.store) st'
           "GET /vnfds/<id>" "vnfds:id"); [discriminate|exact Hrun|simpl; auto].
Defined.

Lemma init_db_idempotent_witness :
  exists st1 st2,
    init_db Sample.keystone_cfg (fun _ => 1000) (fun _ => "uuid-a")
      Sample.vnfd_map Sample.role_map (Sample.fresh Sample.a_keystone Sample.store)
    = (Ok tt, st1) /\
    init_db Sample.keystone_cfg (fun n => 2000 + Z.of_nat n) (fun _ => "uuid-b")
      Sample.vnfd_map Sample.role_map st1
    = (Ok tt, st2) /\
    operation_to_allowed_roles st2 = operation_to_allowed_roles st1 /\
    roles_operations (db st2) = roles_operations (db st1).
Proof.
  destruct (init_db Sample.keystone_cfg (fun _ => 1000) (fun _ => "uuid-a")
              Sample.vnfd_map Sample.role_map (Sample.fresh Sample.a_keystone Sample.store))
    as [[[]|e1] st1] eqn:H1; [|vm_compute in H1; discriminate].
  destruct (init_db Sample.keystone_cfg (fun n => 2000 + Z.of_nat n) (fun _ => "uuid-b")
              Sample.vnfd_map Sample.role_map st1)
    as [[[]|e2] st2] eqn:H2.
  - exists st1, st2. split; [reflexivity|]. split; [exact H2|].
    assert (Hnd : List.NoDup (dict_keys Sample.vnfd_map)).
    { repeat constructor; simpl; intuition discriminate. }
    destruct (init_db_idempotent Sample.keystone_cfg _ _ _ _ _ _ _ _ _ Hnd H1 H2)
      as (Hi & _ & Hr).
    split; [exact Hi|exact Hr].
  - exfalso. vm_compute in H1. injection H1 as <-. vm_compute in H2. discriminate.
Defined.

End CatalogExtras.

(** ** Merging documents: [_deep_update] *)

Module MergeExtras.
Import Merge MergeSpec MergeFacts.

Section WithValues.
Context {A : Type}.

(** X19. [_deep_update] key by key, for dictionaries with distinct keys:
    a key the reference does not mention keeps what it had; a key the
    reference gives [None] is absent afterwards; a key the reference gives
    a value that is no dictionary holds that value; a key the reference
    gives a dictionary holds the update, by that dictionary, of the
    dictionary found under the key, or of a copy of the reference's
    dictionary when the key was absent or held something else. *)
Theorem deep_update_by_key :
  forall (dict_to_change dict_reference : dict (json A)) (k : string),
    List.NoDup (dict_keys dict_reference) ->
    List.NoDup (dict_keys dict_to_change) ->
    dict_get k (_deep_update dict_to_change dict_reference)
    = match dict_get k dict_reference with
      | None => dict_get k dict_to_change
      | Some JNone => None
      | Some (JOther a) => Some (JOther a)
      | Some (JDict sub) =>
          Some (JDict (_deep_update
                         match dict_get k dict_to_change with
                         | Some (JDict current) => current
                         | _ => sub
                         end sub))
      end.
Proof.
  intros dict_to_change dict_reference k Hr Hc.
  unfold _deep_update. rewrite deep_update_loop.
  apply update_all_get; assumption.
Qed.

(** X20. Applying the same reference twice is the same as applying it
    once, for documents whose dictionaries have distinct keys at every
    depth. *)
Theorem deep_update_idempotent :
  forall (dict_to_change dict_reference : dict (json A)),
    well_formed (JDict dict_reference) ->
    well_formed (JDict dict_to_change) ->
    _deep_update (_deep_update dict_to_change dict_reference) dict_reference
    = _deep_update dict_to_change dict_reference.
Proof.
  intros dict_to_change dict_reference Hr Hc. unfold _deep_update.
  apply deep_update_twice; assumption.
Qed.


End WithValues.

Lemma sample_documents_well_formed :
  well_formed (JDict EngineSample.patch) /\ well_formed (JDict EngineSample.descriptor).
Proof.
  split; repeat (constructor; simpl); intuition discriminate.
Qed.

Lemma deep_update_by_key_witness :
  dict_get "vdu" (_deep_update EngineSample.descriptor EngineSample.patch)
  = Some (JDict [("cpu", JOther "4")]) /\
  dict_get "description" (_deep_update EngineSample.descriptor EngineSample.patch) = None.
Proof.
  assert (Hp : List.NoDup (dict_keys EngineSample.patch))
    by (repeat constructor; simpl; intuition discriminate).
  assert (Hd : List.NoDup (dict_keys EngineSample.descriptor))
    by (repeat constructor; simpl; intuition discriminate).
  split.
  - rewrite (deep_update_by_key EngineSample.descriptor EngineSample.patch "vdu" Hp Hd).
    reflexivity.
  - rewrite (deep_update_by_key EngineSample.descriptor EngineSample.patch "description" Hp Hd).
    reflexivity.
Defined.

Lemma deep_update_idempotent_witness :
  _deep_update EngineSample.descriptor EngineSample.patch = EngineSample.patched_descriptor /\
  _deep_update EngineSample.patched_descriptor EngineSample.patch
  = EngineSample.patched_descriptor.
Proof.
  assert (H1 : _deep_update EngineSample.descriptor EngineSample.patch
               = EngineSample.patched_descriptor) by reflexivity.
  split; [exact H1|].
  rewrite <- H1.
  exact (deep_update_idempotent EngineSample.descriptor EngineSample.patch
           (proj1 sample_documents_well_formed) (proj2 sample_documents_well_formed)).
Defined.


End MergeExtras.

(** ** The token table of the Engine *)

Module EngineExtras.
Import Merge MergeFacts Engine EngineFacts.

(** X22. Issue, then validate, in the Engine: when [new_token] succeeds for
    a non-empty token id, [authorize] returns the very session that was
    issued, at any time up to its expiry, also when the table already held
    a session under that id; the store and the sessions of the other ids
    are untouched, and the token list of the session holds it. *)
Theorem engine_issue_then_authorize :
  forall cfg sha256_hexdigest (now : Z) (token_id : string) (sess : option engine_session)
         (i : indata) (r : remote) (e : engine) (s : session) (e' : engine) (now2 : Z),
    token_id <> "" ->
    new_token sha256_hexdigest now token_id sess i r e = (Return s, e') ->
    now2 <= now + 3600 ->
    authorize cfg now2 (Some token_id) e' = (Return (Session s), e') /\
    e_db e' = e_db e /\
    (forall t, t <> token_id -> dict_get t (e_tokens e') = dict_get t (e_tokens e)) /\
    In s (get_token_list (Session s) e').
Proof.
  intros cfg sha now token_id sess i r e s e' now2 Hne Hrun Hnow.
  apply new_token_Return in Hrun as (-> & _ & _ & _ & Hexp & _).
  assert (Hget : dict_get token_id (e_tokens (set_tokens (dict_set token_id s (e_tokens e)) e))
                 = Some s).
  { simpl. rewrite dict_get_set, String.eqb_refl. reflexivity. }
  split; [apply authorize_known; [exact Hne|exact Hget|lia]|].
  split; [reflexivity|]. split.
  - intros t Ht. simpl. rewrite dict_get_set.
    destruct (String.eqb_spec token_id t); congruence.
  - unfold get_token_list. apply filter_In. split.
    + apply dict_get_In in Hget. apply (in_map snd) in Hget. exact Hget.
    + apply bool_decide_eq_true. reflexivity.
Qed.


(** X24. Delete, then look up, in the Engine: deleting a token of the
    table answers "token '<id>' deleted" and leaves the other tokens as they
    were; after that [get_token] fails with "token not found" for every
    asking session, and [authorize] fails with "Invalid token ..." unless the
    test bypass is configured. *)
Theorem engine_deleted_token_is_gone :
  forall cfg (now : Z) (token_id : string) (s : session) (e : engine),
    List.NoDup (dict_keys (e_tokens e)) ->
    token_id <> "" ->
    dict_get token_id (e_tokens e) = Some s ->
    exists e',
      del_token token_id e = (Return ("token '" +:+ token_id +:+ "' deleted"), e') /\
      (forall t, t <> token_id -> dict_get t (e_tokens e') = dict_get t (e_tokens e)) /\
      (forall g, get_token g token_id e'
                 = Raise (EngineException "token not found" NOT_FOUND)) /\
      (Py.truthy (test_user_not_authorized cfg) = false ->
       authorize cfg now (Some token_id) e' = (Raise invalid_token, e')).
Proof.
  intros cfg now token_id s e Hnd Hne Hget.
  exists (set_tokens (dict_del token_id (e_tokens e)) e).
  assert (Hgone : dict_get token_id (dict_del token_id (e_tokens e)) = None)
    by (apply dict_get_del_same, Hnd).
  split; [unfold del_token; rewrite Hget; reflexivity|].
  split; [intros t Ht; simpl; apply dict_get_del_other, Ht|].
  split.
  - intros g. unfold get_token. simpl. rewrite Hgone. reflexivity.
  - intros Hby. rewrite authorize_unknown by assumption. rewrite Hby. reflexivity.
Qed.

(** X25. An expired token is reported once: without the test bypass,
    [authorize] of a token whose session has expired fails with "Expired
    Token ..." and removes the session from the table, so that the next
    [authorize] of the same token fails with "Invalid token ..." and
    [get_token] with "token not found". *)
Theorem engine_expired_token_is_evicted :
  forall cfg (now : Z) (token_id : string) (s : session) (e : engine),
    List.NoDup (dict_keys (e_tokens e)) ->
    token_id <> "" ->
    dict_get token_id (e_tokens e) = Some s ->
    expires s < now ->
    Py.truthy (test_user_not_authorized cfg) = false ->
    exists e',
      authorize cfg now (Some token_id) e = (Raise expired_token, e') /\
      (forall now2, authorize cfg now2 (Some token_id) e' = (Raise invalid_token, e')) /\
      (forall g, get_token g token_id e'
                 = Raise (EngineException "token not found" NOT_FOUND)) /\
      (forall t, t <> token_id -> dict_get t (e_tokens e') = dict_get t (e_tokens e)).
Proof.
  intros cfg now token_id s e Hnd Hne Hget Hexp Hby.
  exists (set_tokens (dict_del token_id (e_tokens e)) e).
  assert (Hgone : dict_get token_id (dict_del token_id (e_tokens e)) = None)
    by (apply dict_get_del_same, Hnd).
  split.
  - unfold authorize, authorize_try.
    rewrite (TokenFacts.truthy_Some token_id Hne). simpl. rewrite Hget.
    destruct (Z.ltb_spec (expires s) now); [|lia]. rewrite Hby. reflexivity.
  - split; [|split].
    + intros now2. rewrite authorize_unknown by assumption. rewrite Hby. reflexivity.
    + intros g. unfold get_token. simpl. rewrite Hgone. reflexivity.
    + intros t Ht. simpl. apply dict_get_del_other, Ht.
Qed.

(** X26. [get_token] of the Engine hands out a session of the table only
    to its owner or to an administrator; for the session of the test
    bypass, which carries no ["admin"], asking for the token of another
    user ends in a KeyError and not in an EngineException. *)
Theorem engine_get_token_owner_or_admin :
  forall (g : engine_session) (token_id : string) (e : engine),
    (forall v, get_token g token_id e = Return v ->
       dict_get token_id (e_tokens e) = Some v /\
       (username v = session_username g \/ session_admin g = Some true)) /\
    (forall id project_id user v,
       g = Fake_session id project_id user ->
       dict_get token_id (e_tokens e) = Some v ->
       username v <> Some user ->
       get_token g token_id e = Raise (Uncaught KeyError)).
Proof.
  intros g token_id e. split.
  - intros v. unfold get_token.
    destruct (dict_get token_id (e_tokens e)) as [token_value|]; [|discriminate].
    destruct (bool_decide (username token_value = session_username g)) eqn:Eu.
    + intros [= ->]. apply bool_decide_eq_true in Eu. auto.
    + destruct (session_admin g) as [[|]|]; try discriminate.
      intros [= ->]. auto.
  - intros id project_id user v -> Hget Hu. unfold get_token. rewrite Hget. simpl.
    destruct (bool_decide (username v = Some user)) eqn:Eu; [|reflexivity].
    apply bool_decide_eq_true in Eu. contradiction.
Qed.

Lemma engine_issue_then_authorize_witness :
  exists s e',
    new_token Sample.a_hash 1000 "R4nd0m" None Sample.alice_login Sample.a_remote
      EngineSample.an_engine
    = (Return s, e') /\
    authorize Sample.internal_cfg 2000 (Some "R4nd0m") e' = (Return (Session s), e') /\
    dict_get "tok-alice" (e_tokens e') = Some Sample.alice_session.
Proof.
  destruct (new_token Sample.a_hash 1000 "R4nd0m" None Sample.alice_login Sample.a_remote
              EngineSample.an_engine) as [[s|x] e'] eqn:Hrun;
    [|vm_compute in Hrun; discriminate].
  destruct (engine_issue_then_authorize Sample.internal_cfg Sample.a_hash 1000 "R4nd0m" None
              Sample.alice_login Sample.a_remote EngineSample.an_engine s e' 2000
              ltac:(discriminate) Hrun ltac:(lia)) as (Hauth & _ & Hother & _).
  exists s, e'. split; [reflexivity|]. split; [exact Hauth|].
  rewrite (Hother "tok-alice" ltac:(discriminate)). reflexivity.
Defined.


Lemma engine_deleted_token_is_gone_witness :
  exists e',
    del_token "tok-alice" EngineSample.an_engine = (Return "token 'tok-alice' deleted", e') /\
    get_token (Session Sample.alice_session) "tok-alice" e'
    = Raise (EngineException "token not found" NOT_FOUND) /\
    authorize Sample.internal_cfg 2000 (Some "tok-alice") e' = (Raise invalid_token, e').
Proof.
  destruct (engine_deleted_token_is_gone Sample.internal_cfg 2000 "tok-alice"
              Sample.alice_session EngineSample.an_engine
              ltac:(repeat constructor; simpl; intuition discriminate)
              ltac:(discriminate) eq_refl) as (e' & Hdel & _ & Hget & Hauth).
  exists e'. split; [exact Hdel|]. split; [apply Hget|apply Hauth; reflexivity].
Defined.

Lemma engine_expired_token_is_evicted_witness :
  exists e',
    authorize Sample.internal_cfg 5000 (Some "tok-alice") EngineSample.an_engine
    = (Raise expired_token, e') /\
    authorize Sample.internal_cfg 5001 (Some "tok-alice") e' = (Raise invalid_token, e').
Proof.
  destruct (engine_expired_token_is_evicted Sample.internal_cfg 5000 "tok-alice"
              Sample.alice_session EngineSample.an_engine
              ltac:(repeat constructor; simpl; intuition discriminate)
              ltac:(discriminate) eq_refl ltac:(simpl; lia) eq_refl)
    as (e' & Hfirst & Hnext & _).
  exists e'. split; [exact Hfirst|apply Hnext].
Defined.

Lemma engine_get_token_owner_or_admin_witness :
  get_token (Session Sample.alice_session) "tok-alice" EngineSample.an_engine
  = Return Sample.alice_session /\
  get_token (Fake_session "fake-token-id-for-test" "admin" "tester") "tok-alice"
    EngineSample.an_engine
  = Raise (Uncaught KeyError).
Proof.
  split; [reflexivity|].
  apply (proj2 (engine_get_token_owner_or_admin
                  (Fake_session "fake-token-id-for-test" "admin" "tester") "tok-alice"
                  EngineSample.an_engine)
           "fake-token-id-for-test" "admin" "tester" Sample.alice_session eq_refl eq_refl).
  discriminate.
Defined.

End EngineExtras.
